(** * bdfr: dispatch, submission filter, resource committer, existing-file scan

    A shallow embedding of [bdfr/site_downloaders/download_factory.py] and
    [bdfr/downloader.py], and the properties of the design document checked
    against it.

    Python [str] values are modelled as Rocq strings of 8-bit characters,
    read as the code points 0..255; the character classes of [re] and the
    case mapping of [str.lower] are those of Python on that range. *)

From Stdlib Require Import ZArith QArith String Ascii List Bool Lia.
From stdpp Require Import base option list gmap strings.

Local Open Scope string_scope.

(** ** Characters and strings *)

Module Chr.

Definition code (c : ascii) : N := N_of_ascii c.

Definition between (lo hi : N) (c : ascii) : bool :=
  ((lo <=? code c) && (code c <=? hi))%N.

(** [\s] on a [str] pattern: the Unicode white space below 256. *)
Definition is_space (c : ascii) : bool :=
  between 9 13 c || between 28 32 c
  || (code c =? 133)%N || (code c =? 160)%N.

Definition is_digit (c : ascii) : bool := between 48 57 c.
Definition is_upper (c : ascii) : bool := between 65 90 c.
Definition is_lower (c : ascii) : bool := between 97 122 c.

(** [c.isascii() and c.isalpha()] *)
Definition is_ascii_alpha (c : ascii) : bool := is_upper c || is_lower c.

(** The alphanumeric code points of Latin-1 above 127 ([str.isalnum]). *)
Definition is_latin1_alnum (c : ascii) : bool :=
  (code c =? 170)%N || (code c =? 178)%N || (code c =? 179)%N
  || (code c =? 181)%N || (code c =? 185)%N || (code c =? 186)%N
  || between 188 190 c || between 192 214 c || between 216 246 c
  || between 248 255 c.

(** [\w] on a [str] pattern. *)
Definition is_word (c : ascii) : bool :=
  is_digit c || is_ascii_alpha c || (code c =? 95)%N || is_latin1_alnum c.

Definition is_newline (c : ascii) : bool := (code c =? 10)%N.

(** [str.lower] on one character of the range: A-Z and the Latin-1
    capitals (all of 192..222 but the multiplication sign 215). *)
Definition lower (c : ascii) : ascii :=
  if is_upper c || (between 192 222 c && negb (code c =? 215)%N)
  then ascii_of_N (code c + 32) else c.

(** Case-insensitive comparison of [re.IGNORECASE] against an ASCII
    pattern character. *)
Definition eqb_ci (p c : ascii) : bool :=
  Ascii.eqb p c
  || (is_ascii_alpha p && is_ascii_alpha c && Ascii.eqb (lower p) (lower c)).

End Chr.

Module Str.

Fixpoint map (f : ascii -> ascii) (s : string) : string :=
  match s with
  | EmptyString => EmptyString
  | String c s' => String (f c) (map f s')
  end.

(** [s.lower()] *)
Definition lower (s : string) : string := map Chr.lower s.

Fixpoint filter (p : ascii -> bool) (s : string) : string :=
  match s with
  | EmptyString => EmptyString
  | String c s' => if p c then String c (filter p s') else filter p s'
  end.

Fixpoint forallb (p : ascii -> bool) (s : string) : bool :=
  match s with
  | EmptyString => true
  | String c s' => p c && forallb p s'
  end.

Fixpoint existsb (p : ascii -> bool) (s : string) : bool :=
  match s with
  | EmptyString => false
  | String c s' => p c || existsb p s'
  end.

(** [c in s] for a one-character [c] *)
Definition mem (c : ascii) (s : string) : bool := existsb (Ascii.eqb c) s.

(** [s.lstrip(chars)] with the character set given as a predicate *)
Fixpoint lstrip (p : ascii -> bool) (s : string) : string :=
  match s with
  | EmptyString => EmptyString
  | String c s' => if p c then lstrip p s' else s
  end.

(** The longest prefix without a character of [p], and the rest (which
    is empty or starts with a character of [p]). *)
Fixpoint break (p : ascii -> bool) (s : string) : string * string :=
  match s with
  | EmptyString => (EmptyString, EmptyString)
  | String c s' =>
      if p c then (EmptyString, s)
      else let '(a, b) := break p s' in (String c a, b)
  end.

(** [s.partition(c)] when [c] occurs in [s]: the text before the first
    occurrence and the text after it; [None] when [c] does not occur. *)
Fixpoint partition (c : ascii) (s : string) : option (string * string) :=
  match s with
  | EmptyString => None
  | String d s' =>
      if Ascii.eqb c d then Some (EmptyString, s')
      else match partition c s' with
           | Some (a, b) => Some (String d a, b)
           | None => None
           end
  end.

Fixpoint drop (n : nat) (s : string) : string :=
  match n, s with
  | O, _ => s
  | S _, EmptyString => EmptyString
  | S k, String _ s' => drop k s'
  end.

(** [s.startswith(p)] *)
Fixpoint startswith (p s : string) : bool :=
  match p, s with
  | EmptyString, _ => true
  | String _ _, EmptyString => false
  | String a p', String b s' => Ascii.eqb a b && startswith p' s'
  end.

End Str.

(** ** Regular expressions of [re]

    The patterns of the source use only constructs with a regular
    language, and [re.match] is used for its truth value only, so a
    pattern is modelled by its language and matched by derivatives. *)

Module Re.

Inductive regex : Type :=
| Void : regex                         (* matches nothing *)
| Eps : regex                          (* the empty string *)
| Sym (p : ascii -> bool) : regex      (* one character of a class *)
| Cat (r1 r2 : regex) : regex
| Alt (r1 r2 : regex) : regex
| Star (r : regex) : regex.

Fixpoint nullable (r : regex) : bool :=
  match r with
  | Void => false
  | Eps => true
  | Sym _ => false
  | Cat r1 r2 => nullable r1 && nullable r2
  | Alt r1 r2 => nullable r1 || nullable r2
  | Star _ => true
  end.

Fixpoint deriv (c : ascii) (r : regex) : regex :=
  match r with
  | Void => Void
  | Eps => Void
  | Sym p => if p c then Eps else Void
  | Cat r1 r2 =>
      if nullable r1 then Alt (Cat (deriv c r1) r2) (deriv c r2)
      else Cat (deriv c r1) r2
  | Alt r1 r2 => Alt (deriv c r1) (deriv c r2)
  | Star r1 => Cat (deriv c r1) (Star r1)
  end.

(** The whole of [s] is in the language of [r]. *)
Fixpoint accepts (r : regex) (s : string) : bool :=
  match s with
  | EmptyString => nullable r
  | String c s' => accepts (deriv c r) s'
  end.

(** The language of a pattern. *)
Inductive lang : regex -> string -> Prop :=
| lang_eps : lang Eps ""
| lang_sym p c : p c = true -> lang (Sym p) (String c "")
| lang_cat r1 r2 s1 s2 : lang r1 s1 -> lang r2 s2 -> lang (Cat r1 r2) (s1 +:+ s2)
| lang_alt_l r1 r2 s : lang r1 s -> lang (Alt r1 r2) s
| lang_alt_r r1 r2 s : lang r2 s -> lang (Alt r1 r2) s
| lang_star_nil r : lang (Star r) ""
| lang_star_cons r s1 s2 : lang r s1 -> lang (Star r) s2 -> lang (Star r) (s1 +:+ s2).

(** *** Pattern syntax *)

(** [.] : any character but a newline *)
Definition dot : regex := Sym (fun c => negb (Chr.is_newline c)).
(** any character at all: the text after the end of an unanchored match *)
Definition anychar : regex := Sym (fun _ => true).
(** a literal character, [\.] or [/] *)
Definition chr (c : ascii) : regex := Sym (Ascii.eqb c).
(** a literal character under [(?i)] *)
Definition chr_ci (c : ascii) : regex := Sym (Chr.eqb_ci c).
(** [r?] *)
Definition opt (r : regex) : regex := Alt r Eps.

(** a literal string *)
Fixpoint lit (s : string) : regex :=
  match s with
  | EmptyString => Eps
  | String c s' => Cat (chr c) (lit s')
  end.

(** a literal string under [(?i)] *)
Fixpoint lit_ci (s : string) : regex :=
  match s with
  | EmptyString => Eps
  | String c s' => Cat (chr_ci c) (lit_ci s')
  end.

(** [(r1|r2|...)] *)
Fixpoint alts (rs : list regex) : regex :=
  match rs with
  | [] => Void
  | [r] => r
  | r :: rs' => Alt r (alts rs')
  end.

(** [$] without [re.MULTILINE]: the end of the string, or just before a
    newline that ends the string. It only occurs last in a pattern. *)
Definition dollar : regex := opt (Sym Chr.is_newline).

(** A compiled pattern: its body, and whether it ends in [$]. *)
Record pattern : Type := Pattern { body : regex; ends_in_dollar : bool }.

(** [re.match(p, s)] as a truth value: the pattern matches at the start
    of [s]; up to the end as [$] has it when the pattern ends in [$],
    and up to anywhere otherwise. *)
Definition re_match (p : pattern) (s : string) : bool :=
  if ends_in_dollar p then accepts (Cat (body p) dollar) s
  else accepts (Cat (body p) (Star anychar)) s.

End Re.

(** ** Exceptions and results *)

(** The exceptions of the two modules, by their class. [OSError] and
    [ValueError] stand for the instances of their subclasses too;
    [ValueError] is what [urllib.parse.urlsplit] raises;
    [OtherException] is anything else. *)
Inductive Exn : Type :=
| NotADownloadableLinkError
| SiteDownloaderError
| BulkDownloaderException
| OSError
| ValueError
| OtherException (name : string).

#[global] Instance Exn_eq_dec : EqDecision Exn.
Proof. solve_decision. Defined.

(** Modelled from the spec: [bdfr/exceptions.py] is not among the
    sources. [isinstance e cls] is [isinstance(e, cls)], as an
    [except cls] clause tests it: a handler catches the instances of
    the subclasses of its class too. The dispatch error is one of the
    errors of a site downloader, and these are errors of the bulk
    downloader: [NotADownloadableLinkError] derives from
    [SiteDownloaderError], which derives from
    [BulkDownloaderException]. *)
Definition isinstance (e cls : Exn) : bool :=
  bool_decide (e = cls)
  || match e, cls with
     | NotADownloadableLinkError, SiteDownloaderError => true
     | NotADownloadableLinkError, BulkDownloaderException => true
     | SiteDownloaderError, BulkDownloaderException => true
     | _, _ => false
     end.

Inductive result (A : Type) : Type :=
| Ok (a : A)
| Raise (e : Exn).
Arguments Ok {A} a.
Arguments Raise {A} e.

(** ** [urllib.parse.urlsplit] (CPython 3.11) *)

Module Urllib.

Record SplitResult : Type := mkSplitResult {
  scheme : string;
  netloc : string;
  path : string;
  query : string;
  fragment : string
}.

(** [_WHATWG_C0_CONTROL_OR_SPACE] *)
Definition c0_control_or_space (c : ascii) : bool := (Chr.code c <=? 32)%N.

(** [_UNSAFE_URL_BYTES_TO_REMOVE]: tab, carriage return, newline *)
Definition unsafe_url_byte (c : ascii) : bool :=
  (Chr.code c =? 9)%N || (Chr.code c =? 13)%N || (Chr.code c =? 10)%N.

(** [scheme_chars] *)
Definition scheme_char (c : ascii) : bool :=
  Chr.is_lower c || Chr.is_upper c || Chr.is_digit c || Str.mem c "+-.".

(** The characters that end the network location. *)
Definition netloc_delim (c : ascii) : bool := Str.mem c "/?#".

(** [i = url.find(':')] and the test that [url[:i]] is a scheme; the
    result is the scheme and the rest of the URL. *)
Definition split_scheme (url : string) : string * string :=
  match Str.partition ":" url with
  | Some (String c0 before, after) =>
      if Chr.is_ascii_alpha c0 && Str.forallb scheme_char (String c0 before)
      then (Str.lower (String c0 before), after)
      else ("", url)
  | _ => ("", url)
  end.

(** [if url[:2] == '//': netloc, url = _splitnetloc(url, 2)] *)
Definition split_netloc (url : string) : string * string :=
  if Str.startswith "//" url then Str.break netloc_delim (Str.drop 2 url)
  else ("", url).

(** [url, sep_rest = url.split(c, 1)] when [c in url] *)
Definition split_once (c : ascii) (url : string) : string * string :=
  match Str.partition c url with
  | Some (a, b) => (a, b)
  | None => (url, "")
  end.

Section urlsplit.

(** [_check_bracketed_netloc] passes: the bracketed host is an IPv6 or
    IPvFuture address. It is decided by the [ipaddress] module and is
    left open here. *)
Variable bracketed_netloc_ok : string -> bool.

(** The tests on brackets that raise "Invalid IPv6 URL". The later
    [_checknetloc] raises for a network location with a character
    whose NFKC form has one of [/?#@:]. No character below U+0100 has
    such a form, and the strings here hold no other characters, so
    that test is not modelled: a URL with a character from U+0100 on
    (as U+2100, whose form is [a/c]) is outside of the model. *)
Definition netloc_invalid (netloc : string) : bool :=
  let has_open := Str.mem "[" netloc in
  let has_close := Str.mem "]" netloc in
  (has_open && negb has_close) || (has_close && negb has_open)
  || (has_open && has_close && negb (bracketed_netloc_ok netloc)).

Definition urlsplit (url : string) : result SplitResult :=
  let url := Str.lstrip c0_control_or_space url in
  let url := Str.filter (fun c => negb (unsafe_url_byte c)) url in
  let '(scheme, url) := split_scheme url in
  let '(netloc, url) := split_netloc url in
  if netloc_invalid netloc then Raise ValueError
  else
    let '(url, fragment) := split_once "#" url in
    let '(url, query) := split_once "?" url in
    Ok (mkSplitResult scheme netloc url query fragment).

End urlsplit.

End Urllib.

(** ** [bdfr/site_downloaders/download_factory.py] *)

(** The downloader classes the module imports. *)
Inductive DownloaderClass : Type :=
| Direct | Erome | YtdlpFallback | Gallery | Gfycat | Imgur
| PornHub | Redgifs | SelfPost | Vidble | Youtube.

#[global] Instance DownloaderClass_eq_dec : EqDecision DownloaderClass.
Proof. solve_decision. Defined.

(** [cls.__name__] *)
Definition class_name (cls : DownloaderClass) : string :=
  match cls with
  | Direct => "Direct" | Erome => "Erome" | YtdlpFallback => "YtdlpFallback"
  | Gallery => "Gallery" | Gfycat => "Gfycat" | Imgur => "Imgur"
  | PornHub => "PornHub" | Redgifs => "Redgifs" | SelfPost => "SelfPost"
  | Vidble => "Vidble" | Youtube => "Youtube"
  end.

Module DownloadFactory.

Import Re.

Fixpoint rep (n : nat) (r : regex) : regex :=
  match n with
  | O => Eps
  | S k => Cat r (rep k r)
  end.

(** [r{lo,lo+extra}] *)
Fixpoint rep_upto (extra : nat) (r : regex) : regex :=
  match extra with
  | O => Eps
  | S k => opt (Cat r (rep_upto k r))
  end.

Definition word : regex := Sym Chr.is_word.

(** [[\w;&=]] *)
Definition query_char (c : ascii) : bool := Chr.is_word c || Str.mem c ";&=".

(** the optional query group: [\?], then characters of [[\w;&=]] *)
Definition query_group : regex := opt (Cat (chr "?") (Star (Sym query_char))).

(** the pattern of the first test: [.*/.*\.\w{3,4}], the optional query
    group, [$] *)
Definition file_pattern : pattern :=
  Pattern
    (Cat (Star dot) (Cat (chr "/") (Cat (Star dot) (Cat (chr ".")
       (Cat (Cat (rep 3 word) (rep_upto 1 word)) query_group)))))
    true.

(** The same pattern without the query group: [.*/.*\.\w{3,4}$] *)
Definition file_pattern_without_query : pattern :=
  Pattern
    (Cat (Star dot) (Cat (chr "/") (Cat (Star dot) (Cat (chr ".")
       (Cat (rep 3 word) (rep_upto 1 word))))))
    true.

(** [r"reddit\.com/r/"] *)
Definition self_post_pattern : pattern :=
  Pattern (lit "reddit.com/r/") false.

Definition web_extensions : list string :=
  ["asp"; "aspx"; "cfm"; "cfml"; "css"; "htm"; "html"; "js"; "php"; "php3"; "xhtml"].

(** [rf'(?i).*/.*\.({"|".join(web_extensions)})$'] *)
Definition web_pattern : pattern :=
  Pattern
    (Cat (Star dot) (Cat (chr_ci "/") (Cat (Star dot) (Cat (chr_ci ".")
       (alts (List.map lit_ci web_extensions))))))
    true.

Definition is_web_resource (url : string) : bool :=
  if re_match web_pattern url then true else false.

(** [beginning_regex = re.compile(r"\s*(www\.?)?")]: the length of its
    match at the start of [s]. Every part of the pattern is optional and
    greedy and nothing follows it, so the match takes the whole run of
    white space, then [www] if it is there, then a dot if it is there. *)
Fixpoint beginning_regex_match (s : string) : nat :=
  match s with
  | String c s' =>
      if Chr.is_space c then S (beginning_regex_match s')
      else if Str.startswith "www." s then 4
      else if Str.startswith "www" s then 3
      else 0
  | EmptyString => 0
  end.

(** [re.sub(pattern, "", s)] for a pattern that matches everywhere
    (possibly the empty string), given the length of its match at the
    start of a string: the scan goes from left to right, the characters
    of a match are dropped ([skip] counts those left of the current
    match), and a character where the match is empty is kept. *)
Fixpoint re_sub_delete (match_len : string -> nat) (skip : nat) (s : string) : string :=
  match s with
  | EmptyString => EmptyString
  | String c s' =>
      match skip with
      | S k => re_sub_delete match_len k s'
      | O =>
          match match_len s with
          | O => String c (re_sub_delete match_len 0 s')
          | S k => re_sub_delete match_len k s'
          end
      end
  end.

(** A check of bracketed hosts that accepts every host, as [urlsplit]
    has it before CPython 3.11.4. *)
Definition accept_bracketed : string -> bool := fun _ => true.

Section Factory.

Variable bracketed_netloc_ok : string -> bool.

Definition sanitise_url (url : string) : result string :=
  match Urllib.urlsplit bracketed_netloc_ok url with
  | Raise e => Raise e
  | Ok split_url =>
      let split_url := Urllib.netloc split_url +:+ Urllib.path split_url in
      let split_url := re_sub_delete beginning_regex_match 0 split_url in
      Ok split_url
  end.

(** The result carries what the call prints on [stdout]. *)
Definition pull_lever (url : string) : list string * result DownloaderClass :=
  match sanitise_url url with
  | Raise e => ([], Raise e)
  | Ok sanitised_url =>
      if re_match file_pattern sanitised_url && negb (is_web_resource sanitised_url)
      then ([url], Raise NotADownloadableLinkError)
      else if re_match self_post_pattern sanitised_url
      then ([], Ok SelfPost)
      else ([url], Raise NotADownloadableLinkError)
  end.

End Factory.

End DownloadFactory.


(** ** What the patterns test, in terms of the text of the URL *)

Module UrlShape.

(** [s.rpartition(c)] when [c] occurs in [s]: the text before the last
    occurrence and the text after it. *)
Fixpoint rpartition (c : ascii) (s : string) : option (string * string) :=
  match s with
  | EmptyString => None
  | String d s' =>
      match rpartition c s' with
      | Some (a, b) => Some (String d a, b)
      | None => if Ascii.eqb c d then Some (EmptyString, s') else None
      end
  end.

(** The text after the last dot, when a slash comes before that dot. *)
Definition extension (s : string) : option string :=
  match rpartition "." s with
  | Some (a, b) => if Str.mem "/" a then Some b else None
  | None => None
  end.

(** [s] is [p] up to the case of ASCII letters. *)
Fixpoint eqb_ci (p s : string) : bool :=
  match p, s with
  | EmptyString, EmptyString => true
  | String a p', String b s' => Chr.eqb_ci a b && eqb_ci p' s'
  | _, _ => false
  end.

(** three or four word characters *)
Definition is_file_extension (e : string) : bool :=
  Str.forallb Chr.is_word e
  && (Nat.eqb (String.length e) 3 || Nat.eqb (String.length e) 4).

(** one of the web extensions, in any case *)
Definition is_web_extension (e : string) : bool :=
  List.existsb (fun ext => eqb_ci ext e) DownloadFactory.web_extensions.

(** The URL looks like a link to a file that is not a web page. *)
Definition direct_like (s : string) : bool :=
  match extension s with
  | Some e => is_file_extension e && negb (is_web_extension e)
  | None => false
  end.

Definition query_or_fragment_start (c : ascii) : bool := Str.mem c "?#".

(** The URL without its query string and its fragment. *)
Definition strip_query_fragment (url : string) : string :=
  fst (Str.break query_or_fragment_start url).

End UrlShape.

(** ** [bdfr/downloader.py] *)

Module Downloader.

Abbreviation bytes := (list Byte.byte).

(** A [pathlib.Path], by its components. *)
Abbreviation Path := (list string).

(** [Path(dirpath, file)] *)
Definition joinpath (dirpath : Path) (file : string) : Path := dirpath ++ [file].

(** [path.parent] *)
Definition parent (path : Path) : Path := removelast path.

(** The path and the directories above it, from the root down. *)
Fixpoint ancestors (path : Path) : list Path :=
  [] :: match path with
        | [] => []
        | name :: path' => List.map (cons name) (ancestors path')
        end.

(** *** The objects the module works with *)

(** [hashlib.md5]: a new hash object, [update] and [hexdigest]. *)
Record Hashlib : Type := mkHashlib {
  md5_state : Type;
  md5_new : md5_state;
  md5_update : md5_state -> bytes -> md5_state;
  md5_hexdigest : md5_state -> string
}.

(** [hashlib.md5(content).hexdigest()] *)
Definition md5 (h : Hashlib) (content : bytes) : string :=
  md5_hexdigest h (md5_update h (md5_new h) content).

(** What [res.download] finds at the source. *)
Inductive Fetch : Type :=
| Fetched (content : bytes)
| FetchFails (e : Exn).

(** Modelled from the spec: [bdfr/resource.py] is not among the
    sources. A resource has a source URL and a fetch operation that
    yields raw bytes plus a content hash computed over the full byte
    stream, or fails (a fetch that exceeds the maximum wait fails). *)
Record Resource : Type := mkResource {
  res_url : string;
  res_fetch : Fetch
}.

(** The fields of a [praw.models.Submission] the module reads; a deleted
    author is [None]; [is_submission] is the [isinstance] test. *)
Record Submission : Type := mkSubmission {
  id : string;
  subreddit_display_name : string;
  author_name : option string;
  score : Z;
  upvote_ratio : Q;
  created_utc : Z;
  url : string;
  is_submission : bool
}.

(** The fields of [Configuration] the module reads; an option that is
    not set is [None]. *)
Record Configuration : Type := mkConfiguration {
  skip_subreddit : list string;
  ignore_user : list string;
  min_score : option Z;
  max_score : option Z;
  min_score_ratio : option Q;
  max_score_ratio : option Q;
  disable_module : list string;
  max_wait_time : option Z;
  no_dupes : bool;
  make_hard_links : bool;
  search_existing : bool
}.

(** The calls to the operating system that can fail. *)
Inductive Syscall : Type :=
| SysMkdir (path : Path)
| SysOpen (path : Path)
| SysWrite (path : Path)
| SysUtime (path : Path)
| SysLink (src dst : Path).

(** *** Log records *)

Inductive Level : Type := DEBUG | INFO | WARNING | ERROR.

(** The messages of the module, by their format string. *)
Inductive Message : Type :=
| InExclusionList (id : string)
| InSkipList (id subreddit : string)
| IgnoredUser (id subreddit user : string)
| ScoreBelowMin (id : string) (score min : Z)
| ScoreAboveMax (id : string) (max score : Z)
| ScoreRatioOut (id : string) (ratio : Q)
| NotASubmission (id : string)
| UrlFiltered (id url : string)
| Attempting (id : string)
| Using (cls : DownloaderClass) (url : string)
| ModuleDisabled (id : string) (cls : DownloaderClass)
| SiteFailed (cls : DownloaderClass) (id : string) (e : Exn)
| AlreadyExists (destination : Path) (id : string)
| ResourceFiltered (id url : string)
| DownloadFailed (res_url id : string) (cls : DownloaderClass) (e : Exn)
| DownloadedElsewhere (hash id : string)
| HardLinkMade (destination indexed : Path) (id : string)
| WrittenTo (destination : Path)
| Traceback (e : Exn)
| WriteFailed (id : string) (destination : Path) (e : Exn)
| HashAdded (hash : string)
| Downloaded (id subreddit : string).

(** *** The state the module changes *)

Record State : Type := mkState {
  files : gmap Path bytes;             (* the regular files and what they hold *)
  dirs : gset Path;                    (* the directories *)
  mtimes : gmap Path Z;                (* the times set by [os.utime] *)
  master_hash_list : gmap string Path;
  log : list (Level * Message);
  stdout : list string
}.

Definition set_files (f : gmap Path bytes -> gmap Path bytes) (st : State) : State :=
  mkState (f (files st)) (dirs st) (mtimes st) (master_hash_list st) (log st) (stdout st).
Definition set_dirs (f : gset Path -> gset Path) (st : State) : State :=
  mkState (files st) (f (dirs st)) (mtimes st) (master_hash_list st) (log st) (stdout st).
Definition set_mtimes (f : gmap Path Z -> gmap Path Z) (st : State) : State :=
  mkState (files st) (dirs st) (f (mtimes st)) (master_hash_list st) (log st) (stdout st).
Definition set_master_hash_list (f : gmap string Path -> gmap string Path) (st : State) : State :=
  mkState (files st) (dirs st) (mtimes st) (f (master_hash_list st)) (log st) (stdout st).
Definition add_log (entry : Level * Message) (st : State) : State :=
  mkState (files st) (dirs st) (mtimes st) (master_hash_list st) (log st ++ [entry]) (stdout st).
Definition add_stdout (lines : list string) (st : State) : State :=
  mkState (files st) (dirs st) (mtimes st) (master_hash_list st) (log st) (stdout st ++ lines).

(** What the module calls and does not define: the standard library,
    the classes of the package that are not among the sources, and the
    operating system. [mktime t] is
    [time.mktime(datetime.fromtimestamp(t).timetuple())], the way of
    the time [t] to the local time and back: it raises for a time
    that the platform cannot convert, and what it returns is the
    platform's (the time [t] in whole seconds, but for an hour that a
    change of the clock repeats). [fault] says which system calls
    fail, in which state and with which exception. *)
Record Env : Type := mkEnv {
  hashlib : Hashlib;
  bracketed_netloc_ok : string -> bool;
  check_url : string -> bool;
  check_resource : Resource -> bool;
  find_resources : DownloaderClass -> Submission -> result (list Resource);
  format_resource_paths : list Resource -> Path -> list (Path * Resource);
  mktime : Z -> result Z;
  fault : State -> Syscall -> option Exn
}.

(** The attributes of the [RedditDownloader] that do not change. *)
Record RedditDownloader : Type := mkRedditDownloader {
  args : Configuration;
  excluded_submission_ids : list string;
  download_directory : Path
}.

(** *** Statements: a state and exception monad *)

Definition M (A : Type) : Type := State -> result A * State.

Definition ret {A : Type} (a : A) : M A := fun st => (Ok a, st).

Definition bind {A B : Type} (m : M A) (k : A -> M B) : M B :=
  fun st =>
    match m st with
    | (Ok a, st') => k a st'
    | (Raise e, st') => (Raise e, st')
    end.

Definition raise {A : Type} (e : Exn) : M A := fun st => (Raise e, st).

(** [try: m  except cls as e: handler e]: the handler takes the
    instances of [cls], those of its subclasses among them. *)
Definition try_except {A : Type} (m : M A) (cls : Exn) (handler : Exn -> M A) : M A :=
  fun st =>
    match m st with
    | (Ok a, st') => (Ok a, st')
    | (Raise e, st') =>
        if isinstance e cls then handler e st' else (Raise e, st')
    end.

Definition get {A : Type} (f : State -> A) : M A := fun st => (Ok (f st), st).
Definition modify (f : State -> State) : M unit := fun st => (Ok tt, f st).

#[global] Instance M_ret : MRet M := @ret.
#[global] Instance M_bind : MBind M := fun A B k m => bind m k.

(** [logger.debug], [logger.info], ... *)
Definition logger (level : Level) (msg : Message) : M unit :=
  modify (add_log (level, msg)).

(** [logger.exception(e)]: an [ERROR] record with the traceback *)
Definition logger_exception (e : Exn) : M unit := logger ERROR (Traceback e).

(** Lift a call that returns or raises. *)
Definition call {A : Type} (r : result A) : M A :=
  match r with
  | Ok a => ret a
  | Raise e => raise e
  end.

(** The truth value of an optional number: set and not zero. *)
Definition truthyZ (o : option Z) : bool :=
  match o with
  | Some z => negb (z =? 0)%Z
  | None => false
  end.

Definition truthyQ (o : option Q) : bool :=
  match o with
  | Some q => negb (Qeq_bool q 0)
  | None => false
  end.

Definition Qltb (x y : Q) : bool := negb (Qle_bool y x).

(** [x in l] for a list of strings *)
Definition in_list (x : string) (l : list string) : bool := bool_decide (x ∈ l).

(** *** The file system *)

(** There is a file or a directory at the path. *)
Definition path_exists (st : State) (path : Path) : bool :=
  bool_decide (path ∈ dom (files st)) || bool_decide (path ∈ dirs st).

Section Operations.

Variable env : Env.

(** [path.exists()], where it returns: a [stat] that the system
    refuses for another reason than a missing file, which
    [path.exists()] raises again, is not modelled. *)
Definition exists_ (path : Path) : M bool :=
  get (fun st => path_exists st path).

(** A call to the system that fails when [fault] says so. *)
Definition syscall (c : Syscall) : M unit :=
  fun st =>
    match fault env st c with
    | Some e => (Raise e, st)
    | None => (Ok tt, st)
    end.

(** [path.mkdir(parents=True, exist_ok=True)] *)
Definition mkdir_parents (path : Path) : M unit :=
  syscall (SysMkdir path) ;;
  modify (set_dirs (fun ds => ds ∪ list_to_set (ancestors path))).

(** [with open(path, "wb") as file: file.write(content)]: opening
    creates the file or empties it; a write that fails leaves it
    empty. *)
Definition write_file (path : Path) (content : bytes) : M unit :=
  syscall (SysOpen path) ;;
  modify (set_files (insert path [])) ;;
  syscall (SysWrite path) ;;
  modify (set_files (insert path content)).

(** [os.utime(path, (time, time))] *)
Definition utime (path : Path) (time : Z) : M unit :=
  syscall (SysUtime path) ;;
  modify (set_mtimes (insert path time)).

(** [src.link_to(dst)]: [dst] becomes a hard link to the file [src];
    there is no link to a file that is not there. *)
Definition link_to (src dst : Path) : M unit :=
  syscall (SysLink src dst) ;;
  st ← get (fun st => st);
  match files st !! src with
  | Some content => modify (set_files (insert dst content))
  | None => raise OSError
  end.

(** [res.download(...)]: the content and its hash, or the error. *)
Definition download_resource (res : Resource) : M (bytes * string) :=
  match res_fetch res with
  | Fetched content => mret (content, md5 (hashlib env) content)
  | FetchFails e => raise e
  end.

(** [DownloadFactory.pull_lever(url)], with what it prints. *)
Definition pull_lever (url : string) : M DownloaderClass :=
  let '(printed, r) := DownloadFactory.pull_lever (bracketed_netloc_ok env) url in
  modify (add_stdout printed) ;; call r.

End Operations.

(** *** [RedditDownloader] *)

(** How the body of the loop over the resources ends: with [continue]
    or at its end, or with [return]. *)
Inductive Flow : Type := Continue | Return.

Section Methods.

Variable env : Env.
Variable self : RedditDownloader.

(** The body of the [for destination, res in ...] loop. *)
Definition download_one (submission : Submission) (downloader_class : DownloaderClass)
    (destination : Path) (res : Resource) : M Flow :=
  existing ← exists_ destination;
  if existing : bool then
    logger DEBUG (AlreadyExists destination (id submission)) ;;
    mret Continue
  else if negb (check_resource env res) then
    logger DEBUG (ResourceFiltered (id submission) (url submission)) ;;
    mret Continue
  else
    fetched ← try_except
                (r ← download_resource env res; mret (Some r))
                BulkDownloaderException
                (fun e =>
                   logger ERROR (DownloadFailed (res_url res) (id submission)
                                   downloader_class e) ;;
                   mret None);
    match fetched with
    | None => mret Return
    | Some (content, resource_hash) =>
        mkdir_parents env (parent destination) ;;
        index ← get master_hash_list;
        match index !! resource_hash with
        | Some indexed =>
            if no_dupes (args self) then
              logger INFO (DownloadedElsewhere resource_hash (id submission)) ;;
              mret (Some Return)
            else if make_hard_links (args self) then
              link_to env indexed destination ;;
              logger INFO (HardLinkMade destination indexed (id submission)) ;;
              mret (Some Return)
            else mret None
        | None => mret None
        end ≫= fun decided =>
        match decided with
        | Some flow => mret flow
        | None =>
            written ← try_except
                        (write_file env destination content ;;
                         logger DEBUG (WrittenTo destination) ;;
                         mret true)
                        OSError
                        (fun e =>
                           logger_exception e ;;
                           logger ERROR (WriteFailed (id submission) destination e) ;;
                           mret false);
            if written : bool then
              creation_time ← call (mktime env (created_utc submission));
              utime env destination creation_time ;;
              modify (set_master_hash_list (insert resource_hash destination)) ;;
              logger DEBUG (HashAdded resource_hash) ;;
              mret Continue
            else mret Return
        end
    end.

(** The loop over the resources; [Return] leaves the method. *)
Fixpoint download_all (submission : Submission) (downloader_class : DownloaderClass)
    (items : list (Path * Resource)) : M Flow :=
  match items with
  | [] => mret Continue
  | (destination, res) :: items' =>
      flow ← download_one submission downloader_class destination res;
      match flow with
      | Continue => download_all submission downloader_class items'
      | Return => mret Return
      end
  end.

(** The checks at the head of [_download_submission], in the order of
    the [if]/[elif] chain: the message of the first that rejects the
    submission, if any. *)
Definition rejection (submission : Submission) : option (Level * Message) :=
  let a := args self in
  if in_list (id submission) (excluded_submission_ids self) then
    Some (DEBUG, InExclusionList (id submission))
  else if in_list (Str.lower (subreddit_display_name submission)) (skip_subreddit a) then
    Some (DEBUG, InSkipList (id submission) (subreddit_display_name submission))
  else if match author_name submission with
          | Some name => in_list name (ignore_user a)
          | None => in_list "DELETED" (ignore_user a)
          end then
    Some (DEBUG, IgnoredUser (id submission) (subreddit_display_name submission)
                   (default "DELETED" (author_name submission)))
  else if truthyZ (min_score a)
          && (score submission <? default 0 (min_score a))%Z then
    Some (DEBUG, ScoreBelowMin (id submission) (score submission) (default 0%Z (min_score a)))
  else if truthyZ (max_score a)
          && (default 0 (max_score a) <? score submission)%Z then
    Some (DEBUG, ScoreAboveMax (id submission) (default 0%Z (max_score a)) (score submission))
  else if (truthyQ (min_score_ratio a)
           && Qltb (upvote_ratio submission) (default 0%Q (min_score_ratio a)))
          || (truthyQ (max_score_ratio a)
              && Qltb (default 0%Q (max_score_ratio a)) (upvote_ratio submission)) then
    Some (DEBUG, ScoreRatioOut (id submission) (upvote_ratio submission))
  else if negb (is_submission submission) then
    Some (WARNING, NotASubmission (id submission))
  else if negb (check_url env (url submission)) then
    Some (DEBUG, UrlFiltered (id submission) (url submission))
  else None.

(** [_download_submission]. Making the downloader object,
    [downloader_class(submission)], keeps the submission and does
    nothing else; the record of the dispatch failure is commented out
    in the source, so that handler only returns. *)
Definition _download_submission (submission : Submission) : M unit :=
  match rejection submission with
  | Some entry => modify (add_log entry)
  | None =>
      logger DEBUG (Attempting (id submission)) ;;
      selected ← try_except
                   (downloader_class ← pull_lever env (url submission);
                    logger DEBUG (Using downloader_class (url submission)) ;;
                    mret (Some downloader_class))
                   NotADownloadableLinkError
                   (fun e => mret None);
      match selected with
      | None => mret tt
      | Some downloader_class =>
          if in_list (Str.lower (class_name downloader_class))
               (disable_module (args self)) then
            logger DEBUG (ModuleDisabled (id submission) downloader_class)
          else
            found ← try_except
                      (content ← call (find_resources env downloader_class submission);
                       mret (Some content))
                      SiteDownloaderError
                      (fun e =>
                         logger ERROR (SiteFailed downloader_class (id submission) e) ;;
                         mret None);
            match found with
            | None => mret tt
            | Some content =>
                flow ← download_all submission downloader_class
                         (format_resource_paths env content (download_directory self));
                match flow with
                | Continue =>
                    logger INFO (Downloaded (id submission)
                                   (subreddit_display_name submission))
                | Return => mret tt
                end
            end
      end
  end.

(** The inner loop of [download]: the submissions of one generator. *)
Fixpoint download_generator (generator : list Submission) : M unit :=
  match generator with
  | [] => mret tt
  | submission :: generator' =>
      _download_submission submission ;; download_generator generator'
  end.

(** [download], given what [self.reddit_lists] yields. *)
Fixpoint download (reddit_lists : list (list Submission)) : M unit :=
  match reddit_lists with
  | [] => mret tt
  | generator :: reddit_lists' =>
      download_generator generator ;; download reddit_lists'
  end.

End Methods.

(** *** The scan of the existing files *)

(** An entry of a directory: a file with what reading it yields, or a
    directory with its entries in the order the system lists them. *)
Inductive Entry : Type :=
| File (name : string) (content : bytes)
| Directory (name : string) (entries : list Entry).

(** The [filenames] of a listing, each with the content of the file. *)
Definition filenames (entries : list Entry) : list (string * bytes) :=
  flat_map (fun e => match e with
                     | File name content => [(name, content)]
                     | Directory _ _ => []
                     end) entries.

(** The [dirnames] of a listing. *)
Definition dirnames (entries : list Entry) : list string :=
  flat_map (fun e => match e with
                     | File _ _ => []
                     | Directory name _ => [name]
                     end) entries.

(** [os.walk], top down, below an entry of [dirpath]: a directory
    yields its triple, then what its subdirectories yield in turn. *)
Fixpoint walk_entry (dirpath : Path) (e : Entry)
    : list (Path * list string * list (string * bytes)) :=
  match e with
  | File _ _ => []
  | Directory name entries =>
      (joinpath dirpath name, dirnames entries, filenames entries)
        :: flat_map (walk_entry (joinpath dirpath name)) entries
  end.

(** [os.walk(directory)] for a directory with the given entries. *)
Definition walk (directory : Path) (entries : list Entry)
    : list (Path * list string * list (string * bytes)) :=
  (directory, dirnames entries, filenames entries)
    :: flat_map (walk_entry directory) entries.

(** [file.read(chunk_size)]: the chunk read and what is left to read. *)
Fixpoint read (size : N) (rest : bytes) : bytes * bytes :=
  match rest with
  | [] => ([], [])
  | b :: rest' =>
      if (size =? 0)%N then ([], rest)
      else let '(chunk, remaining) := read (N.pred size) rest' in (b :: chunk, remaining)
  end.

Definition chunk_size : N := 1024 * 1024.

Section Scan.

Variable h : Hashlib.

(** The [while chunk:] loop; every turn reads at least one byte, so
    it is run with the length of the file as its bound. *)
Fixpoint read_loop (turns : nat) (rest : bytes) (md5_hash : md5_state h) : md5_state h :=
  match turns with
  | O => md5_hash
  | S turns' =>
      let '(chunk, rest') := read chunk_size rest in
      match chunk with
      | [] => md5_hash
      | _ :: _ => read_loop turns' rest' (md5_update h md5_hash chunk)
      end
  end.

(** An existing file is given by its path and what reading it yields. *)
Definition _calc_hash (existing_file : Path * bytes) : Path * string :=
  let md5_hash := read_loop (length (snd existing_file)) (snd existing_file) (md5_new h) in
  let file_hash := md5_hexdigest h md5_hash in
  (fst existing_file, file_hash).

(** The files [scan_existing_files] collects from [os.walk]. *)
Definition walk_files (directory : Path) (entries : list Entry) : list (Path * bytes) :=
  flat_map (fun '(dirpath, _, names) =>
              List.map (fun '(file, content) => (joinpath dirpath file, content)) names)
           (walk directory entries).

(** The dictionary comprehension: a later pair replaces an earlier
    one with the same hash. *)
Definition hash_dict (results : list (Path * string)) : gmap string Path :=
  foldl (fun hash_list res => <[snd res := fst res]> hash_list) ∅ results.

(** [pool.map] returns the results in the order of the files. *)
Definition scan_existing_files (directory : Path) (entries : list Entry)
    : gmap string Path :=
  let files := walk_files directory entries in
  let results := List.map _calc_hash files in
  hash_dict results.

End Scan.

(** [RedditDownloader.__init__], on a download directory with the given
    entries. Modelled from the spec: [RedditConnector.__init__] is not
    among the sources; the hash index is empty unless it is filled by
    the scan. *)
Definition __init__ (env : Env) (self : RedditDownloader) (entries : list Entry) : State :=
  let tree := walk (download_directory self) entries in
  mkState (list_to_map (walk_files (download_directory self) entries))
          (list_to_set (List.map (fun t => fst (fst t)) tree))
          ∅
          (if search_existing (args self)
           then scan_existing_files (hashlib env) (download_directory self) entries
           else ∅)
          [] [].

End Downloader.

(** ** The filter pipeline of the design document

    The ordered checks of the design, each with the reason it gives, to be
    compared with the chain of tests of [_download_submission]. *)

Module FilterPipeline.

Import Downloader.

Record Check : Type := mkCheck {
  rejects : Submission -> bool;
  reason : Submission -> Level * Message
}.

(** A threshold that is absent or zero is not configured. *)
Definition configuredZ (o : option Z) : option Z :=
  match o with
  | Some z => if (z =? 0)%Z then None else Some z
  | None => None
  end.

Definition configuredQ (o : option Q) : option Q :=
  match o with
  | Some q => if Qeq_bool q 0 then None else Some q
  | None => None
  end.

Section Pipeline.

Variable env : Env.
Variable self : RedditDownloader.

(** 1. the identifier is in the exclusion set *)
Definition excluded : Check :=
  mkCheck (fun s => bool_decide (id s ∈ excluded_submission_ids self))
          (fun s => (DEBUG, InExclusionList (id s))).

(** 2. the name of the parent feed, in lower case, is in the skip set *)
Definition skipped_subreddit : Check :=
  mkCheck (fun s => bool_decide (Str.lower (subreddit_display_name s)
                                   ∈ skip_subreddit (args self)))
          (fun s => (DEBUG, InSkipList (id s) (subreddit_display_name s))).

(** 3. the author is in the ignore set; a deleted author matches the
    entry [DELETED] *)
Definition ignored_author : Check :=
  mkCheck (fun s => bool_decide (default "DELETED" (author_name s)
                                   ∈ ignore_user (args self)))
          (fun s => (DEBUG, IgnoredUser (id s) (subreddit_display_name s)
                              (default "DELETED" (author_name s)))).

(** 4. the score is below the configured minimum *)
Definition below_min_score : Check :=
  mkCheck (fun s => match configuredZ (min_score (args self)) with
                    | Some m => (score s <? m)%Z
                    | None => false
                    end)
          (fun s => (DEBUG, ScoreBelowMin (id s) (score s)
                              (default 0%Z (min_score (args self))))).

(** 5. the score is above the configured maximum *)
Definition above_max_score : Check :=
  mkCheck (fun s => match configuredZ (max_score (args self)) with
                    | Some m => (m <? score s)%Z
                    | None => false
                    end)
          (fun s => (DEBUG, ScoreAboveMax (id s)
                              (default 0%Z (max_score (args self))) (score s))).

(** 6. the upvote ratio is outside the configured bounds, each of
    which is optional *)
Definition ratio_out_of_bounds : Check :=
  mkCheck (fun s => match configuredQ (min_score_ratio (args self)) with
                    | Some m => Qltb (upvote_ratio s) m
                    | None => false
                    end
                    || match configuredQ (max_score_ratio (args self)) with
                       | Some m => Qltb m (upvote_ratio s)
                       | None => false
                       end)
          (fun s => (DEBUG, ScoreRatioOut (id s) (upvote_ratio s))).

(** 7. the submission is not of a content-bearing type *)
Definition wrong_type : Check :=
  mkCheck (fun s => negb (is_submission s))
          (fun s => (WARNING, NotASubmission (id s))).

(** 8. the URL fails the check of the download filter *)
Definition url_filtered : Check :=
  mkCheck (fun s => negb (check_url env (url s)))
          (fun s => (DEBUG, UrlFiltered (id s) (url s))).

Definition pipeline : list Check :=
  [excluded; skipped_subreddit; ignored_author; below_min_score;
   above_max_score; ratio_out_of_bounds; wrong_type; url_filtered].

(** The reason of the first check that rejects the submission. *)
Definition first_rejection (s : Submission) : option (Level * Message) :=
  match List.find (fun c => rejects c s) pipeline with
  | Some c => Some (reason c s)
  | None => None
  end.

End Pipeline.

End FilterPipeline.

(** ** What the properties of the run are stated with *)

Module Run.

Import Downloader.

(** Every path of the hash index is the path of a file that holds a
    content with that hash. *)
Definition index_sound (env : Env) (st : State) : Prop :=
  forall hash path,
    master_hash_list st !! hash = Some path ->
    exists content, files st !! path = Some content /\ md5 (hashlib env) content = hash.

(** The only errors are those the handlers of [_download_submission]
    name, each where its handler is: an instance of
    [SiteDownloaderError] from [find_resources], an instance of
    [BulkDownloaderException] from the fetch of a resource, [OSError]
    from opening and writing the destination; making directories,
    linking and setting times do not fail. *)
Record only_handled_errors (env : Env) (self : RedditDownloader) : Prop := {
  extraction_errors : forall cls s e,
    find_resources env cls s = Raise e -> isinstance e SiteDownloaderError = true;
  fetch_errors : forall cls s content destination res e,
    find_resources env cls s = Ok content ->
    (destination, res) ∈ format_resource_paths env content (download_directory self) ->
    res_fetch res = FetchFails e -> isinstance e BulkDownloaderException = true;
  open_errors : forall st path e, fault env st (SysOpen path) = Some e -> e = OSError;
  write_errors : forall st path e, fault env st (SysWrite path) = Some e -> e = OSError;
  no_mkdir_error : forall st path, fault env st (SysMkdir path) = None;
  no_utime_error : forall st path, fault env st (SysUtime path) = None;
  no_link_error : forall st src dst, fault env st (SysLink src dst) = None
}.

(** [urlsplit] accepts the URL of the submission. *)
Definition url_accepted (env : Env) (s : Submission) : Prop :=
  exists sanitised,
    DownloadFactory.sanitise_url (bracketed_netloc_ok env) (url s) = Ok sanitised.

(** The creation time of the submission is one that the platform
    converts: the conversion before [os.utime] returns. *)
Definition time_converts (env : Env) (s : Submission) : Prop :=
  exists creation_time, mktime env (created_utc s) = Ok creation_time.

(** Nothing is taken from the log or from the standard output: those
    of the later state start with those of the earlier one. *)
Definition later (st st' : State) : Prop :=
  log st `prefix_of` log st' /\ stdout st `prefix_of` stdout st'.

(** The submission has left its first record in the log: that of the
    check that rejects it, or that its download is attempted. *)
Definition processed (env : Env) (self : RedditDownloader) (s : Submission)
    (st : State) : Prop :=
  match rejection env self s with
  | Some entry => entry ∈ log st
  | None => (DEBUG, Attempting (id s)) ∈ log st
  end.

(** What [DownloadFactory.pull_lever] returns or raises for the
    submission. *)
Definition dispatched (env : Env) (s : Submission) : result DownloaderClass :=
  snd (DownloadFactory.pull_lever (bracketed_netloc_ok env) (url s)).

(** The log and the standard output account for the submission: it
    is processed; if the extraction of its resources has failed, the
    error record of that is in the log; if its URL is not dispatched,
    the URL is on the standard output. *)
Definition accounted (env : Env) (self : RedditDownloader) (s : Submission)
    (st : State) : Prop :=
  processed env self s st
  /\ (forall cls e,
        rejection env self s = None ->
        dispatched env s = Ok cls ->
        in_list (Str.lower (class_name cls)) (disable_module (args self)) = false ->
        find_resources env cls s = Raise e ->
        (ERROR, SiteFailed cls (id s) e) ∈ log st)
  /\ (rejection env self s = None ->
      dispatched env s = Raise NotADownloadableLinkError ->
      url s ∈ stdout st).

(** A file of the tree of [directory]: a file of its listing, or a
    file of the tree of one of its subdirectories. *)
Inductive file_in_tree : Path -> list Entry -> Path -> bytes -> Prop :=
| file_here (directory : Path) (entries : list Entry) (name : string)
    (content : bytes) :
    File name content ∈ entries ->
    file_in_tree directory entries (joinpath directory name) content
| file_below (directory : Path) (entries : list Entry) (name : string)
    (subentries : list Entry) (path : Path) (content : bytes) :
    Directory name subentries ∈ entries ->
    file_in_tree (joinpath directory name) subentries path content ->
    file_in_tree directory entries path content.

(** How the hash index and the files of a later state stand to those of
    an earlier one: no file is lost or changed, no hash leaves the
    index, no path of the index changes while one of the two policies
    for duplicates is active, and a hash whose path is new or has
    changed has the path of a file that was not there before and holds
    a content with that hash. *)
Record extends (env : Env) (self : RedditDownloader) (st st' : State) : Prop := {
  files_kept : files st ⊆ files st';
  hashes_kept : dom (master_hash_list st) ⊆ dom (master_hash_list st');
  paths_kept :
    no_dupes (args self) || make_hard_links (args self) = true ->
    master_hash_list st ⊆ master_hash_list st';
  new_paths_written : forall hash path,
    master_hash_list st' !! hash = Some path ->
    master_hash_list st !! hash = Some path
    \/ (files st !! path = None
        /\ exists content,
             files st' !! path = Some content /\ md5 (hashlib env) content = hash)
}.

(** The two together: how a state reached later in a run stands to an
    earlier one. *)
Definition grows (env : Env) (self : RedditDownloader) (st st' : State) : Prop :=
  extends env self st st' /\ (index_sound env st -> index_sound env st').

End Run.

(** ** A small run, for the examples *)

Module Sample.

Import Downloader.
Import Stdlib.Init.Byte.

(** A hash object that keeps the bytes it is given; its digest is the
    bytes themselves. *)
Definition keep_all : Hashlib :=
  mkHashlib bytes [] (fun st chunk => (st ++ chunk)%list) string_of_list_byte.

Definition picture : bytes := [x89; x50; x4e; x47].
Definition text : bytes := [x68; x69].

Definition first_post : Resource := mkResource "https://reddit.com/r/test/abc123" (Fetched picture).
Definition same_again : Resource := mkResource "https://reddit.com/r/test/def456" (Fetched picture).
Definition other : Resource := mkResource "https://reddit.com/r/test/other" (Fetched text).
Definition unreachable : Resource :=
  mkResource "https://reddit.com/r/test/gone" (FetchFails BulkDownloaderException).

(** The resources of a submission, by its identifier. *)
Definition resources_of (s : Submission) : list Resource :=
  if String.eqb (id s) "abc123" then [first_post; other]
  else if String.eqb (id s) "def456" then [same_again; other]
  else if String.eqb (id s) "gone" then [unreachable; other]
  else [other].

(** The destination of a resource: the identifier of its post in the
    download directory, under the last component of the URL. *)
Definition destination_of (directory : Path) (res : Resource) : Path :=
  match UrlShape.rpartition "/" (res_url res) with
  | Some (_, name) => (directory ++ [name])%list
  | None => directory
  end.

Definition env_with (fault : State -> Syscall -> option Exn) : Env :=
  mkEnv keep_all DownloadFactory.accept_bracketed
    (fun _ => true) (fun _ => true)
    (fun _ s => Ok (resources_of s))
    (fun content directory => List.map (fun res => (destination_of directory res, res)) content)
    (fun t => Ok t)
    fault.

(** No call to the system fails. *)
Definition env : Env := env_with (fun _ _ => None).

(** Setting the time of a file fails. *)
Definition env_utime_fails : Env :=
  env_with (fun _ c => match c with SysUtime _ => Some OSError | _ => None end).

(** Opening the first destination for writing fails. *)
Definition env_open_fails : Env :=
  env_with (fun _ c => match c with
                       | SysOpen ["out"; "abc123"] => Some OSError
                       | _ => None
                       end).

Definition configuration (no_dupes make_hard_links : bool) : Configuration :=
  mkConfiguration [] [] (Some 10%Z) None None None [] None
    no_dupes make_hard_links false.

Definition downloader (no_dupes make_hard_links : bool) : RedditDownloader :=
  mkRedditDownloader (configuration no_dupes make_hard_links) [] ["out"].

Definition submission (id : string) (score : Z) : Submission :=
  mkSubmission id "test" (Some "somebody") score (9 # 10) 1600000000
    ("http://reddit.com/r/test/" +:+ id) true.

(** An empty download directory and an empty hash index. *)
Definition empty : State := mkState ∅ ∅ ∅ ∅ [] [].

End Sample.

(** ** The set-up of logging in [bdfr/downloader.py] *)

Module Logging.

Import Downloader.

Section run_once.

(** The function given to [run_once]: its arguments, its result and
    the state it works on. *)
Context {St A B : Type}.
Variable f : A -> St -> result B * St.

(** [wrapper], on the attribute [f.has_run] and the state of [f]. A
    call that finds [f.has_run] set falls off the end of [wrapper] and
    returns [None]; a call in which [f] raises leaves the attribute as
    it is. *)
Definition wrapper (args : A) (st : bool * St) : result (option B) * (bool * St) :=
  let '(has_run, s) := st in
  if negb has_run then
    match f args s with
    | (Ok result, s') => (Ok (Some result), (true, s'))
    | (Raise e, s') => (Raise e, (has_run, s'))
    end
  else (Ok None, (has_run, s)).

(** [run_once(f)]: the attribute starts as [False]. *)
Definition run_once (s : St) : bool * St := (false, s).

(** Calls of the wrapper one after the other, by a caller that goes
    on after an exception: what each returns or raises. *)
Fixpoint calls (argss : list A) (st : bool * St)
    : list (result (option B)) * (bool * St) :=
  match argss with
  | [] => ([], st)
  | args :: argss' =>
      let '(r, st') := wrapper args st in
      let '(rs, st'') := calls argss' st' in
      (r :: rs, st'')
  end.

(** The call ran [f] to its end. *)
Definition ran (r : result (option B)) : bool :=
  match r with
  | Ok (Some _) => true
  | _ => false
  end.

End run_once.

(** [log_levels] in [argparse_log] *)
Definition log_levels : list Level := [WARNING; INFO; DEBUG].

(** [log_levels[min(len(log_levels) - 1, args.verbose)]], for the count
    of [-v] options; [None] is an index out of range. *)
Definition basic_config_level (verbose : nat) : option Level :=
  log_levels !! Nat.min (length log_levels - 1) verbose.

End Logging.

(** ** What the further properties are stated with *)

Module Edge.

Import Downloader.

(** What [hashlib] documents of [update]: feeding nothing changes
    nothing, and feeding two chunks in turn is feeding their
    concatenation. *)
Record streaming (h : Hashlib) : Prop := {
  update_nil : forall s, md5_update h s [] = s;
  update_app : forall s a b,
    md5_update h (md5_update h s a) b = md5_update h s (a ++ b)%list
}.

(** The submission with another score. *)
Definition with_score (sc : Z) (s : Submission) : Submission :=
  mkSubmission (id s) (subreddit_display_name s) (author_name s) sc
    (upvote_ratio s) (created_utc s) (url s) (is_submission s).

(** The state with one more record for each destination of [items]
    that is passed over: it exists, or the filter removes its
    resource. *)
Definition passed_over (s : Submission) (st : State)
    (items : list (Path * Resource)) : State :=
  foldl (fun st item =>
           if path_exists st (fst item)
           then add_log (DEBUG, AlreadyExists (fst item) (id s)) st
           else add_log (DEBUG, ResourceFiltered (id s) (url s)) st)
        st items.

(** The two states have the same files, directories, times and hash
    index: they differ in the log and the standard output at most. *)
Definition same_disk (st st' : State) : Prop :=
  files st' = files st /\ dirs st' = dirs st /\ mtimes st' = mtimes st
  /\ master_hash_list st' = master_hash_list st.

End Edge.

(** * Properties *)

(** ** Strings *)

Module StrFacts.

Lemma app_nil_l (s : string) : "" +:+ s = s.
Proof. reflexivity. Qed.

Lemma app_cons (c : ascii) (s1 s2 : string) :
  String c s1 +:+ s2 = String c (s1 +:+ s2).
Proof. reflexivity. Qed.

Lemma app_nil_r (s : string) : s +:+ "" = s.
Proof. induction s as [|c s IH]; [reflexivity|]. rewrite app_cons, IH. reflexivity. Qed.

Lemma app_assoc (s1 s2 s3 : string) : (s1 +:+ s2) +:+ s3 = s1 +:+ (s2 +:+ s3).
Proof.
  induction s1 as [|c s1 IH]; [reflexivity|].
  rewrite !app_cons, IH. reflexivity.
Qed.

Lemma app_eq_nil (s1 s2 : string) : s1 +:+ s2 = "" -> s1 = "" /\ s2 = "".
Proof. destruct s1; [auto | rewrite app_cons; discriminate]. Qed.

(** A non-empty concatenation starts in its first part, or its first
    part is empty. *)
Lemma app_eq_cons (s1 s2 : string) (c : ascii) (s : string) :
  s1 +:+ s2 = String c s ->
  (s1 = "" /\ s2 = String c s) \/ (exists s1', s1 = String c s1' /\ s = s1' +:+ s2).
Proof.
  destruct s1 as [|d s1]; [left; auto|].
  rewrite app_cons. intros [= -> <-]. right. eauto.
Qed.

Lemma existsb_app (p : ascii -> bool) (s1 s2 : string) :
  Str.existsb p (s1 +:+ s2) = Str.existsb p s1 || Str.existsb p s2.
Proof.
  induction s1 as [|c s1 IH]; [reflexivity|].
  rewrite app_cons. simpl. rewrite IH, orb_assoc. reflexivity.
Qed.

Lemma mem_app (c : ascii) (s1 s2 : string) :
  Str.mem c (s1 +:+ s2) = Str.mem c s1 || Str.mem c s2.
Proof. apply existsb_app. Qed.

Lemma forallb_app (p : ascii -> bool) (s1 s2 : string) :
  Str.forallb p (s1 +:+ s2) = Str.forallb p s1 && Str.forallb p s2.
Proof.
  induction s1 as [|c s1 IH]; [reflexivity|].
  rewrite app_cons. simpl. rewrite IH, andb_assoc. reflexivity.
Qed.

Lemma startswith_app (p s : string) : Str.startswith p (p +:+ s) = true.
Proof.
  induction p as [|c p IH]; [reflexivity|].
  rewrite app_cons. simpl. rewrite Ascii.eqb_refl. exact IH.
Qed.

Lemma startswith_inv (p s : string) :
  Str.startswith p s = true -> exists t, s = p +:+ t.
Proof.
  revert s. induction p as [|c p IH]; intros s H.
  - exists s. reflexivity.
  - destruct s as [|d s]; [discriminate|]. simpl in H.
    apply andb_true_iff in H as [Hc Hs]. apply Ascii.eqb_eq in Hc as ->.
    destruct (IH _ Hs) as [t ->]. exists t. reflexivity.
Qed.

End StrFacts.

(** ** The matcher decides the language *)

Module ReFacts.

Import Re StrFacts.

Lemma nullable_lang (r : regex) : nullable r = true <-> lang r "".
Proof.
  induction r as [| |p|r1 IH1 r2 IH2|r1 IH1 r2 IH2|r IH]; simpl.
  - split; [discriminate | inversion 1].
  - split; [constructor | reflexivity].
  - split; [discriminate | inversion 1].
  - rewrite andb_true_iff, IH1, IH2. split.
    + intros [H1 H2]. change "" with ("" +:+ ""). by constructor.
    + inversion 1; subst.
      match goal with E : _ +:+ _ = "" |- _ => apply app_eq_nil in E as [-> ->] end.
      auto.
  - rewrite orb_true_iff, IH1, IH2. split.
    + intros [H|H]; [by apply lang_alt_l | by apply lang_alt_r].
    + inversion 1; subst; auto.
  - split; [constructor | reflexivity].
Qed.

(** A non-empty word of [r*] starts with a non-empty word of [r]. *)
Lemma lang_star_cons_inv (r : regex) (c : ascii) (s : string) :
  lang (Star r) (String c s) ->
  exists s1 s2, s = s1 +:+ s2 /\ lang r (String c s1) /\ lang (Star r) s2.
Proof.
  intros H. remember (Star r) as r' eqn:Er. remember (String c s) as w eqn:Ew.
  revert c s Ew.
  induction H as [| | | | | |r0 s1 s2 H1 _ H2 IH2]; try discriminate.
  injection Er as ->. intros c s Ew.
  apply app_eq_cons in Ew as [[-> ->]|(s1' & -> & ->)].
  - by apply IH2.
  - eauto.
Qed.

Lemma deriv_lang (r : regex) (c : ascii) (s : string) :
  lang (deriv c r) s <-> lang r (String c s).
Proof.
  revert s. induction r as [| |p|r1 IH1 r2 IH2|r1 IH1 r2 IH2|r IH]; intros s; simpl.
  - split; inversion 1.
  - split; inversion 1.
  - destruct (p c) eqn:Hp; split.
    + inversion 1; subst. by constructor.
    + inversion 1; subst. constructor.
    + inversion 1.
    + inversion 1; subst. congruence.
  - assert (Hcat : lang (Cat (deriv c r1) r2) s ->
                   lang (Cat r1 r2) (String c s)).
    { inversion 1; subst.
      rewrite <- app_cons. constructor; [by apply IH1 | done]. }
    assert (Hinv : lang (Cat r1 r2) (String c s) ->
                   (lang r1 "" /\ lang r2 (String c s))
                   \/ lang (Cat (deriv c r1) r2) s).
    { inversion 1; subst.
      match goal with E : _ +:+ _ = String _ _ |- _ =>
        apply app_eq_cons in E as [[-> ->]|(s1' & -> & ->)] end; [by left|].
      right. constructor; [by apply IH1 | done]. }
    destruct (nullable r1) eqn:Hn; split.
    + inversion 1; subst; [by apply Hcat|].
      rewrite <- (app_nil_l (String c s)).
      constructor; [by apply nullable_lang | by apply IH2].
    + intros H. apply Hinv in H as [[_ H]|H].
      * apply lang_alt_r. by apply IH2.
      * by apply lang_alt_l.
    + apply Hcat.
    + intros H. apply Hinv in H as [[H _]|H]; [|done].
      apply nullable_lang in H. congruence.
  - split.
    + inversion 1; subst; [apply lang_alt_l | apply lang_alt_r]; by (apply IH1 || apply IH2).
    + inversion 1; subst; [apply lang_alt_l | apply lang_alt_r]; by (apply IH1 || apply IH2).
  - split.
    + inversion 1; subst.
      rewrite <- app_cons. constructor; [by apply IH | done].
    + intros H. apply lang_star_cons_inv in H as (s1 & s2 & -> & H1 & H2).
      constructor; [by apply IH | done].
Qed.

Theorem accepts_lang (r : regex) (s : string) : accepts r s = true <-> lang r s.
Proof.
  revert r. induction s as [|c s IH]; intros r; simpl.
  - apply nullable_lang.
  - rewrite IH. apply deriv_lang.
Qed.

End ReFacts.

(** ** Splitting strings *)

Module SplitFacts.

Import StrFacts UrlShape.

Lemma break_app (p : ascii -> bool) (s : string) :
  fst (Str.break p s) +:+ snd (Str.break p s) = s.
Proof.
  induction s as [|c s IH]; [reflexivity|]. simpl.
  destruct (p c); [reflexivity|].
  destruct (Str.break p s) as [a b]. simpl in *. rewrite app_cons, IH. reflexivity.
Qed.

Lemma break_fst_free (p : ascii -> bool) (s : string) :
  Str.existsb p (fst (Str.break p s)) = false.
Proof.
  induction s as [|c s IH]; [reflexivity|]. simpl.
  destruct (p c) eqn:Hc; [reflexivity|].
  destruct (Str.break p s) as [a b]. simpl in *. rewrite Hc. exact IH.
Qed.

(** Breaking at a larger class first does not change where the smaller
    class breaks the prefix. *)
Lemma break_free (p : ascii -> bool) (s : string) :
  Str.existsb p s = false -> Str.break p s = (s, "").
Proof.
  induction s as [|c s IH]; [reflexivity|]. simpl.
  intros H. apply orb_false_iff in H as [-> H]. rewrite (IH H). reflexivity.
Qed.

Lemma break_idem (p : ascii -> bool) (s : string) :
  fst (Str.break p (fst (Str.break p s))) = fst (Str.break p s).
Proof. rewrite break_free; [reflexivity | apply break_fst_free]. Qed.

Lemma partition_inv (c : ascii) (s a b : string) :
  Str.partition c s = Some (a, b) ->
  s = a +:+ String c b /\ Str.mem c a = false.
Proof.
  revert a. induction s as [|d s IH]; intros a; [discriminate|]. simpl.
  destruct (Ascii.eqb c d) eqn:E.
  - intros [= <- <-]. apply Ascii.eqb_eq in E as ->. auto.
  - destruct (Str.partition c s) as [[a' b']|]; [|discriminate].
    intros [= <- <-]. destruct (IH a' eq_refl) as [-> H].
    split; [reflexivity|]. unfold Str.mem in *. simpl. rewrite E. exact H.
Qed.

Lemma partition_None (c : ascii) (s : string) :
  Str.partition c s = None <-> Str.mem c s = false.
Proof.
  unfold Str.mem. induction s as [|d s IH]; [done|]. simpl.
  destruct (Ascii.eqb c d); [done|].
  destruct (Str.partition c s) as [[a b]|]; simpl; [|tauto].
  split; [discriminate|]. intros H. apply IH in H. discriminate.
Qed.

Lemma partition_app (c : ascii) (a b : string) :
  Str.mem c a = false -> Str.partition c (a +:+ String c b) = Some (a, b).
Proof.
  unfold Str.mem. induction a as [|d a IH]; simpl.
  - intros _. rewrite Ascii.eqb_refl. reflexivity.
  - intros H. apply orb_false_iff in H as [E H].
    rewrite E, (IH H). reflexivity.
Qed.

Lemma mem_true_split (c : ascii) (s : string) :
  Str.mem c s = true -> exists a b, s = a +:+ String c b.
Proof.
  intros H. destruct (Str.partition c s) as [[a b]|] eqn:E.
  - apply partition_inv in E as [-> _]. eauto.
  - apply partition_None in E. congruence.
Qed.

Lemma rpartition_inv (c : ascii) (s a b : string) :
  rpartition c s = Some (a, b) ->
  s = a +:+ String c b /\ Str.mem c b = false.
Proof.
  revert a. induction s as [|d s IH]; intros a; [discriminate|]. simpl.
  destruct (rpartition c s) as [[a' b']|] eqn:E.
  - intros [= <- <-]. destruct (IH a' eq_refl) as [-> H]. auto.
  - destruct (Ascii.eqb c d) eqn:Ed; [|discriminate].
    intros [= <- <-]. apply Ascii.eqb_eq in Ed as <-. split; [reflexivity|].
    clear IH. revert E. unfold Str.mem.
    induction s as [|e s IH]; [reflexivity|]. simpl.
    destruct (rpartition c s) as [[a' b']|]; [discriminate|].
    destruct (Ascii.eqb c e); [discriminate|]. intros _. by apply IH.
Qed.

Lemma rpartition_None (c : ascii) (s : string) :
  Str.mem c s = false -> rpartition c s = None.
Proof.
  unfold Str.mem. induction s as [|d s IH]; [reflexivity|]. simpl.
  intros H. apply orb_false_iff in H as [-> H]. rewrite (IH H). reflexivity.
Qed.

(** The split at the last occurrence is the only split whose second
    part is free of the character. *)
Lemma rpartition_app (c : ascii) (a b : string) :
  Str.mem c b = false -> rpartition c (a +:+ String c b) = Some (a, b).
Proof.
  intros Hb. induction a as [|d a IH].
  - rewrite app_nil_l. simpl. rewrite (rpartition_None _ _ Hb), Ascii.eqb_refl.
    reflexivity.
  - rewrite app_cons. simpl. rewrite IH. reflexivity.
Qed.

End SplitFacts.

(** ** [urlsplit] and the query string *)

Module UrlsplitFacts.

Import StrFacts SplitFacts UrlShape Urllib.

Local Arguments Ascii.eqb : simpl never.

Abbreviation strip := strip_query_fragment.
Abbreviation qf := query_or_fragment_start.

(** The two characters that start a query or a fragment. *)
Lemma qf_cases (c : ascii) : qf c = true -> c = "?"%char \/ c = "#"%char.
Proof.
  unfold qf, Str.mem. simpl. rewrite orb_false_r, orb_true_iff.
  intros [H|H]; apply Ascii.eqb_eq in H; auto.
Qed.

Lemma qf_not_other (p : ascii -> bool) (c : ascii) :
  p "?"%char = false -> p "#"%char = false -> qf c = true -> p c = false.
Proof. intros H1 H2 H. by destruct (qf_cases c H) as [-> | ->]. Qed.

Lemma strip_nil : strip "" = "".
Proof. reflexivity. Qed.

Lemma strip_cons (c : ascii) (s : string) :
  strip (String c s) = if qf c then "" else String c (strip s).
Proof.
  unfold strip. simpl. destruct (qf c); [reflexivity|].
  by destruct (Str.break qf s).
Qed.

Lemma strip_free (s : string) : Str.existsb qf (strip s) = false.
Proof. apply break_fst_free. Qed.

Lemma strip_idem (s : string) : strip (strip s) = strip s.
Proof. apply break_idem. Qed.

Lemma strip_of_free (s : string) : Str.existsb qf s = false -> strip s = s.
Proof. intros H. unfold strip. by rewrite break_free. Qed.

Lemma lstrip_strip (p : ascii -> bool) (s : string) :
  p "?"%char = false -> p "#"%char = false ->
  Str.lstrip p (strip s) = strip (Str.lstrip p s).
Proof.
  intros H1 H2. induction s as [|c s IH]; [reflexivity|].
  rewrite strip_cons. simpl. destruct (qf c) eqn:Hc.
  - rewrite (qf_not_other p c H1 H2 Hc), strip_cons, Hc. reflexivity.
  - simpl. destruct (p c); [exact IH|]. rewrite strip_cons, Hc. reflexivity.
Qed.

Lemma filter_strip (p : ascii -> bool) (s : string) :
  p "?"%char = true -> p "#"%char = true ->
  Str.filter p (strip s) = strip (Str.filter p s).
Proof.
  intros H1 H2. induction s as [|c s IH]; [reflexivity|].
  rewrite strip_cons. simpl. destruct (qf c) eqn:Hc.
  - assert (p c = true) as -> by (by destruct (qf_cases c Hc) as [-> | ->]).
    rewrite strip_cons, Hc. reflexivity.
  - simpl. destruct (p c); [|exact IH]. rewrite strip_cons, Hc, IH. reflexivity.
Qed.

Lemma partition_strip (c : ascii) (s : string) :
  qf c = false ->
  Str.partition c (strip s) =
    match Str.partition c s with
    | Some (a, b) => if Str.existsb qf a then None else Some (a, strip b)
    | None => None
    end.
Proof.
  intros Hc. induction s as [|d s IH]; [reflexivity|].
  rewrite strip_cons. simpl. destruct (Ascii.eqb c d) eqn:E.
  - apply Ascii.eqb_eq in E as <-. rewrite Hc. simpl.
    rewrite Ascii.eqb_refl. reflexivity.
  - destruct (qf d) eqn:Hd.
    + simpl. destruct (Str.partition c s) as [[a b]|]; [|reflexivity].
      simpl. rewrite Hd. reflexivity.
    + simpl. rewrite E, IH.
      destruct (Str.partition c s) as [[a b]|]; [|reflexivity].
      simpl. rewrite Hd. simpl. by destruct (Str.existsb qf a).
Qed.

Lemma forallb_existsb_excl (p q : ascii -> bool) (s : string) :
  (forall c, q c = true -> p c = false) ->
  Str.existsb q s = true -> Str.forallb p s = false.
Proof.
  intros Hpq. induction s as [|c s IH]; [discriminate|]. simpl.
  intros H. apply orb_true_iff in H as [H|H].
  - by rewrite (Hpq _ H).
  - rewrite (IH H). apply andb_false_r.
Qed.

Lemma split_scheme_strip (url : string) :
  split_scheme (strip url) =
    (fst (split_scheme url), strip (snd (split_scheme url))).
Proof.
  unfold split_scheme. rewrite partition_strip by reflexivity.
  destruct (Str.partition ":" url) as [[a b]|]; [|reflexivity].
  destruct (Str.existsb qf a) eqn:Hq.
  - destruct a as [|c0 a]; [discriminate|].
    rewrite (forallb_existsb_excl scheme_char qf _
               (fun c => qf_not_other scheme_char c eq_refl eq_refl) Hq).
    rewrite andb_false_r. reflexivity.
  - destruct a as [|c0 a]; [reflexivity|].
    by destruct (Chr.is_ascii_alpha c0 && Str.forallb scheme_char (String c0 a)).
Qed.

Lemma startswith_slashes_strip (url : string) :
  Str.startswith "//" (strip url) = Str.startswith "//" url.
Proof.
  assert (Hs : forall c, qf c = true -> Ascii.eqb "/" c = false)
    by (intros c; apply qf_not_other; reflexivity).
  destruct url as [|c [|d url]]; rewrite ?strip_cons; [reflexivity| |].
  - destruct (qf c) eqn:Hc; simpl; [|reflexivity].
    by rewrite andb_false_r.
  - destruct (qf c) eqn:Hc; simpl.
    + by rewrite (Hs c Hc).
    + destruct (qf d) eqn:Hd; simpl; [|reflexivity].
      rewrite (Hs d Hd). by destruct (Ascii.eqb "/" c).
Qed.

Lemma break_netloc_strip (s : string) :
  Str.break netloc_delim (strip s) =
    (fst (Str.break netloc_delim s), strip (snd (Str.break netloc_delim s))).
Proof.
  induction s as [|c s IH]; [reflexivity|].
  rewrite strip_cons. simpl. destruct (qf c) eqn:Hc.
  - assert (netloc_delim c = true) as ->
      by (by destruct (qf_cases c Hc) as [-> | ->]).
    simpl. rewrite strip_cons, Hc. reflexivity.
  - simpl. destruct (netloc_delim c).
    + simpl. rewrite strip_cons, Hc. reflexivity.
    + rewrite IH. by destruct (Str.break netloc_delim s).
Qed.

Lemma drop2_strip (url : string) :
  Str.startswith "//" url = true ->
  Str.drop 2 (strip url) = strip (Str.drop 2 url).
Proof.
  intros H. destruct url as [|c [|d url]]; simpl in H; try discriminate.
  - by rewrite andb_false_r in H.
  - rewrite andb_true_r in H. apply andb_true_iff in H as [Hc Hd].
    apply Ascii.eqb_eq in Hc as <-, Hd as <-. rewrite !strip_cons. reflexivity.
Qed.

Lemma split_netloc_strip (url : string) :
  split_netloc (strip url) =
    (fst (split_netloc url), strip (snd (split_netloc url))).
Proof.
  unfold split_netloc. rewrite startswith_slashes_strip.
  destruct (Str.startswith "//" url) eqn:H; [|reflexivity].
  rewrite (drop2_strip _ H). apply break_netloc_strip.
Qed.

(** The path is what comes before the first [?] or [#]. *)
Lemma path_is_strip (url : string) :
  fst (split_once "?" (fst (split_once "#" url))) = strip url.
Proof.
  unfold split_once. induction url as [|c url IH]; [reflexivity|].
  rewrite strip_cons. simpl. destruct (Ascii.eqb "#" c) eqn:E1.
  - apply Ascii.eqb_eq in E1 as <-. reflexivity.
  - assert (fst (match (match Str.partition "#" url with
                       | Some (a, b) => Some (String c a, b)
                       | None => None
                       end) with
                 | Some (a, b) => (a, b)
                 | None => (String c url, "")
                 end)
            = String c (fst (match Str.partition "#" url with
                             | Some (a, b) => (a, b)
                             | None => (url, "")
                             end))) as ->
      by (by destruct (Str.partition "#" url) as [[a b]|]).
    simpl. destruct (Ascii.eqb "?" c) eqn:E2.
    + apply Ascii.eqb_eq in E2 as <-. reflexivity.
    + assert (qf c = false) as ->
        by (unfold qf, Str.mem; simpl;
            by rewrite (Ascii.eqb_sym c "?"), (Ascii.eqb_sym c "#"), E1, E2).
      rewrite <- IH.
      by destruct (Str.partition "?" _) as [[a b]|].
Qed.

(** The network location and the path have no [?] and no [#]. *)
Lemma break_netloc_free (s : string) :
  Str.existsb qf (fst (Str.break netloc_delim s)) = false.
Proof.
  induction s as [|c s IH]; [reflexivity|]. simpl.
  destruct (netloc_delim c) eqn:Hc; [reflexivity|].
  destruct (Str.break netloc_delim s) as [a b]. simpl in *.
  rewrite IH, orb_false_r. destruct (qf c) eqn:Hq; [|reflexivity].
  by destruct (qf_cases c Hq) as [-> | ->].
Qed.

Lemma split_netloc_free (url : string) :
  Str.existsb qf (fst (split_netloc url)) = false.
Proof.
  unfold split_netloc. destruct (Str.startswith "//" url); [|reflexivity].
  apply break_netloc_free.
Qed.

Lemma free_no_query (s : string) : Str.existsb qf s = false -> Str.mem "?" s = false.
Proof.
  unfold Str.mem. induction s as [|c s IH]; [reflexivity|]. simpl.
  intros H. apply orb_false_iff in H as [Hc H]. rewrite (IH H), orb_false_r.
  destruct (Ascii.eqb "?" c) eqn:E; [|reflexivity].
  apply Ascii.eqb_eq in E as <-. discriminate.
Qed.

Lemma free_no_fragment (s : string) : Str.existsb qf s = false -> Str.mem "#" s = false.
Proof.
  unfold Str.mem. induction s as [|c s IH]; [reflexivity|]. simpl.
  intros H. apply orb_false_iff in H as [Hc H]. rewrite (IH H), orb_false_r.
  destruct (Ascii.eqb "#" c) eqn:E; [|reflexivity].
  apply Ascii.eqb_eq in E as <-. discriminate.
Qed.

Lemma split_once_free (c : ascii) (s : string) :
  Str.mem c s = false -> split_once c s = (s, "").
Proof. intros H. unfold split_once. apply partition_None in H. by rewrite H. Qed.

Section WithCheck.

Variable bracketed_netloc_ok : string -> bool.

(** What [urlsplit] returns, by parts. *)
Lemma urlsplit_parts (url : string) :
  let u1 := Str.filter (fun c => negb (unsafe_url_byte c))
              (Str.lstrip c0_control_or_space url) in
  let u2 := snd (split_scheme u1) in
  let nl := fst (split_netloc u2) in
  urlsplit bracketed_netloc_ok url =
    if netloc_invalid bracketed_netloc_ok nl then Raise ValueError
    else Ok (mkSplitResult (fst (split_scheme u1)) nl
               (strip (snd (split_netloc u2)))
               (snd (split_once "?" (fst (split_once "#" (snd (split_netloc u2))))))
               (snd (split_once "#" (snd (split_netloc u2))))).
Proof.
  intros u1 u2 nl. unfold urlsplit. fold u1.
  destruct (split_scheme u1) as [sch r1] eqn:E1. simpl in u2. subst u2.
  destruct (split_netloc r1) as [n r2] eqn:E2. simpl in nl. subst nl.
  destruct (netloc_invalid bracketed_netloc_ok n); [reflexivity|].
  rewrite <- path_is_strip. simpl.
  destruct (split_once "#" r2) as [r3 fr]. simpl.
  by destruct (split_once "?" r3) as [r4 qu].
Qed.

(** Removing the query string and the fragment changes neither the
    network location nor the path, nor whether the URL is refused. *)
Lemma urlsplit_strip (url : string) :
  match urlsplit bracketed_netloc_ok url with
  | Raise e => urlsplit bracketed_netloc_ok (strip url) = Raise e
  | Ok r =>
      urlsplit bracketed_netloc_ok (strip url)
      = Ok (mkSplitResult (scheme r) (netloc r) (path r) "" "")
  end.
Proof.
  rewrite (urlsplit_parts (strip url)), (urlsplit_parts url). cbv zeta.
  rewrite lstrip_strip, filter_strip by reflexivity.
  rewrite split_scheme_strip. cbn [fst snd].
  rewrite split_netloc_strip. cbn [fst snd].
  destruct (netloc_invalid _ _); [reflexivity|].
  cbn [scheme netloc path]. rewrite strip_idem.
  rewrite (split_once_free "#"), (split_once_free "?");
    [reflexivity | apply free_no_query, strip_free | apply free_no_fragment, strip_free].
Qed.

End WithCheck.

End UrlsplitFacts.

(** ** The patterns of the factory, read on the text *)

Module PatternFacts.

Import Re StrFacts SplitFacts ReFacts UrlShape DownloadFactory.

Local Arguments Ascii.eqb : simpl never.

Lemma lang_cat_inv (r1 r2 : regex) (s : string) :
  lang (Cat r1 r2) s -> exists s1 s2, s = s1 +:+ s2 /\ lang r1 s1 /\ lang r2 s2.
Proof. inversion 1; subst. eauto. Qed.

Lemma lang_alt_inv (r1 r2 : regex) (s : string) :
  lang (Alt r1 r2) s -> lang r1 s \/ lang r2 s.
Proof. inversion 1; subst; auto. Qed.

Lemma lang_eps_inv (s : string) : lang Eps s -> s = "".
Proof. by inversion 1. Qed.

Lemma lang_sym_inv (p : ascii -> bool) (s : string) :
  lang (Sym p) s -> exists c, s = String c "" /\ p c = true.
Proof. inversion 1; subst. eauto. Qed.

Lemma forallb_const_true (s : string) : Str.forallb (fun _ => true) s = true.
Proof. induction s; [reflexivity | exact IHs]. Qed.

Lemma existsb_app_false (p : ascii -> bool) (s1 s2 : string) :
  Str.existsb p (s1 +:+ s2) = false ->
  Str.existsb p s1 = false /\ Str.existsb p s2 = false.
Proof. rewrite existsb_app. apply orb_false_iff. Qed.

Lemma existsb_cons_false (p : ascii -> bool) (c : ascii) (s : string) :
  Str.existsb p (String c s) = false -> p c = false /\ Str.existsb p s = false.
Proof. simpl. apply orb_false_iff. Qed.

Lemma forallb_negb (p : ascii -> bool) (s : string) :
  Str.forallb (fun c => negb (p c)) s = negb (Str.existsb p s).
Proof.
  induction s as [|c s IH]; [reflexivity|]. simpl.
  rewrite IH, negb_orb. reflexivity.
Qed.

Lemma lang_star_sym (p : ascii -> bool) (s : string) :
  lang (Star (Sym p)) s <-> Str.forallb p s = true.
Proof.
  split.
  - intros H. remember (Star (Sym p)) as r eqn:Er.
    induction H as [| | | | | |r0 s1 s2 H1 _ H2 IH2]; try discriminate.
    + reflexivity.
    + injection Er as ->. inversion H1; subst.
      rewrite app_cons, app_nil_l. simpl.
      rewrite IH2 by reflexivity. by rewrite andb_true_r.
  - induction s as [|c s IH]; [constructor|]. simpl.
    intros H. apply andb_true_iff in H as [Hc Hs].
    change (String c s) with (String c "" +:+ s).
    constructor; [by constructor | auto].
Qed.

Lemma lang_sym_ext (p q : ascii -> bool) (s : string) :
  (forall c, p c = q c) -> lang (Sym p) s -> lang (Sym q) s.
Proof. intros E. inversion 1; subst. constructor. by rewrite <- E. Qed.

Lemma lang_chr (c : ascii) (s : string) : lang (chr c) s <-> s = String c "".
Proof.
  unfold chr. split.
  - inversion 1; subst. f_equal. symmetry. by apply Ascii.eqb_eq.
  - intros ->. constructor. apply Ascii.eqb_refl.
Qed.

Lemma lang_lit (p s : string) : lang (lit p) s <-> s = p.
Proof.
  revert s. induction p as [|c p IH]; intros s; simpl.
  - split; [by inversion 1 | intros ->; constructor].
  - split.
    + inversion 1; subst.
      match goal with H1 : lang (chr _) _, H2 : lang (lit _) _ |- _ =>
        apply lang_chr in H1; apply IH in H2; subst end.
      reflexivity.
    + intros ->. change (String c p) with (String c "" +:+ p).
      constructor; [by apply lang_chr | by apply IH].
Qed.

Lemma lang_lit_ci (p s : string) : lang (lit_ci p) s <-> eqb_ci p s = true.
Proof.
  revert s. induction p as [|c p IH]; intros s; simpl.
  - split; [by inversion 1 | destruct s; [constructor | discriminate]].
  - split.
    + inversion 1; subst.
      match goal with H1 : lang (chr_ci _) _, H2 : lang (lit_ci _) _ |- _ =>
        inversion H1; subst; apply IH in H2 end.
      rewrite app_cons, app_nil_l. by apply andb_true_iff.
    + destruct s as [|d s]; [discriminate|]. intros H.
      apply andb_true_iff in H as [Hd Hs].
      change (String d s) with (String d "" +:+ s).
      constructor; [by constructor | by apply IH].
Qed.

Lemma lang_alts (rs : list regex) (s : string) :
  lang (alts rs) s <-> exists r, In r rs /\ lang r s.
Proof.
  induction rs as [|r rs IH].
  - simpl. split; [inversion 1 | by intros (? & [] & _)].
  - destruct rs as [|r' rs].
    + simpl. split; [eauto | by intros (? & [<- | []] & ?)].
    + assert (E : alts (r :: r' :: rs) = Alt r (alts (r' :: rs))) by reflexivity.
      rewrite E. clear E. revert IH. generalize (alts (r' :: rs)).
      intros R IH. split.
      * inversion 1; subst; [exists r; by split; [left|] |].
        match goal with H : lang R _ |- _ =>
          apply IH in H as (r0 & Hin & Hr0) end.
        exists r0. split; [by right | done].
      * intros (r0 & [<- | Hin] & Hr0); [by apply lang_alt_l|].
        apply lang_alt_r, IH. eauto.
Qed.

(** *** The self-post pattern *)

Lemma self_post_pattern_startswith (s : string) :
  re_match self_post_pattern s = Str.startswith "reddit.com/r/" s.
Proof.
  apply eq_true_iff_eq. unfold re_match. cbn [ends_in_dollar body self_post_pattern].
  rewrite accepts_lang. split.
  - intros H. apply lang_cat_inv in H as (s1 & s2 & -> & H1 & _).
    apply lang_lit in H1 as ->. apply startswith_app.
  - intros H. apply startswith_inv in H as [t ->].
    constructor; [by apply lang_lit|]. apply lang_star_sym, forallb_const_true.
Qed.

(** *** Patterns of the shape [.*/.*\.E]

    Such a pattern looks at the text after the last dot, when [E] has no
    dot and the text no newline. *)

Lemma shape_lang (ps pd : ascii -> bool) (E : regex) (s : string) :
  (forall c, ps c = Ascii.eqb "/" c) ->
  (forall c, pd c = Ascii.eqb "." c) ->
  (forall t, lang E t -> Str.mem "." t = false) ->
  Str.existsb Chr.is_newline s = false ->
  lang (Cat (Star dot) (Cat (Sym ps) (Cat (Star dot) (Cat (Sym pd) E)))) s
  <-> exists e, extension s = Some e /\ lang E e.
Proof.
  intros Hps Hpd HE Hnl. split.
  - intros H.
    apply lang_cat_inv in H as (a & s1 & -> & _ & H).
    apply lang_cat_inv in H as (sl & s2 & -> & Hsl & H).
    apply lang_cat_inv in H as (b & s3 & -> & _ & H).
    apply lang_cat_inv in H as (dt & e & -> & Hdt & He).
    apply lang_sym_inv in Hsl as (c1 & -> & Hc1).
    apply lang_sym_inv in Hdt as (c2 & -> & Hc2).
    rewrite Hps in Hc1. rewrite Hpd in Hc2.
    apply Ascii.eqb_eq in Hc1 as <-, Hc2 as <-.
    exists e. split; [|done].
    rewrite !app_cons, !app_nil_l.
    replace (a +:+ String "/" (b +:+ String "." e))
      with ((a +:+ String "/" b) +:+ String "." e)
      by (by rewrite app_assoc, app_cons).
    unfold extension. rewrite rpartition_app by auto.
    assert (Str.mem "/" (a +:+ String "/" b) = true) as ->; [|reflexivity].
    rewrite mem_app. apply orb_true_iff. by right.
  - intros (e & Hext & He). unfold extension in Hext.
    destruct (rpartition "." s) as [[x e']|] eqn:Hr; [|discriminate].
    destruct (Str.mem "/" x) eqn:Hx; [|discriminate].
    injection Hext as ->.
    apply rpartition_inv in Hr as [-> _].
    apply mem_true_split in Hx as (a & b & ->).
    apply existsb_app_false in Hnl as [Hnl _].
    apply existsb_app_false in Hnl as [Ha Hb].
    apply existsb_cons_false in Hb as [_ Hb].
    rewrite app_assoc, app_cons.
    constructor; [apply lang_star_sym; by rewrite forallb_negb, Ha|].
    change (String "/" (b +:+ String "." e))
      with (String "/" "" +:+ (b +:+ String "." e)).
    constructor; [constructor; by rewrite Hps|].
    constructor; [apply lang_star_sym; by rewrite forallb_negb, Hb|].
    change (String "." e) with (String "." "" +:+ e).
    constructor; [constructor; by rewrite Hpd | done].
Qed.

(** A pattern that ends in [$], on a text without a newline. *)
Lemma dollar_lang (r : regex) (s : string) :
  Str.existsb Chr.is_newline s = false ->
  lang (Cat r dollar) s <-> lang r s.
Proof.
  intros Hnl. split.
  - intros H. apply lang_cat_inv in H as (s1 & s2 & -> & H1 & H2).
    apply lang_alt_inv in H2 as [H2|H2].
    + apply lang_sym_inv in H2 as (c & -> & Hc).
      rewrite existsb_app in Hnl. simpl in Hnl. by rewrite Hc, orb_true_r in Hnl.
    + apply lang_eps_inv in H2 as ->. by rewrite app_nil_r.
  - intros H. rewrite <- (app_nil_r s). constructor; [done|].
    apply lang_alt_r. constructor.
Qed.

(** *** The pattern of the first test *)

Lemma forallb_not_mem (p : ascii -> bool) (c : ascii) (s : string) :
  p c = false -> Str.forallb p s = true -> Str.mem c s = false.
Proof.
  intros Hc. unfold Str.mem. induction s as [|d s IH]; [reflexivity|]. simpl.
  intros H. apply andb_true_iff in H as [Hd Hs]. rewrite (IH Hs), orb_false_r.
  destruct (Ascii.eqb c d) eqn:E; [|reflexivity].
  apply Ascii.eqb_eq in E as <-. congruence.
Qed.

Lemma lang_word_run (e : string) :
  lang (Cat (rep 3 word) (rep_upto 1 word)) e <-> is_file_extension e = true.
Proof.
  unfold is_file_extension. split.
  - intros H. apply lang_cat_inv in H as (s1 & s2 & -> & H1 & H2).
    simpl in H1, H2. unfold opt, word in *.
    apply lang_cat_inv in H1 as (x1 & r1 & -> & X1 & H1).
    apply lang_cat_inv in H1 as (x2 & r2 & -> & X2 & H1).
    apply lang_cat_inv in H1 as (x3 & r3 & -> & X3 & H1).
    apply lang_eps_inv in H1 as ->.
    apply lang_sym_inv in X1 as (c1 & -> & Hc1).
    apply lang_sym_inv in X2 as (c2 & -> & Hc2).
    apply lang_sym_inv in X3 as (c3 & -> & Hc3).
    apply lang_alt_inv in H2 as [H2|H2].
    + apply lang_cat_inv in H2 as (x4 & r4 & -> & X4 & H2).
      apply lang_eps_inv in H2 as ->.
      apply lang_sym_inv in X4 as (c4 & -> & Hc4).
      cbv [String.append]. simpl. by rewrite Hc1, Hc2, Hc3, Hc4.
    + apply lang_eps_inv in H2 as ->.
      cbv [String.append]. simpl. by rewrite Hc1, Hc2, Hc3.
  - intros H. apply andb_true_iff in H as [Hw Hl].
    apply accepts_lang.
    destruct e as [|c1 [|c2 [|c3 [|c4 [|c5 e]]]]]; try discriminate;
      simpl in Hw;
      repeat match goal with
        | H : _ && _ = true |- _ => apply andb_true_iff in H as [? H]
        end;
      simpl; unfold word;
      repeat match goal with
        | H : Chr.is_word ?c = true |- _ => rewrite H; clear H; simpl
        end; reflexivity.
Qed.

(** The query group matches the empty string or a text that starts with
    a question mark; it has no dot. *)
Lemma lang_query_group (t : string) :
  lang query_group t ->
  t = "" \/ exists q, t = String "?" q /\ Str.forallb query_char q = true.
Proof.
  unfold query_group, opt. intros H. apply lang_alt_inv in H as [H|H].
  - apply lang_cat_inv in H as (x & q & -> & Hx & Hq).
    apply lang_chr in Hx as ->. apply lang_star_sym in Hq. right. eauto.
  - apply lang_eps_inv in H. by left.
Qed.

Lemma file_tail_no_dot (t : string) :
  lang (Cat (Cat (rep 3 word) (rep_upto 1 word)) query_group) t ->
  Str.mem "." t = false.
Proof.
  intros H. apply lang_cat_inv in H as (w & q & -> & Hw & Hq).
  apply lang_word_run in Hw. apply andb_true_iff in Hw as [Hw _].
  rewrite mem_app, (forallb_not_mem Chr.is_word "." w eq_refl Hw).
  apply lang_query_group in Hq as [-> | (q' & -> & Hq)]; [reflexivity|].
  change (Str.mem "." (String "?" q'))
    with (Ascii.eqb "." "?" || Str.mem "." q').
  by rewrite (forallb_not_mem query_char "." q' eq_refl Hq).
Qed.

Lemma file_tail_no_query (t : string) :
  Str.mem "?" t = false ->
  lang (Cat (Cat (rep 3 word) (rep_upto 1 word)) query_group) t
  <-> is_file_extension t = true.
Proof.
  intros Hq. rewrite <- lang_word_run. split.
  - intros H. apply lang_cat_inv in H as (w & q & -> & Hw & Hg).
    apply lang_query_group in Hg as [-> | (q' & -> & _)].
    + by rewrite app_nil_r.
    + rewrite mem_app in Hq. apply orb_false_iff in Hq as [_ Hq]. discriminate.
  - intros H. rewrite <- (app_nil_r t). constructor; [done|].
    apply lang_alt_r. constructor.
Qed.

(** On a text without newline and question mark, the first test of
    [pull_lever] asks for three or four word characters after the last
    dot, which has a slash before it. *)
Lemma file_pattern_reads (s : string) :
  Str.existsb Chr.is_newline s = false ->
  Str.mem "?" s = false ->
  re_match file_pattern s =
    match extension s with
    | Some e => is_file_extension e
    | None => false
    end.
Proof.
  intros Hnl Hq. apply eq_true_iff_eq. unfold re_match.
  cbn [ends_in_dollar body file_pattern].
  rewrite accepts_lang, dollar_lang by done. unfold chr.
  rewrite shape_lang; [|reflexivity|reflexivity|apply file_tail_no_dot|done].
  destruct (extension s) as [e|] eqn:He.
  - assert (Str.mem "?" e = false) as Hqe.
    { unfold extension in He.
      destruct (rpartition "." s) as [[x e']|] eqn:Hr; [|discriminate].
      destruct (Str.mem "/" x); [|discriminate]. injection He as ->.
      apply rpartition_inv in Hr as [-> _].
      rewrite mem_app in Hq. apply orb_false_iff in Hq as [_ Hq].
      unfold Str.mem in Hq. by apply existsb_cons_false in Hq as [_ Hq]. }
    rewrite <- (file_tail_no_query e Hqe). split.
    + by intros (e' & [= <-] & H).
    + eauto.
  - split; [by intros (? & ? & _) | discriminate].
Qed.

(** *** The pattern of web pages *)

Lemma eqb_ci_slash (c : ascii) : Chr.eqb_ci "/" c = Ascii.eqb "/" c.
Proof. unfold Chr.eqb_ci. by rewrite orb_false_r. Qed.

Lemma eqb_ci_dot (c : ascii) : Chr.eqb_ci "." c = Ascii.eqb "." c.
Proof. unfold Chr.eqb_ci. by rewrite orb_false_r. Qed.

Lemma eqb_ci_to_dot (a : ascii) : Chr.eqb_ci a "." = true -> a = "."%char.
Proof.
  unfold Chr.eqb_ci. rewrite andb_false_r, orb_false_r. apply Ascii.eqb_eq.
Qed.

Lemma eqb_ci_no_dot (p e : string) :
  Str.mem "." p = false -> eqb_ci p e = true -> Str.mem "." e = false.
Proof.
  unfold Str.mem. revert e. induction p as [|a p IH]; intros [|b e]; simpl;
    try done.
  intros Hp H. apply orb_false_iff in Hp as [Ha Hp].
  apply andb_true_iff in H as [Hab He]. rewrite (IH _ Hp He), orb_false_r.
  destruct (Ascii.eqb "." b) eqn:E; [|reflexivity].
  apply Ascii.eqb_eq in E as <-. apply eqb_ci_to_dot in Hab as ->.
  by rewrite Ascii.eqb_refl in Ha.
Qed.

Lemma lang_web_extensions (e : string) :
  lang (alts (List.map lit_ci web_extensions)) e <-> is_web_extension e = true.
Proof.
  unfold is_web_extension. rewrite lang_alts, existsb_exists. split.
  - intros (r & Hin & Hr). apply in_map_iff in Hin as (ext & <- & Hin).
    exists ext. split; [done | by apply lang_lit_ci].
  - intros (ext & Hin & He). exists (lit_ci ext).
    split; [by apply in_map | by apply lang_lit_ci].
Qed.

Lemma web_extension_no_dot (e : string) :
  is_web_extension e = true -> Str.mem "." e = false.
Proof.
  unfold is_web_extension. rewrite existsb_exists. intros (ext & Hin & He).
  apply (eqb_ci_no_dot ext); [|done].
  assert (Hall : List.forallb (fun x => negb (Str.mem "." x)) web_extensions = true)
    by reflexivity.
  rewrite forallb_forall in Hall. apply negb_true_iff. by apply Hall.
Qed.

(** On a text without newline, [is_web_resource] asks for a web
    extension after the last dot, which has a slash before it. *)
Lemma is_web_resource_reads (s : string) :
  Str.existsb Chr.is_newline s = false ->
  is_web_resource s =
    match extension s with
    | Some e => is_web_extension e
    | None => false
    end.
Proof.
  intros Hnl. unfold is_web_resource.
  assert (E : re_match web_pattern s
              = match extension s with
                | Some e => is_web_extension e
                | None => false
                end); [|rewrite E; by destruct (extension s) as [e|]; [destruct (is_web_extension e)|]].
  apply eq_true_iff_eq. unfold re_match.
  cbn [ends_in_dollar body web_pattern].
  rewrite accepts_lang, dollar_lang by done. unfold chr_ci.
  rewrite shape_lang;
    [|apply eqb_ci_slash|apply eqb_ci_dot
     |intros t Ht; by apply web_extension_no_dot, lang_web_extensions|done].
  destruct (extension s) as [e|].
  - rewrite <- lang_web_extensions. split; [by intros (e' & [= <-] & H) | eauto].
  - split; [by intros (? & ? & _) | discriminate].
Qed.

End PatternFacts.

(** ** [sanitise_url] *)

Module SanitiseFacts.

Import Re StrFacts SplitFacts UrlsplitFacts PatternFacts UrlShape Urllib DownloadFactory.

Local Arguments Ascii.eqb : simpl never.

(** The substitution only deletes characters. *)
Lemma re_sub_delete_keeps (p : ascii -> bool) (f : string -> nat) (k : nat) (s : string) :
  Str.existsb p s = false -> Str.existsb p (re_sub_delete f k s) = false.
Proof.
  revert k. induction s as [|c s IH]; intros k; [reflexivity|]. simpl.
  intros H. apply orb_false_iff in H as [Hc Hs].
  destruct k as [|k]; [|by apply IH].
  destruct (f (String c s)) as [|n]; [|by apply IH].
  simpl. by rewrite Hc, IH.
Qed.

(** A character where [beginning_regex] matches the empty string is
    not white space. *)
Lemma beginning_regex_match_0 (c : ascii) (s : string) :
  beginning_regex_match (String c s) = 0 -> Chr.is_space c = false.
Proof. simpl. by destruct (Chr.is_space c). Qed.

Lemma re_sub_delete_no_space (k : nat) (s : string) :
  Str.existsb Chr.is_space (re_sub_delete beginning_regex_match k s) = false.
Proof.
  revert k. induction s as [|c s IH]; intros k; [reflexivity|].
  cbn [re_sub_delete]. destruct k as [|k]; [|apply IH].
  destruct (beginning_regex_match (String c s)) as [|n] eqn:E; [|apply IH].
  simpl. by rewrite (beginning_regex_match_0 c s E), IH.
Qed.

Lemma existsb_weaken (p q : ascii -> bool) (s : string) :
  (forall c, p c = true -> q c = true) ->
  Str.existsb q s = false -> Str.existsb p s = false.
Proof.
  intros Hpq. induction s as [|c s IH]; [reflexivity|]. simpl.
  intros H. apply orb_false_iff in H as [Hc Hs]. rewrite (IH Hs), orb_false_r.
  destruct (p c) eqn:E; [|reflexivity]. apply Hpq in E. congruence.
Qed.

Lemma newline_is_space (c : ascii) : Chr.is_newline c = true -> Chr.is_space c = true.
Proof.
  unfold Chr.is_newline, Chr.is_space, Chr.between. intros H.
  apply N.eqb_eq in H. rewrite H. reflexivity.
Qed.

Section WithCheck.

Variable bracketed_netloc_ok : string -> bool.

Abbreviation sanitise_url := (sanitise_url bracketed_netloc_ok).
Abbreviation pull_lever := (pull_lever bracketed_netloc_ok).

(** The sanitised URL has no white space, no question mark and no
    hash sign. *)
Lemma sanitise_url_clean (url s : string) :
  sanitise_url url = Ok s ->
  Str.existsb Chr.is_space s = false
  /\ Str.existsb Chr.is_newline s = false
  /\ Str.mem "?" s = false /\ Str.mem "#" s = false.
Proof.
  unfold DownloadFactory.sanitise_url. rewrite urlsplit_parts. cbv zeta.
  destruct (netloc_invalid _ _); [discriminate|].
  cbn [netloc path]. intros [= <-].
  assert (Hs := re_sub_delete_no_space 0).
  split; [apply Hs|].
  split; [apply (existsb_weaken _ _ _ newline_is_space), Hs|].
  set (u := snd (split_scheme _)).
  assert (Hqf : Str.existsb query_or_fragment_start
                  (fst (split_netloc u) +:+ strip_query_fragment (snd (split_netloc u)))
                = false)
    by (by rewrite existsb_app, split_netloc_free, strip_free).
  apply (re_sub_delete_keeps _ beginning_regex_match 0) in Hqf.
  split; [by apply free_no_query | by apply free_no_fragment].
Qed.

Lemma sanitise_url_strip (url : string) :
  sanitise_url (strip_query_fragment url) = sanitise_url url.
Proof.
  unfold DownloadFactory.sanitise_url.
  pose proof (urlsplit_strip bracketed_netloc_ok url) as H.
  destruct (urlsplit bracketed_netloc_ok url) as [r|e]; by rewrite H.
Qed.

(** What [pull_lever] does, read on the sanitised text. *)
Lemma pull_lever_reads (url s : string) :
  sanitise_url url = Ok s ->
  pull_lever url =
    if direct_like s then ([url], Raise NotADownloadableLinkError)
    else if Str.startswith "reddit.com/r/" s then ([], Ok SelfPost)
    else ([url], Raise NotADownloadableLinkError).
Proof.
  intros Hs. destruct (sanitise_url_clean _ _ Hs) as (_ & Hnl & Hq & _).
  unfold DownloadFactory.pull_lever. rewrite Hs.
  rewrite file_pattern_reads, is_web_resource_reads, self_post_pattern_startswith
    by done.
  unfold direct_like. by destruct (extension s).
Qed.

End WithCheck.

End SanitiseFacts.

(** ** Dispatch *)

Module Dispatch.

Import Re StrFacts SplitFacts ReFacts UrlsplitFacts PatternFacts SanitiseFacts.
Import UrlShape Urllib DownloadFactory.

Local Arguments Ascii.eqb : simpl never.

Lemma word_run_no_dot (t : string) :
  lang (Cat (rep 3 word) (rep_upto 1 word)) t -> Str.mem "." t = false.
Proof.
  intros H. apply lang_word_run in H. apply andb_true_iff in H as [H _].
  by apply (forallb_not_mem Chr.is_word).
Qed.

(** Without its query group the pattern of the first test reads the
    text in the same way. *)
Lemma file_pattern_without_query_reads (s : string) :
  Str.existsb Chr.is_newline s = false ->
  re_match file_pattern_without_query s =
    match extension s with
    | Some e => is_file_extension e
    | None => false
    end.
Proof.
  intros Hnl. apply eq_true_iff_eq. unfold re_match.
  cbn [ends_in_dollar body file_pattern_without_query].
  rewrite accepts_lang, dollar_lang by done. unfold chr.
  rewrite shape_lang; [|reflexivity|reflexivity|apply word_run_no_dot|done].
  destruct (extension s) as [e|].
  - rewrite <- lang_word_run. split; [by intros (e' & [= <-] & H) | eauto].
  - split; [by intros (? & ? & _) | discriminate].
Qed.

(** A query string or a fragment put after a URL that has none is what
    [strip_query_fragment] removes. *)
Lemma strip_app_tail (url tail : string) (c : ascii) :
  Str.existsb query_or_fragment_start url = false ->
  query_or_fragment_start c = true ->
  strip_query_fragment (url +:+ String c tail) = url.
Proof.
  intros Hu Hc. induction url as [|d url IH].
  - rewrite app_nil_l, strip_cons, Hc. reflexivity.
  - simpl in Hu. apply orb_false_iff in Hu as [Hd Hu].
    rewrite app_cons, strip_cons, Hd, IH by done. reflexivity.
Qed.

Section WithCheck.

Variable bracketed_netloc_ok : string -> bool.

Abbreviation sanitise_url := (sanitise_url bracketed_netloc_ok).
Abbreviation pull_lever := (pull_lever bracketed_netloc_ok).

Lemma pull_lever_strip (url : string) :
  snd (pull_lever (strip_query_fragment url)) = snd (pull_lever url).
Proof.
  unfold DownloadFactory.pull_lever. rewrite sanitise_url_strip.
  destruct (sanitise_url url) as [s|e]; [|reflexivity].
  destruct (_ && _); [reflexivity|]. by destruct (re_match _ _).
Qed.

(** C10. Dispatch returns the same class or raises the same error for a
    URL and for the URL without its query string and fragment, and so
    for a URL with a query string or a fragment put after it; the
    sanitised URL never has a question mark, so that the query group
    of the pattern of the first test matches nothing there. *)
Theorem pull_lever_ignores_query (url : string) :
  snd (pull_lever (strip_query_fragment url)) = snd (pull_lever url)
  /\ (forall c tail,
        Str.existsb query_or_fragment_start url = false ->
        query_or_fragment_start c = true ->
        snd (pull_lever (url +:+ String c tail)) = snd (pull_lever url))
  /\ (forall s,
        sanitise_url url = Ok s ->
        Str.mem "?" s = false
        /\ re_match file_pattern s = re_match file_pattern_without_query s).
Proof.
  split; [apply pull_lever_strip|]. split.
  - intros c tail Hu Hc.
    rewrite <- (pull_lever_strip (url +:+ String c tail)).
    by rewrite strip_app_tail.
  - intros s Hs. destruct (sanitise_url_clean _ _ _ Hs) as (_ & Hnl & Hq & _).
    split; [done|].
    by rewrite file_pattern_reads, file_pattern_without_query_reads.
Qed.

(** C4, as the code has it. A URL whose sanitised host and path match
    the self-post pattern is dispatched to the self-post class, unless
    the first test takes it for a file: three or four word characters
    after the last dot (with a slash before that dot) that are not a
    web extension; then the URL is printed and the error raised. *)
Theorem self_post_dispatch (url s : string) :
  sanitise_url url = Ok s ->
  re_match self_post_pattern s = true ->
  pull_lever url =
    if direct_like s then ([url], Raise NotADownloadableLinkError)
    else ([], Ok SelfPost).
Proof.
  intros Hs Hm. rewrite (pull_lever_reads _ _ _ Hs).
  rewrite self_post_pattern_startswith in Hm. by rewrite Hm.
Qed.

(** C5, as the code has it. A URL whose sanitised host and path end in
    a dot and a web extension never passes the first test: dispatch
    raises the error, unless the self-post pattern matches, and then
    the self-post class is selected. *)
Theorem web_page_dispatch (url s before e : string) :
  sanitise_url url = Ok s ->
  rpartition "." s = Some (before, e) ->
  is_web_extension e = true ->
  pull_lever url =
    if re_match self_post_pattern s then ([], Ok SelfPost)
    else ([url], Raise NotADownloadableLinkError).
Proof.
  intros Hs Hr He. rewrite (pull_lever_reads _ _ _ Hs).
  rewrite self_post_pattern_startswith.
  unfold direct_like, extension. rewrite Hr.
  destruct (Str.mem "/" before); [by rewrite He, andb_false_r|reflexivity].
Qed.

End WithCheck.

(** The URL of a picture under [reddit.com/r/] matches the self-post
    pattern, and dispatch raises the error. *)
Lemma self_post_dispatch_fails :
  sanitise_url accept_bracketed "https://reddit.com/r/pics/image.jpg"
    = Ok "reddit.com/r/pics/image.jpg"
  /\ re_match self_post_pattern "reddit.com/r/pics/image.jpg" = true
  /\ pull_lever accept_bracketed "https://reddit.com/r/pics/image.jpg"
     = (["https://reddit.com/r/pics/image.jpg"], Raise NotADownloadableLinkError).
Proof. by vm_compute. Qed.

(** The URL of a web page under [reddit.com/r/] is dispatched to the
    self-post class. *)
Lemma web_page_dispatch_fails :
  sanitise_url accept_bracketed "https://www.reddit.com/r/test/page.html"
    = Ok "reddit.com/r/test/page.html"
  /\ is_web_resource "reddit.com/r/test/page.html" = true
  /\ pull_lever accept_bracketed "https://www.reddit.com/r/test/page.html"
     = ([], Ok SelfPost).
Proof. by vm_compute. Qed.

Lemma pull_lever_ignores_query_witness :
  snd (pull_lever accept_bracketed "http://i.example.com/a/b.jpg?x=1#top")
    = snd (pull_lever accept_bracketed "http://i.example.com/a/b.jpg")
  /\ re_match file_pattern "i.example.com/a/b.jpg"
     = re_match file_pattern_without_query "i.example.com/a/b.jpg".
Proof.
  pose proof (pull_lever_ignores_query accept_bracketed "http://i.example.com/a/b.jpg")
    as (_ & Hadd & Hq).
  split.
  - apply (Hadd "?"%char "x=1#top"); reflexivity.
  - apply (Hq "i.example.com/a/b.jpg"). reflexivity.
Defined.

Lemma self_post_dispatch_witness :
  pull_lever accept_bracketed "http://reddit.com/r/test/abc123" = ([], Ok SelfPost).
Proof.
  apply (self_post_dispatch accept_bracketed "http://reddit.com/r/test/abc123"
           "reddit.com/r/test/abc123"); reflexivity.
Defined.

Lemma web_page_dispatch_witness :
  pull_lever accept_bracketed "http://example.com/index.PHP"
  = (["http://example.com/index.PHP"], Raise NotADownloadableLinkError).
Proof.
  apply (web_page_dispatch accept_bracketed "http://example.com/index.PHP"
           "example.com/index.PHP" "example.com/index" "PHP"); reflexivity.
Defined.

End Dispatch.

(** ** The submission filter *)

Module Filter.

Import Downloader FilterPipeline.

Section WithDownloader.

Variable env : Env.
Variable self : RedditDownloader.

(** The chain of tests is the pipeline of the design. *)
Lemma rejection_first_rejection (s : Submission) :
  rejection env self s = first_rejection env self s.
Proof.
  unfold rejection, first_rejection, pipeline, in_list,
    excluded, skipped_subreddit, ignored_author, below_min_score, above_max_score,
    ratio_out_of_bounds, wrong_type, url_filtered.
  destruct s as [i sub [name|] sc ratio created u is_sub];
    cbn [List.find rejects reason id subreddit_display_name author_name score
         upvote_ratio created_utc url is_submission default from_option];
    unfold Datatypes.id;
    (destruct (bool_decide (i ∈ excluded_submission_ids self)); [reflexivity|]);
    (destruct (bool_decide (Str.lower sub ∈ _)); [reflexivity|]);
    (destruct (bool_decide (_ ∈ ignore_user (args self))); [reflexivity|]);
    unfold truthyZ, truthyQ, configuredZ, configuredQ;
    destruct (min_score (args self)) as [m1|], (max_score (args self)) as [m2|],
             (min_score_ratio (args self)) as [r1|],
             (max_score_ratio (args self)) as [r2|];
    cbn [default from_option]; unfold Datatypes.id;
    repeat match goal with
      | |- context [(?a =? 0)%Z] => destruct (a =? 0)%Z
      | |- context [Qeq_bool ?a 0] => destruct (Qeq_bool a 0)
      end;
    cbn [negb andb orb];
    repeat match goal with
      | |- context [(?a <? ?b)%Z] => destruct (a <? b)%Z; cbn [andb orb]; try reflexivity
      | |- context [Qltb ?a ?b] => destruct (Qltb a b); cbn [andb orb]; try reflexivity
      end;
    (destruct is_sub; cbn [negb]; [|reflexivity]);
    (destruct (check_url env u); reflexivity).
Qed.

Lemma find_first (A : Type) (p : A -> bool) (before after : list A) (x : A) :
  (forall y, In y before -> p y = false) -> p x = true ->
  List.find p (before ++ x :: after)%list = Some x.
Proof.
  intros Hb Hx. induction before as [|y before IH]; simpl.
  - by rewrite Hx.
  - rewrite (Hb y) by (by left). apply IH. intros z Hz. apply Hb. by right.
Qed.

(** C8. The tests at the head of [_download_submission] are the checks
    of the design in their order; the first check that rejects the
    submission decides, whatever the later ones would say; and a
    rejected submission leaves one log record and nothing else: no
    line on the standard output, no record that a download is
    attempted, which is where dispatch starts. *)
Theorem filter_order (s : Submission) (st : State) :
  rejection env self s = first_rejection env self s
  /\ (forall before c after,
        pipeline env self = (before ++ c :: after)%list ->
        (forall c', In c' before -> rejects c' s = false) ->
        rejects c s = true ->
        rejection env self s = Some (reason c s))
  /\ (forall entry,
        rejection env self s = Some entry ->
        _download_submission env self s st = (Ok tt, add_log entry st)
        /\ stdout (add_log entry st) = stdout st
        /\ entry <> (DEBUG, Attempting (id s))).
Proof.
  split; [apply rejection_first_rejection|]. split.
  - intros before c after Hp Hb Hc.
    rewrite rejection_first_rejection. unfold first_rejection.
    by rewrite Hp, (find_first _ _ before after c Hb Hc).
  - intros entry He. unfold _download_submission. rewrite He.
    split; [reflexivity|]. split; [reflexivity|].
    rewrite rejection_first_rejection in He. unfold first_rejection in He.
    destruct (List.find _ _) as [c|] eqn:Hf; [|discriminate].
    injection He as <-. apply find_some in Hf as [Hin _].
    unfold pipeline in Hin. simpl in Hin.
    repeat destruct Hin as [<-|Hin]; try discriminate. destruct Hin.
Qed.

End WithDownloader.

Lemma filter_order_witness :
  _download_submission Sample.env (Sample.downloader false false)
    (Sample.submission "abc123" 5) Sample.empty
  = (Ok tt, add_log (DEBUG, ScoreBelowMin "abc123" 5 10) Sample.empty).
Proof.
  destruct (filter_order Sample.env (Sample.downloader false false)
              (Sample.submission "abc123" 5) Sample.empty) as (_ & _ & H).
  apply (H (DEBUG, ScoreBelowMin "abc123" 5 10)). reflexivity.
Defined.

End Filter.

(** ** The scan of the existing files *)

Module Scan.

Import Downloader Run Edge.

Lemma hash_dict_snoc (results : list (Path * string)) (res : Path * string) :
  hash_dict (results ++ [res])%list = <[snd res := fst res]> (hash_dict results).
Proof. unfold hash_dict. by rewrite foldl_app. Qed.

(** The dictionary holds, for a hash, the path of the last result
    with that hash. *)
Lemma hash_dict_lookup (results : list (Path * string)) (hash : string) (path : Path) :
  hash_dict results !! hash = Some path
  <-> exists earlier later,
        results = (earlier ++ (path, hash) :: later)%list
        /\ forall res, res ∈ later -> snd res <> hash.
Proof.
  induction results as [|res results IH] using rev_ind.
  - split; [unfold hash_dict; simpl; by rewrite lookup_empty|].
    intros (earlier & later & E & _). by destruct earlier.
  - rewrite hash_dict_snoc. destruct (decide (snd res = hash)) as [Hh|Hh].
    + rewrite Hh, lookup_insert_eq. split.
      * intros [= <-]. exists results, []. split.
        -- destruct res; simpl in *; by subst.
        -- intros ? H. by apply elem_of_nil in H.
      * intros (earlier & later & E & Hl).
        destruct later as [|x later _] using rev_ind.
        -- apply app_inj_tail in E as [_ ->]. reflexivity.
        -- rewrite app_comm_cons, app_assoc in E.
           apply app_inj_tail in E as [_ ->].
           exfalso. apply (Hl x); [|done]. apply elem_of_app. right. by left.
    + rewrite lookup_insert_ne by done. rewrite IH. split.
      * intros (earlier & later & -> & Hl).
        exists earlier, (later ++ [res])%list. split.
        -- by rewrite app_comm_cons, app_assoc.
        -- intros x Hx. apply elem_of_app in Hx as [Hx|Hx]; [by apply Hl|].
           apply list_elem_of_singleton in Hx as ->. done.
      * intros (earlier & later & E & Hl).
        destruct later as [|x later _] using rev_ind.
        -- apply app_inj_tail in E as [_ ->]. done.
        -- rewrite app_comm_cons, app_assoc in E.
           apply app_inj_tail in E as [-> ->].
           exists earlier, later. split; [done|].
           intros y Hy. apply Hl. apply elem_of_app. by left.
Qed.

Lemma hash_dict_dom (results : list (Path * string)) :
  dom (hash_dict results) = list_to_set (snd <$> results).
Proof.
  induction results as [|res results IH] using rev_ind.
  - unfold hash_dict. simpl. by rewrite dom_empty_L.
  - rewrite hash_dict_snoc, dom_insert_L, IH, fmap_app, list_to_set_app_L.
    simpl. set_solver.
Qed.

(** Induction on a directory tree. *)
Lemma Entry_tree_ind (P : Entry -> Prop) :
  (forall name content, P (File name content)) ->
  (forall name entries, Forall P entries -> P (Directory name entries)) ->
  forall e, P e.
Proof.
  intros Hfile Hdir. fix IH 1. intros [name content|name entries]; [apply Hfile|].
  apply Hdir. induction entries as [|e entries IHentries]; constructor;
    [apply IH|apply IHentries].
Qed.

Lemma filenames_In (entries : list Entry) (name : string) (content : bytes) :
  In (name, content) (filenames entries) <-> In (File name content) entries.
Proof.
  unfold filenames. rewrite in_flat_map. split.
  - intros ([n c|n es] & He & Hin); [|destruct Hin].
    destruct Hin as [[= <- <-]|[]]. done.
  - intros He. exists (File name content). split; [done|by left].
Qed.

(** The order of the enumeration: [os.walk] is top down, so the files
    of the directory come first, in the order of its listing, then
    the files below each of its subdirectories in turn. *)
Lemma walk_files_unfold (directory : Path) (entries : list Entry) :
  walk_files directory entries
  = (List.map (fun '(file, content) => (joinpath directory file, content))
       (filenames entries)
     ++ flat_map (fun e => match e with
                           | File _ _ => []
                           | Directory name subentries =>
                               walk_files (joinpath directory name) subentries
                           end) entries)%list.
Proof.
  unfold walk_files at 1, walk. cbn [flat_map]. f_equal.
  induction entries as [|e entries IH]; [reflexivity|].
  cbn [flat_map]. rewrite flat_map_app, IH. f_equal.
  by destruct e.
Qed.

(** The files enumerated are the files of the tree. *)
Lemma walk_files_in_tree_1 (e : Entry) :
  forall directory,
    match e with
    | File _ _ => True
    | Directory _ entries =>
        forall path content,
          In (path, content) (walk_files directory entries) ->
          file_in_tree directory entries path content
    end.
Proof.
  induction e as [name content|name entries IH] using Entry_tree_ind; [done|].
  intros directory path content Hin.
  rewrite walk_files_unfold in Hin. apply in_app_or in Hin as [Hin|Hin].
  - apply in_map_iff in Hin as ([file c] & [= <- <-] & Hin).
    apply file_here, list_elem_of_In. by apply filenames_In.
  - apply in_flat_map in Hin as ([n c|n es] & He & Hin); [destruct Hin|].
    apply list_elem_of_In in He.
    apply (file_below _ _ n es); [done|].
    rewrite Forall_forall in IH. by apply (IH _ He (joinpath directory n)).
Qed.

Lemma walk_files_in_tree (directory : Path) (entries : list Entry)
    (path : Path) (content : bytes) :
  (path, content) ∈ walk_files directory entries
  <-> file_in_tree directory entries path content.
Proof.
  split.
  - intros Hin. apply list_elem_of_In in Hin.
    by apply (walk_files_in_tree_1 (Directory "" entries) directory).
  - intros H. apply list_elem_of_In.
    induction H as [directory entries name content He
                   |directory entries name subentries path content He _ IH];
      rewrite walk_files_unfold; apply in_or_app.
    + left. apply in_map_iff. exists (name, content). split; [done|].
      by apply filenames_In, list_elem_of_In.
    + right. apply in_flat_map. exists (Directory name subentries).
      split; [by apply list_elem_of_In|done].
Qed.

Lemma read_app (size : N) (rest : bytes) :
  (fst (read size rest) ++ snd (read size rest))%list = rest.
Proof.
  revert size. induction rest as [|b rest IH]; intros size; [reflexivity|].
  cbn [read]. destruct (size =? 0)%N; [reflexivity|].
  specialize (IH (N.pred size)). destruct (read (N.pred size) rest) as [chunk remaining].
  simpl in *. by rewrite IH.
Qed.

Lemma read_cons (size : N) (b : Byte.byte) (rest : bytes) :
  size <> 0%N -> exists chunk, fst (read size (b :: rest)) = b :: chunk.
Proof.
  intros Hs. cbn [read]. apply N.eqb_neq in Hs. rewrite Hs.
  destruct (read (N.pred size) rest) as [chunk remaining]. by exists chunk.
Qed.

Section WithHash.

Variable h : Hashlib.

(** The dictionary of the scan, by the hashes that [_calc_hash]
    returns. *)
Lemma scan_existing_files_last (directory : Path) (entries : list Entry) :
  let files := walk_files directory entries in
  let hash_of := fun f => snd (_calc_hash h f) in
  let index := scan_existing_files h directory entries in
  (forall hash, is_Some (index !! hash) <-> exists f, f ∈ files /\ hash_of f = hash)
  /\ (forall hash path,
        index !! hash = Some path
        <-> exists earlier content later,
              files = (earlier ++ (path, content) :: later)%list
              /\ hash_of (path, content) = hash
              /\ forall f, f ∈ later -> hash_of f <> hash)
  /\ size index = length (remove_dups (hash_of <$> files)).
Proof.
  intros files hash_of index.
  assert (Hresults : List.map (_calc_hash h) files
                     = (fun f => (fst f, hash_of f)) <$> files).
  { apply map_ext. by intros [p c]. }
  assert (Hdom : dom index = list_to_set (hash_of <$> files)).
  { unfold index, scan_existing_files. fold files.
    rewrite hash_dict_dom, Hresults, <- list_fmap_compose. reflexivity. }
  split; [|split].
  - intros hash. rewrite <- elem_of_dom, Hdom, elem_of_list_to_set, list_elem_of_fmap.
    split; intros (f & H1 & H2); exists f; by split.
  - intros hash path. unfold index, scan_existing_files. fold files.
    rewrite hash_dict_lookup, Hresults. split.
    + intros (earlier & later & E & Hl).
      apply fmap_app_inv in E as (fe & fl & -> & E & ->).
      symmetry in E. apply fmap_cons_inv in E as ([p c] & fl' & [= -> Hc] & -> & ->).
      exists fe, c, fl'. split; [done|]. split; [done|].
      intros f Hf. apply (Hl (fst f, hash_of f)).
      apply list_elem_of_fmap. by exists f.
    + intros (earlier & content & later & -> & Hc & Hl).
      exists ((fun f => (fst f, hash_of f)) <$> earlier),
             ((fun f => (fst f, hash_of f)) <$> later).
      split.
      * rewrite fmap_app, fmap_cons. simpl. by rewrite Hc.
      * intros res Hres. apply list_elem_of_fmap in Hres as (f & -> & Hf).
        by apply Hl.
  - rewrite <- size_dom, Hdom.
    rewrite <- (size_list_to_set (C := gset string) (remove_dups (hash_of <$> files)))
      by apply NoDup_remove_dups.
    f_equal. apply set_eq. intros x.
    by rewrite !elem_of_list_to_set, elem_of_remove_dups.
Qed.


Hypothesis Hstream : streaming h.

(** The loop feeds the whole of what is left to read. *)
Lemma read_loop_whole (turns : nat) (rest : bytes) (s : md5_state h) :
  length rest <= turns -> read_loop h turns rest s = md5_update h s rest.
Proof.
  revert rest s. induction turns as [|turns IH]; intros rest s Hl.
  - destruct rest; [|simpl in Hl; lia]. simpl. by rewrite (update_nil h Hstream).
  - cbn [read_loop]. pose proof (read_app chunk_size rest) as Happ.
    destruct rest as [|b rest].
    + simpl. by rewrite (update_nil h Hstream).
    + destruct (read_cons chunk_size b rest) as [chunk Hc]; [done|].
      destruct (read chunk_size (b :: rest)) as [chunk' remaining].
      cbn [fst snd] in *. subst chunk'.
      rewrite IH, (update_app h Hstream), Happ; [done|].
      apply (f_equal (@length _)) in Happ. cbn [length] in *.
      rewrite length_app in Happ. cbn [length] in *. lia.
Qed.

Lemma _calc_hash_digest (existing_file : Path * bytes) :
  _calc_hash h existing_file = (fst existing_file, md5 h (snd existing_file)).
Proof. unfold _calc_hash, md5. by rewrite read_loop_whole. Qed.

End WithHash.

(** C9. For a hash object that is fed as [hashlib] documents and a
    directory tree whose files are read, the scan enumerates the
    files of the tree, top down, and its index has one entry for each
    digest of the content of a file of the tree, and no other entry. The path it records
    for a digest is the path of the last file with that digest in the
    order of the enumeration, so the path of a file of the tree with
    that digest; the other files with that digest are in the tree as
    well. *)
Theorem scan_existing_files_index (h : Hashlib) (directory : Path)
    (entries : list Entry) :
  streaming h ->
  let files := walk_files directory entries in
  let index := scan_existing_files h directory entries in
  (forall path content,
     (path, content) ∈ files <-> file_in_tree directory entries path content)
  /\ files
     = (List.map (fun '(file, content) => (joinpath directory file, content))
          (filenames entries)
        ++ flat_map (fun e => match e with
                              | File _ _ => []
                              | Directory name subentries =>
                                  walk_files (joinpath directory name) subentries
                              end) entries)%list
  /\ (forall hash,
        is_Some (index !! hash)
        <-> exists path content,
              file_in_tree directory entries path content /\ md5 h content = hash)
  /\ (forall hash path,
        index !! hash = Some path
        <-> exists earlier content later,
              files = (earlier ++ (path, content) :: later)%list
              /\ md5 h content = hash
              /\ forall f, f ∈ later -> md5 h (snd f) <> hash)
  /\ (forall hash path,
        index !! hash = Some path ->
        exists content,
          file_in_tree directory entries path content /\ md5 h content = hash)
  /\ size index = length (remove_dups ((fun f => md5 h (snd f)) <$> files)).
Proof.
  intros Hstream files index.
  destruct (scan_existing_files_last h directory entries) as (Hsome & Hlast & Hsize).
  fold files index in Hsome, Hlast, Hsize.
  assert (forall f, snd (_calc_hash h f) = md5 h (snd f)) as Hd.
  { intros f. by rewrite _calc_hash_digest. }
  assert (forall hash path,
            index !! hash = Some path
            <-> exists earlier content later,
                  files = (earlier ++ (path, content) :: later)%list
                  /\ md5 h content = hash
                  /\ forall f, f ∈ later -> md5 h (snd f) <> hash) as Hlast'.
  { intros hash path. rewrite Hlast. split.
    - intros (earlier & content & later & E & Hc & Hl).
      exists earlier, content, later. rewrite Hd in Hc. split; [done|]. split; [done|].
      intros f Hf. rewrite <- Hd. by apply Hl.
    - intros (earlier & content & later & E & Hc & Hl).
      exists earlier, content, later. rewrite Hd. split; [done|]. split; [done|].
      intros f Hf. rewrite Hd. by apply Hl. }
  split; [apply walk_files_in_tree|]. split; [apply walk_files_unfold|].
  split; [|split; [done|split]].
  - intros hash. rewrite Hsome. split.
    + intros ([path content] & Hin & Hh). exists path, content.
      rewrite Hd in Hh. split; [by apply walk_files_in_tree|done].
    + intros (path & content & Hin & Hh). exists (path, content).
      rewrite Hd. split; [by apply walk_files_in_tree|done].
  - intros hash path (earlier & content & later & E & Hc & _)%Hlast'.
    exists content. split; [|done]. apply walk_files_in_tree.
    fold files. rewrite E. apply elem_of_app. right. by left.
  - rewrite Hsize. do 2 f_equal. apply list_fmap_ext. intros _ f _. apply Hd.
Qed.

(** *** Examples *)

Import Sample.

Lemma keep_all_streaming : streaming keep_all.
Proof.
  split; intros; cbn.
  - apply app_nil_r.
  - symmetry. apply app_assoc.
Qed.

Lemma scan_existing_files_index_witness :
  let directory := ["out"] in
  let entries := [File "a" picture; Directory "sub" [File "b" picture; File "c" text]] in
  let files := walk_files directory entries in
  let index := scan_existing_files keep_all directory entries in
  (forall path content,
     (path, content) ∈ files <-> file_in_tree directory entries path content)
  /\ files
     = (List.map (fun '(file, content) => (joinpath directory file, content))
          (filenames entries)
        ++ flat_map (fun e => match e with
                              | File _ _ => []
                              | Directory name subentries =>
                                  walk_files (joinpath directory name) subentries
                              end) entries)%list
  /\ (forall hash,
        is_Some (index !! hash)
        <-> exists path content,
              file_in_tree directory entries path content
              /\ md5 keep_all content = hash)
  /\ (forall hash path,
        index !! hash = Some path
        <-> exists earlier content later,
              files = (earlier ++ (path, content) :: later)%list
              /\ md5 keep_all content = hash
              /\ forall f, f ∈ later -> md5 keep_all (snd f) <> hash)
  /\ (forall hash path,
        index !! hash = Some path ->
        exists content,
          file_in_tree directory entries path content
          /\ md5 keep_all content = hash)
  /\ size index = length (remove_dups ((fun f => md5 keep_all (snd f)) <$> files)).
Proof.
  intros directory entries.
  apply (scan_existing_files_index keep_all directory entries keep_all_streaming).
Defined.

End Scan.

(** ** The loop over the resources of a submission *)

Module Commit.

Import Downloader.

(** Unfold the statements of the monad down to functions on states. *)
Ltac run :=
  unfold download_one, mkdir_parents, write_file, utime, link_to, exists_,
    download_resource, logger_exception, logger, syscall, call;
  unfold mbind, mret, M_bind, M_ret, try_except, bind, ret, raise, get, modify.

(** Rewrite with what is known of a test and reduce the branch taken. *)
Ltac rw H := rewrite H; cbn beta iota; cbn [negb].

Lemma path_exists_add_log (entry : Level * Message) (st : State) (path : Path) :
  path_exists (add_log entry st) path = path_exists st path.
Proof. reflexivity. Qed.

Lemma path_exists_files (st : State) (path : Path) :
  path_exists st path = false -> files st !! path = None.
Proof.
  unfold path_exists. intros H. apply orb_false_iff in H as [H _].
  apply bool_decide_eq_false in H. by apply not_elem_of_dom.
Qed.

Section WithDownloader.

Variable env : Env.
Variable self : RedditDownloader.

(** The loop stops at the first [return]. *)
Lemma download_all_return (s : Submission) (cls : DownloaderClass)
    (d : Path) (r : Resource) (rest : list (Path * Resource)) (st st' : State) :
  download_one env self s cls d r st = (Ok Return, st') ->
  download_all env self s cls ((d, r) :: rest) st = (Ok Return, st').
Proof.
  intros H. cbn [download_all]. unfold mbind, M_bind, bind. by rewrite H.
Qed.

Lemma download_all_continue (s : Submission) (cls : DownloaderClass)
    (d : Path) (r : Resource) (rest : list (Path * Resource)) (st st' : State) :
  download_one env self s cls d r st = (Ok Continue, st') ->
  download_all env self s cls ((d, r) :: rest) st
  = download_all env self s cls rest st'.
Proof.
  intros H. cbn [download_all]. unfold mbind, M_bind, bind. by rewrite H.
Qed.

Lemma download_all_raise (s : Submission) (cls : DownloaderClass)
    (d : Path) (r : Resource) (rest : list (Path * Resource)) (st st' : State)
    (e : Exn) :
  download_one env self s cls d r st = (Raise e, st') ->
  download_all env self s cls ((d, r) :: rest) st = (Raise e, st').
Proof.
  intros H. cbn [download_all]. unfold mbind, M_bind, bind. by rewrite H.
Qed.

(** A fetch that fails ends the loop. *)
Lemma download_one_fetch_fails (s : Submission) (cls : DownloaderClass)
    (d : Path) (r : Resource) (st : State) :
  path_exists st d = false ->
  check_resource env r = true ->
  res_fetch r = FetchFails BulkDownloaderException ->
  download_one env self s cls d r st
  = (Ok Return,
     add_log (ERROR, DownloadFailed (res_url r) (id s) cls BulkDownloaderException) st).
Proof.
  intros Hd Hc Hf. run. rw Hd. rw Hc. by rw Hf.
Qed.

(** C3. When the fetch of a resource fails, the failure is logged as
    an error and the method returns: the resources that follow in the
    same submission are not processed, whatever they are, and nothing
    else changes. *)
Theorem fetch_failure_abandons (s : Submission) (cls : DownloaderClass)
    (d : Path) (r : Resource) (rest : list (Path * Resource)) (st : State) :
  path_exists st d = false ->
  check_resource env r = true ->
  res_fetch r = FetchFails BulkDownloaderException ->
  download_all env self s cls ((d, r) :: rest) st
  = (Ok Return,
     add_log (ERROR, DownloadFailed (res_url r) (id s) cls BulkDownloaderException) st).
Proof.
  intros Hd Hc Hf. by apply download_all_return, download_one_fetch_fails.
Qed.

(** Writing changes the files only. *)
Lemma write_file_frame (d : Path) (content : bytes) (st st' : State)
    (r : result unit) :
  write_file env d content st = (r, st') ->
  master_hash_list st' = master_hash_list st /\ mtimes st' = mtimes st
  /\ log st' = log st /\ dirs st' = dirs st /\ stdout st' = stdout st.
Proof.
  run. destruct (fault env st (SysOpen d)); [by intros [= <- <-]|].
  destruct (fault env _ (SysWrite d)); by intros [= <- <-].
Qed.

(** C2. When writing the bytes of a resource to its destination fails
    with an [OSError], the traceback and an error are logged, the hash
    index and the file times stay as they are, and the method returns:
    the resources that follow in the same submission are not
    processed, whatever they are. *)
Theorem write_failure_abandons (s : Submission) (cls : DownloaderClass)
    (d : Path) (r : Resource) (content : bytes) (st : State) :
  path_exists st d = false ->
  check_resource env r = true ->
  res_fetch r = Fetched content ->
  fault env st (SysMkdir (parent d)) = None ->
  master_hash_list st !! md5 (hashlib env) content = None
  \/ (no_dupes (args self) = false /\ make_hard_links (args self) = false) ->
  (forall st', fst (write_file env d content st') = Raise OSError) ->
  exists st',
    (forall rest,
       download_all env self s cls ((d, r) :: rest) st = (Ok Return, st'))
    /\ master_hash_list st' = master_hash_list st
    /\ mtimes st' = mtimes st
    /\ log st'
       = (log st ++ [(ERROR, Traceback OSError);
                     (ERROR, WriteFailed (id s) d OSError)])%list.
Proof.
  intros Hd Hc Hf Hmk Hdup Hw.
  set (st1 := set_dirs (fun ds => ds ∪ list_to_set (ancestors (parent d))) st).
  destruct (write_file env d content st1) as [w stw] eqn:Ew.
  pose proof (Hw st1) as Hw1. rewrite Ew in Hw1. simpl in Hw1. subst w.
  destruct (write_file_frame _ _ _ _ _ Ew) as (Hm & Ht & Hl & _).
  exists (add_log (ERROR, WriteFailed (id s) d OSError)
            (add_log (ERROR, Traceback OSError) stw)).
  split; [|split; [|split]].
  - intros rest. apply download_all_return.
    unfold download_one, exists_, download_resource, mkdir_parents, syscall,
      logger_exception, logger.
    unfold mbind, mret, M_bind, M_ret, try_except, bind, ret, raise, get, modify.
    rw Hd. rw Hc. rw Hf. rw Hmk. fold st1.
    assert (master_hash_list st1 = master_hash_list st) as -> by reflexivity.
    destruct Hdup as [Hn|[Hn Hl']].
    + rw Hn. by rw Ew.
    + rw Hn. rw Hl'.
      destruct (master_hash_list st !! md5 (hashlib env) content); by rw Ew.
  - simpl. exact Hm.
  - simpl. exact Ht.
  - simpl. rewrite Hl. by rewrite <- app_assoc.
Qed.

(** A resource that is fetched, is not in the way of a policy for
    duplicates and meets no failure is written and indexed. *)
Lemma download_one_commits (s : Submission) (cls : DownloaderClass)
    (d : Path) (r : Resource) (content : bytes) (creation_time : Z) (st : State) :
  (forall st' c, fault env st' c = None) ->
  mktime env (created_utc s) = Ok creation_time ->
  path_exists st d = false ->
  check_resource env r = true ->
  res_fetch r = Fetched content ->
  master_hash_list st !! md5 (hashlib env) content = None
  \/ (no_dupes (args self) = false /\ make_hard_links (args self) = false) ->
  exists st',
    download_one env self s cls d r st = (Ok Continue, st')
    /\ files st' = <[d := content]> (files st)
    /\ dirs st' = dirs st ∪ list_to_set (ancestors (parent d))
    /\ mtimes st' = <[d := creation_time]> (mtimes st)
    /\ master_hash_list st' = <[md5 (hashlib env) content := d]> (master_hash_list st)
    /\ log st'
       = (log st ++ [(DEBUG, WrittenTo d);
                     (DEBUG, HashAdded (md5 (hashlib env) content))])%list.
Proof.
  intros Hnf Hmk Hd Hc Hf Hdup. eexists. split.
  - run. rw Hd. rw Hc. rw Hf. rewrite !Hnf. cbn beta iota.
    cbn [master_hash_list set_dirs].
    destruct Hdup as [Hn|[Hn Hl]].
    + rw Hn. rewrite !Hnf. cbn beta iota. rw Hmk. rewrite Hnf. reflexivity.
    + rw Hn. rw Hl.
      destruct (master_hash_list st !! md5 (hashlib env) content);
        cbn beta iota; rewrite !Hnf; cbn beta iota; rw Hmk; rewrite Hnf;
        reflexivity.
  - cbn [files dirs mtimes master_hash_list log add_log set_master_hash_list
         set_mtimes set_files set_dirs].
    rewrite insert_insert_eq, <- app_assoc. done.
Qed.

(** C7, as the code has it. With the policy against duplicates
    active, the first commit of some bytes writes one file and
    indexes it. A second commit of the same bytes leaves that one
    file, whatever its destination. To a destination that is free, it
    logs that the hash was downloaded elsewhere, changes neither the
    files nor the index, and returns: the resources that follow it in
    its submission are not processed. To a destination that exists,
    as that of the first commit, the test for the file comes first:
    it logs that the file exists, not that the hash was downloaded
    elsewhere, and the loop goes on with the resources that follow. *)
Theorem no_dupes_commits_once (s1 s2 : Submission) (cls1 cls2 : DownloaderClass)
    (d1 d2 : Path) (r1 r2 : Resource) (content : bytes) (creation_time : Z)
    (st : State) :
  no_dupes (args self) = true ->
  (forall st' c, fault env st' c = None) ->
  mktime env (created_utc s1) = Ok creation_time ->
  res_fetch r1 = Fetched content ->
  res_fetch r2 = Fetched content ->
  check_resource env r1 = true ->
  check_resource env r2 = true ->
  master_hash_list st !! md5 (hashlib env) content = None ->
  path_exists st d1 = false ->
  exists st1,
    download_all env self s1 cls1 [(d1, r1)] st = (Ok Continue, st1)
    /\ files st1 = <[d1 := content]> (files st)
    /\ master_hash_list st1
       = <[md5 (hashlib env) content := d1]> (master_hash_list st)
    /\ path_exists st1 d1 = true
    /\ (path_exists st1 d2 = false ->
        exists st2,
          (forall rest,
             download_all env self s2 cls2 ((d2, r2) :: rest) st1 = (Ok Return, st2))
          /\ files st2 = files st1
          /\ master_hash_list st2 = master_hash_list st1
          /\ log st2
             = (log st1
                ++ [(INFO, DownloadedElsewhere (md5 (hashlib env) content) (id s2))])%list)
    /\ (path_exists st1 d2 = true ->
        forall rest,
          download_all env self s2 cls2 ((d2, r2) :: rest) st1
          = download_all env self s2 cls2 rest
              (add_log (DEBUG, AlreadyExists d2 (id s2)) st1)).
Proof.
  intros Hnd Hnf Hmk Hf1 Hf2 Hc1 Hc2 Hnew Hd1.
  destruct (download_one_commits s1 cls1 d1 r1 content creation_time st Hnf Hmk Hd1
              Hc1 Hf1 (or_introl Hnew))
    as (st1 & Hrun1 & Hfiles & Hdirs & _ & Hindex & Hlog).
  exists st1. split; [|split; [|split; [|split; [|split]]]].
  - rewrite (download_all_continue _ _ _ _ _ _ _ Hrun1). reflexivity.
  - exact Hfiles.
  - exact Hindex.
  - unfold path_exists. apply orb_true_iff. left. apply bool_decide_eq_true.
    apply elem_of_dom. rewrite Hfiles, lookup_insert_eq. by eexists.
  - intros Hd2.
    exists (add_log (INFO, DownloadedElsewhere (md5 (hashlib env) content) (id s2))
              (set_dirs (fun ds => ds ∪ list_to_set (ancestors (parent d2))) st1)).
    split; [|by repeat split].
    intros rest. apply download_all_return.
    run. rw Hd2. rw Hc2. rw Hf2. rewrite !Hnf. cbn beta iota.
    cbn [master_hash_list set_dirs]. rewrite Hindex, lookup_insert_eq.
    cbn beta iota. by rw Hnd.
  - intros Hd2 rest. apply download_all_continue. run. by rw Hd2.
Qed.

End WithDownloader.

(** *** Examples *)

Import Sample.

Lemma fetch_failure_abandons_witness :
  download_all env (downloader false false) (submission "gone" 50) SelfPost
    [(["out"; "gone"], unreachable); (["out"; "other"], other)] empty
  = (Ok Return,
     add_log (ERROR, DownloadFailed "https://reddit.com/r/test/gone" "gone" SelfPost
                       BulkDownloaderException) empty).
Proof.
  apply (fetch_failure_abandons env (downloader false false) (submission "gone" 50)
           SelfPost ["out"; "gone"] unreachable); reflexivity.
Defined.

(** The resource after the one whose fetch fails is not processed: it
    is one that would have been written. *)
Lemma fetch_failure_continues_fails :
  let s := submission "gone" 50 in
  let self := downloader false false in
  let run := _download_submission env self s empty in
  format_resource_paths env (resources_of s) (download_directory self)
  = [(["out"; "gone"], unreachable); (["out"; "other"], other)]
  /\ fst run = Ok tt
  /\ log (snd run)
     = [(DEBUG, Attempting "gone");
        (DEBUG, Using SelfPost "http://reddit.com/r/test/gone");
        (ERROR, DownloadFailed "https://reddit.com/r/test/gone" "gone" SelfPost
                  BulkDownloaderException)]
  /\ files (snd run) !! ["out"; "other"] = None
  /\ files (snd (download_all env self s SelfPost [(["out"; "other"], other)] (snd run)))
       !! ["out"; "other"] = Some text.
Proof. by vm_compute. Qed.

Lemma write_failure_abandons_witness :
  exists st',
    (forall rest,
       download_all env_open_fails (downloader false false) (submission "abc123" 50)
         SelfPost ((["out"; "abc123"], first_post) :: rest) empty
       = (Ok Return, st'))
    /\ master_hash_list st' = master_hash_list empty
    /\ mtimes st' = mtimes empty
    /\ log st'
       = (log empty ++ [(ERROR, Traceback OSError);
                        (ERROR, WriteFailed "abc123" ["out"; "abc123"] OSError)])%list.
Proof.
  apply (write_failure_abandons env_open_fails (downloader false false)
           (submission "abc123" 50) SelfPost ["out"; "abc123"] first_post picture empty);
    try reflexivity.
  - by left.
Defined.

(** The resource after the one whose write fails is not processed: it
    is one that would have been written. *)
Lemma write_failure_continues_fails :
  let s := submission "abc123" 50 in
  let self := downloader false false in
  let run := _download_submission env_open_fails self s empty in
  format_resource_paths env_open_fails (resources_of s) (download_directory self)
  = [(["out"; "abc123"], first_post); (["out"; "other"], other)]
  /\ fst run = Ok tt
  /\ log (snd run)
     = [(DEBUG, Attempting "abc123");
        (DEBUG, Using SelfPost "http://reddit.com/r/test/abc123");
        (ERROR, Traceback OSError);
        (ERROR, WriteFailed "abc123" ["out"; "abc123"] OSError)]
  /\ files (snd run) !! ["out"; "other"] = None
  /\ files (snd (download_all env_open_fails self s SelfPost
                   [(["out"; "other"], other)] (snd run)))
       !! ["out"; "other"] = Some text.
Proof. by vm_compute. Qed.

Lemma no_dupes_commits_once_witness :
  exists st1,
    download_all env (downloader true false) (submission "abc123" 50) SelfPost
      [(["out"; "abc123"], first_post)] empty = (Ok Continue, st1)
    /\ files st1 = <[["out"; "abc123"] := picture]> (files empty)
    /\ master_hash_list st1
       = <[md5 (hashlib env) picture := ["out"; "abc123"]]> (master_hash_list empty)
    /\ path_exists st1 ["out"; "abc123"] = true
    /\ (path_exists st1 ["out"; "def456"] = false ->
        exists st2,
          (forall rest,
             download_all env (downloader true false) (submission "def456" 50) SelfPost
               ((["out"; "def456"], same_again) :: rest) st1 = (Ok Return, st2))
          /\ files st2 = files st1
          /\ master_hash_list st2 = master_hash_list st1
          /\ log st2
             = (log st1
                ++ [(INFO, DownloadedElsewhere (md5 (hashlib env) picture) "def456")])%list)
    /\ (path_exists st1 ["out"; "def456"] = true ->
        forall rest,
          download_all env (downloader true false) (submission "def456" 50) SelfPost
            ((["out"; "def456"], same_again) :: rest) st1
          = download_all env (downloader true false) (submission "def456" 50) SelfPost
              rest (add_log (DEBUG, AlreadyExists ["out"; "def456"] "def456") st1)).
Proof.
  apply (no_dupes_commits_once env (downloader true false)
           (submission "abc123" 50) (submission "def456" 50) SelfPost SelfPost
           ["out"; "abc123"] ["out"; "def456"] first_post same_again picture
           1600000000 empty);
    reflexivity.
Defined.

(** With the policy against duplicates active, the same resource
    committed a second time to the same destination is not reported
    as downloaded elsewhere and does not end the loop: the file is
    found to exist, and the resource that follows is written. *)
Lemma same_destination_is_not_a_duplicate :
  let self := downloader true false in
  let s := submission "abc123" 50 in
  let st1 := snd (download_all env self s SelfPost
                    [(["out"; "abc123"], first_post)] empty) in
  let second := download_all env self s SelfPost
                  [(["out"; "abc123"], first_post); (["out"; "other"], other)] st1 in
  no_dupes (args self) = true
  /\ files st1 !! ["out"; "abc123"] = Some picture
  /\ fst second = Ok Continue
  /\ log (snd second)
     = (log st1 ++ [(DEBUG, AlreadyExists ["out"; "abc123"] "abc123");
                    (DEBUG, WrittenTo ["out"; "other"]);
                    (DEBUG, HashAdded (md5 keep_all text))])%list
  /\ files (snd second) !! ["out"; "other"] = Some text.
Proof. by vm_compute. Qed.

End Commit.

(** ** The hash index and the errors of a run *)

Module Index.

Import Downloader Run Commit.

(** Split on the innermost test a result depends on. *)
Ltac split_test :=
  match goal with
  | |- context [match ?x with _ => _ end] =>
      lazymatch x with
      | context [match _ with _ => _ end] => fail
      | _ => destruct x eqn:?
      end
  end.

Section WithDownloader.

Variable env : Env.
Variable self : RedditDownloader.

Lemma extends_refl (st : State) : extends env self st st.
Proof. split; [done|done|done|]. intros hash path H. by left. Qed.

Lemma extends_trans (st1 st2 st3 : State) :
  extends env self st1 st2 -> extends env self st2 st3 -> extends env self st1 st3.
Proof.
  intros [F1 H1 P1 N1] [F2 H2 P2 N2]. split.
  - by transitivity (files st2).
  - by transitivity (dom (master_hash_list st2)).
  - intros Hp. transitivity (master_hash_list st2); auto.
  - intros hash path H3. destruct (N2 hash path H3) as [H|(Hnew & content & Hc & Hh)].
    + destruct (N1 hash path H) as [H'|(Hnew & content & Hc & Hh)]; [by left|].
      right. split; [done|]. exists content. split; [|done].
      by apply (lookup_weaken (files st2)).
    + right. split.
      * destruct (files st1 !! path) as [c|] eqn:E; [|done].
        apply (lookup_weaken _ (files st2)) in E; [congruence|done].
      * by exists content.
Qed.

Lemma grows_refl (st : State) : grows env self st st.
Proof. split; [apply extends_refl|done]. Qed.

Lemma grows_trans (st1 st2 st3 : State) :
  grows env self st1 st2 -> grows env self st2 st3 -> grows env self st1 st3.
Proof.
  intros [E1 S1] [E2 S2]. split; [by apply (extends_trans _ st2)|auto].
Qed.

(** A step that keeps the files and leaves the index as it is. *)
Lemma grows_files (st st' : State) :
  files st ⊆ files st' ->
  master_hash_list st' = master_hash_list st ->
  grows env self st st'.
Proof.
  intros Hf Hm. split.
  - split; [done|by rewrite Hm|by rewrite Hm|]. intros hash path H.
    left. by rewrite <- Hm.
  - intros Hs hash path H. rewrite Hm in H.
    destruct (Hs hash path H) as (content & Hc & Hh).
    exists content. split; [|done]. by apply (lookup_weaken (files st)).
Qed.

(** The step that writes a new file and indexes it. *)
Lemma grows_commit (st st' : State) (d : Path) (content : bytes) :
  files st !! d = None ->
  files st' = <[d := content]> (files st) ->
  master_hash_list st'
  = <[md5 (hashlib env) content := d]> (master_hash_list st) ->
  master_hash_list st !! md5 (hashlib env) content = None
  \/ (no_dupes (args self) = false /\ make_hard_links (args self) = false) ->
  grows env self st st'.
Proof.
  intros Hd Hf Hm Hdup.
  assert (files st ⊆ files st') as Hsub by (rewrite Hf; by apply insert_subseteq).
  split.
  - split; [done| | |].
    + rewrite Hm, dom_insert. set_solver.
    + intros Hp. destruct Hdup as [Hn|[Hn Hl]].
      * rewrite Hm. by apply insert_subseteq.
      * by rewrite Hn, Hl in Hp.
    + intros hash path. rewrite Hm. intros [[<- <-]|[_ H]]%lookup_insert_Some.
      * right. split; [done|]. exists content. by rewrite Hf, lookup_insert_eq.
      * by left.
  - intros Hs hash path. rewrite Hm. intros [[<- <-]|[_ H]]%lookup_insert_Some.
    + exists content. by rewrite Hf, lookup_insert_eq.
    + destruct (Hs hash path H) as (c & Hc & Hh).
      exists c. split; [|done]. by apply (lookup_weaken (files st)).
Qed.

Lemma download_one_grows (s : Submission) (cls : DownloaderClass)
    (d : Path) (r : Resource) (st st' : State) (res : result Flow) :
  download_one env self s cls d r st = (res, st') -> grows env self st st'.
Proof.
  run. destruct (path_exists st d) eqn:Hd; [intros [= <- <-]; by apply grows_files|].
  apply path_exists_files in Hd.
  repeat split_test; intros [= <- <-].
  all: try (apply grows_files; [|reflexivity]; cbn; try done;
            rewrite ?insert_insert_eq; by apply insert_subseteq).
  all: apply (grows_commit _ _ d content);
    [done|cbn; by rewrite insert_insert_eq|reflexivity|].
  - right. by split.
  - by left.
Qed.

Lemma download_all_grows (s : Submission) (cls : DownloaderClass)
    (items : list (Path * Resource)) (st st' : State) (res : result Flow) :
  download_all env self s cls items st = (res, st') -> grows env self st st'.
Proof.
  revert st. induction items as [|[d r] items IH]; intros st.
  - intros [= <- <-]. apply grows_refl.
  - cbn [download_all]. unfold mbind, M_bind, bind.
    destruct (download_one env self s cls d r st) as [[[]|e] st1] eqn:E1;
      apply download_one_grows in E1.
    + intros H. apply (grows_trans _ st1); [done|by apply IH].
    + by intros [= <- <-].
    + by intros [= <- <-].
Qed.

Lemma _download_submission_grows (s : Submission) (st st' : State)
    (res : result unit) :
  _download_submission env self s st = (res, st') -> grows env self st st'.
Proof.
  unfold _download_submission.
  destruct (rejection env self s); [intros [= <- <-]; by apply grows_files|].
  unfold Downloader.pull_lever, call, logger.
  unfold mbind, mret, M_bind, M_ret, try_except, bind, ret, raise, get, modify.
  destruct (DownloadFactory.pull_lever _ _) as [printed [cls|e]]; cbn beta iota.
  - destruct (in_list _ _); [intros [= <- <-]; by apply grows_files|].
    destruct (find_resources env cls s) as [content|e]; cbn beta iota.
    + destruct (download_all _ _ _ _ _ _) as [[[]|e] st1] eqn:E;
        apply download_all_grows in E; intros [= <- <-];
        (apply (grows_trans _ st1); [|by apply grows_files]);
        (eapply grows_trans; [|exact E]); by apply grows_files.
    + destruct (isinstance _ _); intros [= <- <-]; by apply grows_files.
  - destruct (isinstance _ _); intros [= <- <-]; by apply grows_files.
Qed.

Lemma download_generator_grows (generator : list Submission) (st st' : State)
    (res : result unit) :
  download_generator env self generator st = (res, st') -> grows env self st st'.
Proof.
  revert st. induction generator as [|s generator IH]; intros st.
  - intros [= <- <-]. apply grows_refl.
  - cbn [download_generator]. unfold mbind, M_bind, bind.
    destruct (_download_submission env self s st) as [[[]|e] st1] eqn:E1;
      apply _download_submission_grows in E1.
    + intros H. apply (grows_trans _ st1); [done|by apply IH].
    + by intros [= <- <-].
Qed.

Lemma download_grows (reddit_lists : list (list Submission)) (st st' : State)
    (res : result unit) :
  download env self reddit_lists st = (res, st') -> grows env self st st'.
Proof.
  revert st. induction reddit_lists as [|generator reddit_lists IH]; intros st.
  - intros [= <- <-]. apply grows_refl.
  - cbn [download]. unfold mbind, M_bind, bind.
    destruct (download_generator env self generator st) as [[[]|e] st1] eqn:E1;
      apply download_generator_grows in E1.
    + intros H. apply (grows_trans _ st1); [done|by apply IH].
    + by intros [= <- <-].
Qed.

(** C6. From a hash index whose paths are paths of files with those
    hashes, a run, however it ends, leaves such an index; no file
    is lost or changed and no hash leaves the index; a path that is
    new in the index, or has replaced another, is the path of a file
    the run has written, with that hash; and while the policy against
    duplicates or the policy of hard links is active no path of the
    index is replaced. *)
Theorem hash_index_grows (reddit_lists : list (list Submission)) (st : State) :
  index_sound env st ->
  index_sound env (snd (download env self reddit_lists st))
  /\ extends env self st (snd (download env self reddit_lists st)).
Proof.
  intros Hs.
  destruct (download env self reddit_lists st) as [res st'] eqn:E.
  apply download_grows in E as [He Hi]. split; [by apply Hi|done].
Qed.

(** *** Errors *)

Lemma isinstance_refl (e : Exn) : isinstance e e = true.
Proof. unfold isinstance. by rewrite bool_decide_eq_true_2. Qed.

Lemma later_refl (st : State) : later st st.
Proof. by split. Qed.

Lemma later_trans (st1 st2 st3 : State) : later st1 st2 -> later st2 st3 -> later st1 st3.
Proof. intros [L1 O1] [L2 O2]. split; by etransitivity. Qed.

Lemma later_add_log (entry : Level * Message) (st : State) : later st (add_log entry st).
Proof. split; [by apply prefix_app_r|done]. Qed.

Lemma later_add_stdout (lines : list string) (st : State) :
  later st (add_stdout lines st).
Proof. split; [done|by apply prefix_app_r]. Qed.

(** Solve [later st st'] for a state [st'] built from [st]. *)
Ltac later_built :=
  split; cbn; repeat first [reflexivity | apply prefix_app_r].

Lemma download_one_later (s : Submission) (cls : DownloaderClass)
    (d : Path) (r : Resource) (st st' : State) (res : result Flow) :
  download_one env self s cls d r st = (res, st') -> later st st'.
Proof. run. repeat split_test; intros [= <- <-]; later_built. Qed.

Lemma download_all_later (s : Submission) (cls : DownloaderClass)
    (items : list (Path * Resource)) (st st' : State) (res : result Flow) :
  download_all env self s cls items st = (res, st') -> later st st'.
Proof.
  revert st. induction items as [|[d r] items IH]; intros st.
  - intros [= <- <-]. apply later_refl.
  - cbn [download_all]. unfold mbind, M_bind, bind.
    destruct (download_one env self s cls d r st) as [[[]|e] st1] eqn:E1;
      apply download_one_later in E1.
    + intros H. apply (later_trans _ st1); [done|by apply IH].
    + by intros [= <- <-].
    + by intros [= <- <-].
Qed.

Lemma processed_later (s : Submission) (st st' : State) :
  later st st' -> processed env self s st -> processed env self s st'.
Proof.
  intros [Hl _]. unfold processed.
  destruct (rejection env self s); intros H; by apply (elem_of_prefix (log st)).
Qed.

Lemma accounted_later (s : Submission) (st st' : State) :
  later st st' -> accounted env self s st -> accounted env self s st'.
Proof.
  intros Hl (Hp & He & Hd). split; [by apply (processed_later s st)|]. split.
  - intros cls e H1 H2 H3 H4. apply (elem_of_prefix (log st)); [by eapply He|apply Hl].
  - intros H1 H2. apply (elem_of_prefix (stdout st)); [by apply Hd|apply Hl].
Qed.

Section Handled.

Hypothesis handled : only_handled_errors env self.

Lemma download_one_returns (s : Submission) (cls : DownloaderClass)
    (d : Path) (r : Resource) (st : State) :
  time_converts env s ->
  (forall e, res_fetch r = FetchFails e -> isinstance e BulkDownloaderException = true) ->
  index_sound env st ->
  exists flow st', download_one env self s cls d r st = (Ok flow, st').
Proof.
  intros [creation_time Htime] Hfetch Hsound. run.
  repeat (split_test;
          try match goal with
            | H : fault env _ (SysMkdir _) = Some _ |- _ =>
                by rewrite (no_mkdir_error _ _ handled) in H
            | H : fault env _ (SysUtime _) = Some _ |- _ =>
                by rewrite (no_utime_error _ _ handled) in H
            | H : fault env _ (SysLink _ _) = Some _ |- _ =>
                by rewrite (no_link_error _ _ handled) in H
            | H : mktime env _ = Raise _ |- _ => congruence
            | H : fault env _ (SysOpen _) = Some _ |- _ =>
                apply (open_errors _ _ handled) in H as ->
            | H : fault env _ (SysWrite _) = Some _ |- _ =>
                apply (write_errors _ _ handled) in H as ->
            | H : res_fetch r = FetchFails ?e |- _ =>
                rewrite (Hfetch e eq_refl)
            end;
          rewrite ?isinstance_refl;
          cbn beta iota);
    try by eexists _, _.
  destruct (Hsound _ _ Heqo0) as (c & Hc & _). cbn in Heqo2. congruence.
Qed.

Lemma download_all_returns (s : Submission) (cls : DownloaderClass)
    (items : list (Path * Resource)) (st : State) :
  time_converts env s ->
  (forall d r e, (d, r) ∈ items -> res_fetch r = FetchFails e ->
                 isinstance e BulkDownloaderException = true) ->
  index_sound env st ->
  exists flow st', download_all env self s cls items st = (Ok flow, st').
Proof.
  intros Htime. revert st. induction items as [|[d r] items IH]; intros st Hfetch Hsound.
  - by eexists _, _.
  - destruct (download_one_returns s cls d r st) as (flow & st1 & E1); [done| |done|].
    { intros e. apply (Hfetch d r e). by left. }
    cbn [download_all]. unfold mbind, M_bind, bind. rewrite E1.
    destruct flow; [|by eexists _, _].
    apply IH.
    + intros d' r' e Hin. apply (Hfetch d' r' e). by right.
    + by apply (download_one_grows _ _ _ _ _ _ _ E1).
Qed.

(** One submission: the method returns, and the log and the standard
    output account for the submission. *)
Lemma _download_submission_accounts (s : Submission) (st : State) :
  url_accepted env s ->
  time_converts env s ->
  index_sound env st ->
  exists st',
    _download_submission env self s st = (Ok tt, st')
    /\ later st st' /\ accounted env self s st'.
Proof.
  intros [sanitised Hs] Htime Hsound.
  unfold _download_submission, accounted, processed, dispatched.
  destruct (rejection env self s) as [entry|].
  { eexists. split; [reflexivity|]. split; [apply later_add_log|].
    split; [|by split]. cbn. apply elem_of_app. right. by left. }
  unfold Downloader.pull_lever, DownloadFactory.pull_lever, call, logger.
  rewrite Hs.
  unfold mbind, mret, M_bind, M_ret, try_except, bind, ret, raise, get, modify.
  set (st0 := add_log (DEBUG, Attempting (id s)) st).
  assert (forall st', later st0 st' -> later st st'
                      /\ (DEBUG, Attempting (id s)) ∈ log st') as Hst0.
  { intros st' Hl. split; [by apply (later_trans _ st0); [apply later_add_log|]|].
    apply (elem_of_prefix (log st0)); [|apply Hl].
    cbn. apply elem_of_app. right. by left. }
  destruct (_ && _); cbn [snd]; cbn beta iota.
  { eexists. split; [reflexivity|].
    destruct (Hst0 (add_stdout [url s] st0)) as [Hl Ha]; [apply later_add_stdout|].
    split; [done|]. split; [done|]. split; [discriminate|].
    intros _ _. cbn. apply elem_of_app. right. by left. }
  destruct (Re.re_match _ _); cbn [snd]; cbn beta iota.
  2:{ eexists. split; [reflexivity|].
      destruct (Hst0 (add_stdout [url s] st0)) as [Hl Ha]; [apply later_add_stdout|].
      split; [done|]. split; [done|]. split; [discriminate|].
      intros _ _. cbn. apply elem_of_app. right. by left. }
  set (st1 := add_log (DEBUG, Using SelfPost (url s)) (add_stdout [] st0)).
  assert (later st0 st1) as Hl1 by later_built.
  destruct (in_list _ _) eqn:Hdis.
  { eexists. split; [reflexivity|].
    destruct (Hst0 (add_log (DEBUG, ModuleDisabled (id s) SelfPost) st1)) as [Hl Ha].
    { apply (later_trans _ st1); [done|apply later_add_log]. }
    split; [done|]. split; [done|]. split; [|discriminate].
    intros cls e _ [= <-]. congruence. }
  destruct (find_resources env SelfPost s) as [content|e] eqn:Ef; cbn beta iota.
  - destruct (download_all_returns s SelfPost
                (format_resource_paths env content (download_directory self)) st1)
      as (flow & st2 & E2); [done| |exact Hsound|].
    { intros d r e. by apply (fetch_errors _ _ handled SelfPost s content). }
    rewrite E2. pose proof (download_all_later _ _ _ _ _ _ E2) as Hl2.
    destruct flow; (eexists; split; [reflexivity|]).
    + destruct (Hst0 (add_log (INFO, Downloaded (id s) (subreddit_display_name s)) st2))
        as [Hl Ha].
      { apply (later_trans _ st1); [done|].
        apply (later_trans _ st2); [done|apply later_add_log]. }
      split; [done|]. split; [done|]. split; [|discriminate].
      intros cls e _ [= <-]. congruence.
    + destruct (Hst0 st2) as [Hl Ha]; [by apply (later_trans _ st1)|].
      split; [done|]. split; [done|]. split; [|discriminate].
      intros cls e _ [= <-]. congruence.
  - rewrite (extraction_errors _ _ handled _ _ _ Ef). cbn beta iota.
    eexists. split; [reflexivity|].
    destruct (Hst0 (add_log (ERROR, SiteFailed SelfPost (id s) e) st1)) as [Hl Ha].
    { apply (later_trans _ st1); [done|apply later_add_log]. }
    split; [done|]. split; [done|]. split; [|discriminate].
    intros cls e' _ [= <-] _ He. rewrite Ef in He. injection He as <-.
    cbn. apply elem_of_app. right. by left.
Qed.

Lemma download_generator_accounts (generator : list Submission) (st : State) :
  (forall s, s ∈ generator -> url_accepted env s /\ time_converts env s) ->
  index_sound env st ->
  exists st',
    download_generator env self generator st = (Ok tt, st')
    /\ later st st' /\ index_sound env st'
    /\ forall s, s ∈ generator -> accounted env self s st'.
Proof.
  revert st. induction generator as [|s generator IH]; intros st Hs Hsound.
  - eexists. split; [reflexivity|]. split; [apply later_refl|]. split; [done|].
    intros s Hin. by apply elem_of_nil in Hin.
  - destruct (_download_submission_accounts s st) as (st1 & E1 & Hl1 & Ha1);
      [by apply Hs; left|by apply Hs; left|done|].
    destruct (IH st1) as (st2 & E2 & Hl2 & Hsound2 & Ha2).
    { intros s' Hin. apply Hs. by right. }
    { by apply (_download_submission_grows _ _ _ _ E1). }
    exists st2. split.
    { cbn [download_generator]. unfold mbind, M_bind, bind. by rewrite E1. }
    split; [by apply (later_trans _ st1)|]. split; [done|].
    intros s' [->|Hin]%elem_of_cons; [by apply (accounted_later s st1)|by apply Ha2].
Qed.

Lemma download_accounts (reddit_lists : list (list Submission)) (st : State) :
  (forall generator s, generator ∈ reddit_lists -> s ∈ generator ->
                       url_accepted env s /\ time_converts env s) ->
  index_sound env st ->
  exists st',
    download env self reddit_lists st = (Ok tt, st')
    /\ later st st'
    /\ forall generator s, generator ∈ reddit_lists -> s ∈ generator ->
                           accounted env self s st'.
Proof.
  revert st.
  induction reddit_lists as [|generator reddit_lists IH]; intros st Hs Hsound.
  - eexists. split; [reflexivity|]. split; [apply later_refl|].
    intros g s Hin. by apply elem_of_nil in Hin.
  - destruct (download_generator_accounts generator st) as (st1 & E1 & Hl1 & Hsound1 & Ha1);
      [by intros s; apply Hs; left|done|].
    destruct (IH st1) as (st2 & E2 & Hl2 & Ha2); [|done|].
    { intros g s Hg. apply Hs. by right. }
    exists st2. split.
    { cbn [download]. unfold mbind, M_bind, bind. by rewrite E1. }
    split; [by apply (later_trans _ st1)|].
    intros g s [->|Hg]%elem_of_cons Hin;
      [by apply (accounted_later s st1), Ha1|by apply (Ha2 g)].
Qed.

(** A fetch that fails with an error of the bulk downloader ends the
    loop with its error record. *)
Lemma download_one_fetch_error (s : Submission) (cls : DownloaderClass)
    (d : Path) (r : Resource) (e : Exn) (st : State) :
  path_exists st d = false ->
  check_resource env r = true ->
  res_fetch r = FetchFails e ->
  isinstance e BulkDownloaderException = true ->
  download_one env self s cls d r st
  = (Ok Return, add_log (ERROR, DownloadFailed (res_url r) (id s) cls e) st).
Proof. intros Hd Hc Hf He. run. rw Hd. rw Hc. rw Hf. by rw He. Qed.

(** A write that fails ends the loop with the traceback and its error
    record. *)
Lemma download_one_write_error (s : Submission) (cls : DownloaderClass)
    (d : Path) (r : Resource) (content : bytes) (e : Exn) (st : State) :
  path_exists st d = false ->
  check_resource env r = true ->
  res_fetch r = Fetched content ->
  master_hash_list st !! md5 (hashlib env) content = None
  \/ (no_dupes (args self) = false /\ make_hard_links (args self) = false) ->
  fst (write_file env d content
         (set_dirs (fun ds => ds ∪ list_to_set (ancestors (parent d))) st)) = Raise e ->
  exists st',
    download_one env self s cls d r st = (Ok Return, st')
    /\ log st' = (log st ++ [(ERROR, Traceback e); (ERROR, WriteFailed (id s) d e)])%list
    /\ master_hash_list st' = master_hash_list st.
Proof.
  intros Hd Hc Hf Hdup Hw.
  set (st1 := set_dirs (fun ds => ds ∪ list_to_set (ancestors (parent d))) st) in *.
  destruct (write_file env d content st1) as [w stw] eqn:Ew. cbn in Hw. subst w.
  destruct (write_file_frame _ _ _ _ _ _ Ew) as (Hm & _ & Hl & _).
  assert (e = OSError) as ->.
  { revert Ew. unfold write_file, syscall.
    unfold mbind, mret, M_bind, M_ret, bind, ret, modify.
    destruct (fault env st1 (SysOpen d)) eqn:Eo.
    - intros [= <- _]. by apply (open_errors _ _ handled) in Eo.
    - cbn beta iota. destruct (fault env _ (SysWrite d)) eqn:Ewr; [|discriminate].
      intros [= <- _]. by apply (write_errors _ _ handled) in Ewr. }
  exists (add_log (ERROR, WriteFailed (id s) d OSError)
            (add_log (ERROR, Traceback OSError) stw)).
  split; [|split].
  - unfold download_one, exists_, download_resource, mkdir_parents, syscall,
      logger_exception, logger.
    unfold mbind, mret, M_bind, M_ret, try_except, bind, ret, raise, get, modify.
    rw Hd. rw Hc. rw Hf. rewrite (no_mkdir_error _ _ handled). cbn beta iota.
    fold st1.
    assert (master_hash_list st1 = master_hash_list st) as -> by reflexivity.
    destruct Hdup as [Hn|[Hn Hl']].
    + rw Hn. by rw Ew.
    + rw Hn. rw Hl'.
      destruct (master_hash_list st !! md5 (hashlib env) content); by rw Ew.
  - cbn. rewrite Hl. by rewrite <- app_assoc.
  - cbn. exact Hm.
Qed.

(** C1, as the code has it. When the hash index is sound, making the
    directories, linking, converting the creation time and setting
    the file time do not fail and [urlsplit] accepts the URLs, the
    errors that the handlers name do not leave the processing of a
    submission. The run returns and every submission is processed:
    each leaves the record of the check that rejects it or the record
    that its download is attempted; a URL that is not dispatched is
    printed (its handler logs nothing); an extraction that fails
    leaves its error record. In the loop over the resources, a fetch
    that fails with an error of the bulk downloader leaves its error
    record, a write that fails leaves the traceback and its error
    record, and both end the loop without raising. *)
Theorem handled_errors_do_not_abort (reddit_lists : list (list Submission))
    (st : State) :
  (forall generator s, generator ∈ reddit_lists -> s ∈ generator ->
                       url_accepted env s /\ time_converts env s) ->
  index_sound env st ->
  (exists st',
     download env self reddit_lists st = (Ok tt, st')
     /\ later st st'
     /\ forall generator s, generator ∈ reddit_lists -> s ∈ generator ->
                            accounted env self s st')
  /\ (forall s cls d r e rest st0,
        path_exists st0 d = false ->
        check_resource env r = true ->
        res_fetch r = FetchFails e ->
        isinstance e BulkDownloaderException = true ->
        download_all env self s cls ((d, r) :: rest) st0
        = (Ok Return, add_log (ERROR, DownloadFailed (res_url r) (id s) cls e) st0))
  /\ (forall s cls d r content e rest st0,
        path_exists st0 d = false ->
        check_resource env r = true ->
        res_fetch r = Fetched content ->
        master_hash_list st0 !! md5 (hashlib env) content = None
        \/ (no_dupes (args self) = false /\ make_hard_links (args self) = false) ->
        fst (write_file env d content
               (set_dirs (fun ds => ds ∪ list_to_set (ancestors (parent d))) st0))
        = Raise e ->
        exists st1,
          download_all env self s cls ((d, r) :: rest) st0 = (Ok Return, st1)
          /\ log st1
             = (log st0 ++ [(ERROR, Traceback e); (ERROR, WriteFailed (id s) d e)])%list
          /\ master_hash_list st1 = master_hash_list st0).
Proof.
  intros Hs Hsound. split; [by apply download_accounts|]. split.
  - intros s cls d r e rest st0 Hd Hc Hf He.
    by apply download_all_return, download_one_fetch_error.
  - intros s cls d r content e rest st0 Hd Hc Hf Hdup Hw.
    destruct (download_one_write_error s cls d r content e st0 Hd Hc Hf Hdup Hw)
      as (st1 & E & Hl & Hm).
    exists st1. split; [by apply download_all_return|done].
Qed.

End Handled.

End WithDownloader.

(** *** Examples *)

Import Sample.

Lemma sample_handled (no_dupes make_hard_links : bool) :
  only_handled_errors env (downloader no_dupes make_hard_links).
Proof.
  split; try discriminate; try done.
  intros cls s content destination res e [= <-] Hin Hf.
  apply list_elem_of_In, in_map_iff in Hin as (res' & [= _ <-] & Hin).
  unfold resources_of in Hin.
  repeat destruct (String.eqb _ _); cbn in Hin;
    repeat destruct Hin as [<-|Hin]; try discriminate; try done;
    by injection Hf as <-.
Qed.

Lemma sample_index_sound : index_sound env empty.
Proof. intros hash path H. cbn in H. by rewrite lookup_empty in H. Qed.

Lemma handled_errors_do_not_abort_witness :
  exists st',
    download env (downloader false false)
      [[submission "abc123" 50; submission "gone" 50]] empty = (Ok tt, st')
    /\ later empty st'
    /\ forall generator s,
         generator ∈ [[submission "abc123" 50; submission "gone" 50]] ->
         s ∈ generator -> accounted env (downloader false false) s st'.
Proof.
  apply (handled_errors_do_not_abort env (downloader false false) (sample_handled _ _)
           [[submission "abc123" 50; submission "gone" 50]] empty).
  - intros generator s Hg Hs. apply list_elem_of_singleton in Hg as ->.
    apply elem_of_cons in Hs as [->|Hs];
      [|apply list_elem_of_singleton in Hs as ->];
      (split; eexists; vm_compute; reflexivity).
  - apply sample_index_sound.
Defined.

(** Setting the time of the file just written fails: the error leaves
    [download], the hash of the file is not indexed and the second
    submission is not attempted. *)
Lemma timestamp_failure_aborts_run :
  let run := download env_utime_fails (downloader false false)
               [[submission "abc123" 50; submission "zzz" 50]] empty in
  fst run = Raise OSError
  /\ log (snd run)
     = [(DEBUG, Attempting "abc123");
        (DEBUG, Using SelfPost "http://reddit.com/r/test/abc123");
        (DEBUG, WrittenTo ["out"; "abc123"])]
  /\ files (snd run) !! ["out"; "abc123"] = Some picture
  /\ master_hash_list (snd run) !! md5 keep_all picture = None.
Proof. by vm_compute. Qed.

Lemma hash_index_grows_witness :
  index_sound env
    (snd (download env (downloader true false)
            [[submission "abc123" 50; submission "def456" 50]] empty))
  /\ extends env (downloader true false) empty
       (snd (download env (downloader true false)
               [[submission "abc123" 50; submission "def456" 50]] empty)).
Proof.
  apply hash_index_grows. apply sample_index_sound.
Defined.

(** With neither policy for duplicates active, a second submission
    with the same bytes replaces the path of their hash in the index,
    while the first file is still there. *)
Lemma hash_index_first_path_fails :
  let self := downloader false false in
  let st1 := snd (download env self [[submission "abc123" 50]] empty) in
  let st2 := snd (download env self [[submission "def456" 50]] st1) in
  master_hash_list st1 !! md5 keep_all picture = Some ["out"; "abc123"]
  /\ master_hash_list st2 !! md5 keep_all picture = Some ["out"; "def456"]
  /\ files st2 !! ["out"; "abc123"] = Some picture
  /\ files st2 !! ["out"; "def456"] = Some picture.
Proof. by vm_compute. Qed.

End Index.

(** ** The set-up of logging *)

Module LoggingFacts.

Import Downloader Logging.

Section run_once.

Context {St A B : Type}.
Variable f : A -> St -> result B * St.

(** Once the attribute is set, no call runs [f] or changes anything. *)
Lemma calls_has_run (argss : list A) (s : St) :
  calls f argss (true, s) = (List.map (fun _ => Ok None) argss, (true, s)).
Proof.
  induction argss as [|args argss IH]; [reflexivity|].
  cbn [calls wrapper negb List.map]. by rewrite IH.
Qed.

Lemma filter_ran_none (argss : list A) :
  List.filter ran (List.map (fun _ => @Ok (option B) None) argss) = [].
Proof. induction argss as [|args argss IH]; [reflexivity|]. exact IH. Qed.

(** X1. However the function wrapped by [run_once] is called, it runs
    to its end at most once. After the call in which it does, every
    call returns [None] and changes nothing. A call in which it raises
    does not count: the next call runs it again. *)
Theorem run_once_runs_once (argss : list A) (s : St) :
  length (List.filter ran (fst (calls f argss (run_once s)))) <= 1
  /\ (forall args r s',
        f args s = (Ok r, s') ->
        calls f (args :: argss) (run_once s)
        = (Ok (Some r) :: List.map (fun _ => Ok None) argss, (true, s')))
  /\ (forall args e s',
        f args s = (Raise e, s') ->
        calls f (args :: argss) (run_once s)
        = (Raise e :: fst (calls f argss (run_once s')),
           snd (calls f argss (run_once s')))).
Proof.
  split; [|split].
  - revert s. induction argss as [|args argss IH]; intros s; [simpl; lia|].
    unfold run_once in *. cbn [calls wrapper negb].
    destruct (f args s) as [[r|e] s'] eqn:E.
    + rewrite calls_has_run. cbn [fst List.filter ran].
      rewrite filter_ran_none. simpl. lia.
    + specialize (IH s'). destruct (calls f argss (false, s')) as [rs st'].
      cbn [fst List.filter ran] in *. exact IH.
  - intros args r s' E. unfold run_once. cbn [calls wrapper negb].
    by rewrite E, calls_has_run.
  - intros args e s' E. unfold run_once. cbn [calls wrapper negb].
    rewrite E. by destruct (calls f argss (false, s')).
Qed.

End run_once.

(** X2. Whatever the number of [-v] options, the index into
    [log_levels] is in range: none gives [WARNING], one gives [INFO],
    two or more give [DEBUG]. *)
Theorem basic_config_level_in_range (verbose : nat) :
  basic_config_level verbose
  = Some (match verbose with
          | 0 => WARNING
          | 1 => INFO
          | _ => DEBUG
          end).
Proof. by destruct verbose as [|[|[|verbose]]]. Qed.

(** *** Examples *)

Lemma run_once_runs_once_witness :
  let f := fun (args : bool) (n : nat) =>
             if args then (Ok n, S n) else (Raise ValueError, n) in
  calls f [false; true; true; false] (run_once 0)
  = ([Raise ValueError; Ok (Some 0); Ok None; Ok None], (true, 1)).
Proof.
  intros f.
  destruct (run_once_runs_once f [true; true; false] 0) as (_ & _ & Hraise).
  rewrite (Hraise false ValueError 0 eq_refl).
  destruct (run_once_runs_once f [true; false] 0) as (_ & Hrun & _).
  by rewrite (Hrun true 0 1 eq_refl).
Defined.

End LoggingFacts.

(** ** More on the scan of the existing files *)

Module ScanMore.

Import Downloader Run Edge Scan Index.

Section WithHashlib.

Variable h : Hashlib.
Hypothesis Hstream : streaming h.

(** X3. For a hash object that is fed as [hashlib] documents, reading
    a file in chunks of one mebibyte gives the digest of the whole
    content, whatever its length (that of the new hash object for an
    empty file), and the path is returned as it is given. *)
Theorem _calc_hash_whole (path : Path) (content : bytes) :
  _calc_hash h (path, content) = (path, md5 h content).
Proof.
  by rewrite _calc_hash_digest.
Qed.

End WithHashlib.

Section WithDownloader.

Variable env : Env.
Variable self : RedditDownloader.
Hypothesis Hstream : streaming (hashlib env).

(** X4. When no two of the enumerated files have the same path and
    the hash object is fed as [hashlib] documents, the hash index
    that [__init__] builds, scanned or empty, holds for each hash the
    path of a file with a content of that hash; and so does the index
    after any run that starts there, however the run ends. *)
Theorem init_index_sound (entries : list Entry) :
  NoDup (fst <$> walk_files (download_directory self) entries) ->
  index_sound env (__init__ env self entries)
  /\ forall reddit_lists,
       index_sound env (snd (download env self reddit_lists (__init__ env self entries))).
Proof.
  intros Hnd.
  assert (index_sound env (__init__ env self entries)) as Hinit.
  { intros hash path. unfold __init__. cbn [master_hash_list files].
    destruct (search_existing (args self)); [|by rewrite lookup_empty].
    unfold scan_existing_files. intros H.
    apply hash_dict_lookup in H as (earlier & later & E & _).
    assert ((path, hash) ∈ List.map (_calc_hash (hashlib env))
                             (walk_files (download_directory self) entries)) as Hin.
    { rewrite E. apply elem_of_app. right. by left. }
    apply list_elem_of_In, in_map_iff in Hin as ([p content] & Hc & Hin).
    rewrite _calc_hash_digest in Hc by done. injection Hc as -> <-.
    exists content. split; [|done].
    apply elem_of_list_to_map_1; [done|]. by apply list_elem_of_In. }
  split; [done|]. intros reddit_lists.
  destruct (download env self reddit_lists (__init__ env self entries))
    as [res st'] eqn:E.
  apply download_grows in E as [_ Hs]. by apply Hs.
Qed.

End WithDownloader.

(** *** Examples *)

Import Sample.

Lemma _calc_hash_whole_witness :
  _calc_hash keep_all (["out"; "abc123"], picture)
  = (["out"; "abc123"], md5 keep_all picture).
Proof. apply _calc_hash_whole, keep_all_streaming. Defined.

Lemma init_index_sound_witness :
  let self := mkRedditDownloader
                (mkConfiguration [] [] None None None None [] None false false true)
                [] ["out"] in
  let entries := [File "a" picture; Directory "sub" [File "b" picture; File "c" text]] in
  index_sound env (__init__ env self entries)
  /\ forall reddit_lists,
       index_sound env (snd (download env self reddit_lists (__init__ env self entries))).
Proof.
  apply init_index_sound; [apply keep_all_streaming|].
  apply (bool_decide_unpack _). reflexivity.
Defined.

End ScanMore.

(** ** More on the loop over the resources *)

Module CommitMore.

Import Downloader Run Edge Commit.

Section WithDownloader.

Variable env : Env.
Variable self : RedditDownloader.

(** X5. A resource that is fetched, whose destination is free, that
    no policy for duplicates stops, that meets no failure of the
    system and for whose submission the conversion of the creation
    time returns [creation_time] (it raises for a time out of the
    range of the platform), is committed: afterwards the destination
    holds the bytes fetched, the index has the destination for their
    hash, the time of the file is [creation_time], so the creation
    time of the submission where the conversion returns the time it
    is given, the directories above it are there, no other file and
    no other hash has changed, and the loop goes on. *)
Theorem commit_round_trip (s : Submission) (cls : DownloaderClass)
    (d : Path) (r : Resource) (content : bytes) (creation_time : Z) (st : State) :
  (forall st' c, fault env st' c = None) ->
  mktime env (created_utc s) = Ok creation_time ->
  path_exists st d = false ->
  check_resource env r = true ->
  res_fetch r = Fetched content ->
  master_hash_list st !! md5 (hashlib env) content = None
  \/ (no_dupes (args self) = false /\ make_hard_links (args self) = false) ->
  exists st',
    download_one env self s cls d r st = (Ok Continue, st')
    /\ files st' !! d = Some content
    /\ master_hash_list st' !! md5 (hashlib env) content = Some d
    /\ mtimes st' !! d = Some creation_time
    /\ (forall above, above ∈ ancestors (parent d) -> above ∈ dirs st')
    /\ (forall path, path <> d -> files st' !! path = files st !! path)
    /\ (forall hash, hash <> md5 (hashlib env) content ->
                     master_hash_list st' !! hash = master_hash_list st !! hash).
Proof.
  intros Hnf Hmk Hd Hc Hf Hdup. eexists. split.
  - run. rw Hd. rw Hc. rw Hf. rewrite !Hnf. cbn beta iota.
    cbn [master_hash_list set_dirs].
    destruct Hdup as [Hn|[Hn Hl]].
    + rw Hn. rewrite !Hnf. cbn beta iota. rw Hmk. rewrite !Hnf. reflexivity.
    + rw Hn. rw Hl.
      destruct (master_hash_list st !! md5 (hashlib env) content);
        cbn beta iota; rewrite !Hnf; cbn beta iota; rw Hmk; rewrite !Hnf;
        reflexivity.
  - cbn [files dirs mtimes master_hash_list log add_log set_master_hash_list
         set_mtimes set_files set_dirs].
    rewrite !lookup_insert_eq. repeat split.
    + intros above Ha. apply elem_of_union. right. by apply elem_of_list_to_set.
    + intros path Hp. by rewrite !lookup_insert_ne.
    + intros hash Hh. by rewrite lookup_insert_ne.
Qed.

(** X6. With the policy of hard links and without the policy against
    duplicates, a resource whose hash is in the index is not written:
    its destination becomes a link to the indexed file, so it holds
    what that file holds; the index stays as it is and the method
    returns, whatever resources follow. *)
Theorem hard_link_made (s : Submission) (cls : DownloaderClass)
    (d indexed : Path) (r : Resource) (content linked : bytes) (st : State) :
  no_dupes (args self) = false ->
  make_hard_links (args self) = true ->
  path_exists st d = false ->
  check_resource env r = true ->
  res_fetch r = Fetched content ->
  fault env st (SysMkdir (parent d)) = None ->
  (forall st', fault env st' (SysLink indexed d) = None) ->
  master_hash_list st !! md5 (hashlib env) content = Some indexed ->
  files st !! indexed = Some linked ->
  exists st',
    (forall rest,
       download_all env self s cls ((d, r) :: rest) st = (Ok Return, st'))
    /\ files st' = <[d := linked]> (files st)
    /\ master_hash_list st' = master_hash_list st
    /\ log st' = (log st ++ [(INFO, HardLinkMade d indexed (id s))])%list.
Proof.
  intros Hnd Hl Hd Hc Hf Hmk Hlink Hi Hfile. eexists. split; [|split; [|split]].
  - intros rest. apply download_all_return.
    run. rw Hd. rw Hc. rw Hf. rw Hmk. cbn [master_hash_list set_dirs].
    rw Hi. rw Hnd. rw Hl. rewrite Hlink. cbn beta iota.
    cbn [files set_dirs]. rw Hfile. reflexivity.
  - reflexivity.
  - reflexivity.
  - reflexivity.
Qed.

(** X7. An error of [mkdir] for the directory of the destination
    is not handled: it leaves the loop as it is raised, nothing is
    logged or written, and the resources that follow are not
    processed. *)
Theorem mkdir_failure_propagates (s : Submission) (cls : DownloaderClass)
    (d : Path) (r : Resource) (content : bytes) (e : Exn)
    (rest : list (Path * Resource)) (st : State) :
  path_exists st d = false ->
  check_resource env r = true ->
  res_fetch r = Fetched content ->
  fault env st (SysMkdir (parent d)) = Some e ->
  download_all env self s cls ((d, r) :: rest) st = (Raise e, st).
Proof.
  intros Hd Hc Hf Hmk. apply download_all_raise.
  run. rw Hd. rw Hc. rw Hf. by rw Hmk.
Qed.

(** X8. An error of [os.utime] after the file is written (so after
    the creation time is converted) is not handled either: it leaves
    the loop as it is raised; the file is there with the bytes
    fetched, but its hash is not put in the index. *)
Theorem utime_failure_propagates (s : Submission) (cls : DownloaderClass)
    (d : Path) (r : Resource) (content : bytes) (e : Exn) (creation_time : Z)
    (rest : list (Path * Resource)) (st : State) :
  mktime env (created_utc s) = Ok creation_time ->
  path_exists st d = false ->
  check_resource env r = true ->
  res_fetch r = Fetched content ->
  fault env st (SysMkdir (parent d)) = None ->
  (forall st', fault env st' (SysOpen d) = None) ->
  (forall st', fault env st' (SysWrite d) = None) ->
  (forall st', fault env st' (SysUtime d) = Some e) ->
  master_hash_list st !! md5 (hashlib env) content = None
  \/ (no_dupes (args self) = false /\ make_hard_links (args self) = false) ->
  exists st',
    download_all env self s cls ((d, r) :: rest) st = (Raise e, st')
    /\ files st' !! d = Some content
    /\ master_hash_list st' = master_hash_list st
    /\ log st' = (log st ++ [(DEBUG, WrittenTo d)])%list.
Proof.
  intros Htime Hd Hc Hf Hmk Hopen Hwrite Hutime Hdup.
  eexists. split; [|split; [|split]].
  - apply download_all_raise.
    run. rw Hd. rw Hc. rw Hf. rw Hmk. cbn [master_hash_list set_dirs].
    destruct Hdup as [Hn|[Hn Hl]].
    + rw Hn. rewrite Hopen, Hwrite. cbn beta iota. rw Htime. rewrite Hutime.
      reflexivity.
    + rw Hn. rw Hl.
      destruct (master_hash_list st !! md5 (hashlib env) content);
        cbn beta iota; rewrite Hopen, Hwrite; cbn beta iota; rw Htime;
        rewrite Hutime; reflexivity.
  - cbn [files add_log set_files set_dirs]. by rewrite lookup_insert_eq.
  - reflexivity.
  - reflexivity.
Qed.

Lemma passed_over_path_exists (s : Submission) (items : list (Path * Resource))
    (st : State) (path : Path) :
  path_exists (passed_over s st items) path = path_exists st path.
Proof.
  revert st. induction items as [|item items IH]; intros st; [reflexivity|].
  unfold passed_over in *. cbn [foldl]. rewrite IH.
  by destruct (path_exists st (fst item)).
Qed.

Lemma passed_over_same_disk (s : Submission) (items : list (Path * Resource))
    (st : State) :
  same_disk st (passed_over s st items)
  /\ stdout (passed_over s st items) = stdout st.
Proof.
  revert st. induction items as [|item items IH]; intros st; [by repeat split|].
  unfold passed_over in *. cbn [foldl].
  destruct (IH (if path_exists st (fst item)
                then add_log (DEBUG, AlreadyExists (fst item) (id s)) st
                else add_log (DEBUG, ResourceFiltered (id s) (url s)) st))
    as ((Hf & Hd & Ht & Hm) & Ho).
  unfold same_disk. rewrite Hf, Hd, Ht, Hm, Ho.
  by destruct (path_exists st (fst item)).
Qed.

(** X9. Destinations that exist and resources that the filter removes
    are passed over, each with one debug record: nothing is fetched
    (so no fetch can fail), the files, directories, times and hash
    index stay as they are, nothing is printed, and the loop goes on
    to its end. *)
Theorem passed_over_continue (s : Submission) (cls : DownloaderClass)
    (items : list (Path * Resource)) (st : State) :
  (forall d r, (d, r) ∈ items ->
               path_exists st d = true \/ check_resource env r = false) ->
  download_all env self s cls items st = (Ok Continue, passed_over s st items)
  /\ same_disk st (passed_over s st items)
  /\ stdout (passed_over s st items) = stdout st
  /\ length (log (passed_over s st items)) = length (log st) + length items.
Proof.
  intros Hitems. split; [|split; [apply passed_over_same_disk|split;
                                   [apply passed_over_same_disk|]]].
  - revert st Hitems. induction items as [|[d r] items IH]; intros st Hitems;
      [reflexivity|].
    unfold passed_over. cbn [foldl fst]. fold (passed_over s).
    assert (download_one env self s cls d r st
            = (Ok Continue,
               if path_exists st d
               then add_log (DEBUG, AlreadyExists d (id s)) st
               else add_log (DEBUG, ResourceFiltered (id s) (url s)) st)) as E.
    { run. destruct (path_exists st d) eqn:Hd; [reflexivity|].
      destruct (Hitems d r) as [H|H]; [by left|congruence|]. by rw H. }
    rewrite (download_all_continue _ _ _ _ _ _ _ _ _ E). apply IH.
    intros d' r' Hin. destruct (Hitems d' r') as [H|H]; [by right| |by right].
    left. by destruct (path_exists st d).
  - clear Hitems. revert st. induction items as [|item items IH]; intros st.
    + simpl. lia.
    + unfold passed_over in *. cbn [foldl]. rewrite IH.
      destruct (path_exists st (fst item)); cbn [log add_log length];
        rewrite length_app; simpl; lia.
Qed.

End WithDownloader.

(** *** Examples *)

Import Sample.

(** The state after the first resource of the sample is committed. *)
Lemma commit_round_trip_witness :
  exists st',
    download_one env (downloader false false) (submission "abc123" 50) SelfPost
      ["out"; "abc123"] first_post empty = (Ok Continue, st')
    /\ files st' !! ["out"; "abc123"] = Some picture
    /\ master_hash_list st' !! md5 (hashlib env) picture = Some ["out"; "abc123"]
    /\ mtimes st' !! ["out"; "abc123"] = Some 1600000000%Z
    /\ (forall above, above ∈ ancestors (parent ["out"; "abc123"]) -> above ∈ dirs st')
    /\ (forall path, path <> ["out"; "abc123"] -> files st' !! path = files empty !! path)
    /\ (forall hash, hash <> md5 (hashlib env) picture ->
                     master_hash_list st' !! hash = master_hash_list empty !! hash).
Proof.
  apply (commit_round_trip env (downloader false false) (submission "abc123" 50)
           SelfPost ["out"; "abc123"] first_post picture 1600000000%Z empty);
    try reflexivity.
  by left.
Defined.

Lemma hard_link_made_witness :
  let st := snd (download env (downloader false true) [[submission "abc123" 50]] empty) in
  exists st',
    (forall rest,
       download_all env (downloader false true) (submission "def456" 50) SelfPost
         ((["out"; "def456"], same_again) :: rest) st = (Ok Return, st'))
    /\ files st' = <[["out"; "def456"] := picture]> (files st)
    /\ master_hash_list st' = master_hash_list st
    /\ log st'
       = (log st ++ [(INFO, HardLinkMade ["out"; "def456"] ["out"; "abc123"] "def456")])%list.
Proof.
  apply (hard_link_made env (downloader false true) (submission "def456" 50) SelfPost
           ["out"; "def456"] ["out"; "abc123"] same_again picture picture);
    try reflexivity; by vm_compute.
Defined.

Lemma mkdir_failure_propagates_witness :
  let env := env_with (fun _ c => match c with
                                  | SysMkdir _ => Some OSError
                                  | _ => None
                                  end) in
  download_all env (downloader false false) (submission "abc123" 50) SelfPost
    [(["out"; "abc123"], first_post); (["out"; "other"], other)] empty
  = (Raise OSError, empty).
Proof.
  apply (mkdir_failure_propagates _ (downloader false false) (submission "abc123" 50)
           SelfPost ["out"; "abc123"] first_post picture); reflexivity.
Defined.

Lemma utime_failure_propagates_witness :
  exists st',
    download_all env_utime_fails (downloader false false) (submission "abc123" 50)
      SelfPost [(["out"; "abc123"], first_post); (["out"; "other"], other)] empty
    = (Raise OSError, st')
    /\ files st' !! ["out"; "abc123"] = Some picture
    /\ master_hash_list st' = master_hash_list empty
    /\ log st' = (log empty ++ [(DEBUG, WrittenTo ["out"; "abc123"])])%list.
Proof.
  apply (utime_failure_propagates env_utime_fails (downloader false false)
           (submission "abc123" 50) SelfPost ["out"; "abc123"] first_post picture
           OSError 1600000000%Z);
    try reflexivity.
  by left.
Defined.

Lemma passed_over_continue_witness :
  let self := downloader false false in
  let s := submission "abc123" 50 in
  let st := snd (download env self [[s]] empty) in
  let items := [(["out"; "abc123"], unreachable); (["out"; "other"], other)] in
  download_all env self s SelfPost items st = (Ok Continue, passed_over s st items)
  /\ same_disk st (passed_over s st items)
  /\ stdout (passed_over s st items) = stdout st
  /\ length (log (passed_over s st items)) = length (log st) + length items.
Proof.
  apply passed_over_continue. intros d r Hin. left.
  apply elem_of_cons in Hin as [[= -> ->]|Hin];
    [|apply list_elem_of_singleton in Hin as [= -> ->]]; by vm_compute.
Defined.

End CommitMore.

(** ** More on dispatch *)

Module DispatchMore.

Import Re StrFacts SplitFacts ReFacts UrlsplitFacts PatternFacts SanitiseFacts.
Import UrlShape Urllib DownloadFactory.

Lemma existsb_lstrip (p q : ascii -> bool) (s : string) :
  Str.existsb p s = false -> Str.existsb p (Str.lstrip q s) = false.
Proof.
  induction s as [|c s IH]; [done|]. cbn [Str.lstrip]. intros H.
  destruct (q c); [|done]. apply IH. simpl in H. by apply orb_false_iff in H as [_ H].
Qed.

Lemma existsb_filter (p q : ascii -> bool) (s : string) :
  Str.existsb p s = false -> Str.existsb p (Str.filter q s) = false.
Proof.
  induction s as [|c s IH]; [done|]. cbn [Str.filter Str.existsb]. intros H.
  apply orb_false_iff in H as [Hc Hs].
  destruct (q c); [|by apply IH]. cbn [Str.existsb]. by rewrite Hc, IH.
Qed.

Lemma existsb_drop (p : ascii -> bool) (n : nat) (s : string) :
  Str.existsb p s = false -> Str.existsb p (Str.drop n s) = false.
Proof.
  revert s. induction n as [|n IH]; intros s; [done|]. destruct s as [|c s]; [done|].
  cbn [Str.drop Str.existsb]. intros H. apply orb_false_iff in H as [_ H]. by apply IH.
Qed.

Lemma existsb_split_scheme (p : ascii -> bool) (s : string) :
  Str.existsb p s = false -> Str.existsb p (snd (split_scheme s)) = false.
Proof.
  intros H. unfold split_scheme.
  destruct (Str.partition ":" s) as [[[|c0 before] after]|] eqn:E; [done| |done].
  destruct (_ && _); [|done]. cbn [snd].
  apply partition_inv in E as [-> _]. rewrite existsb_app in H.
  apply orb_false_iff in H as [_ H]. simpl in H. by apply orb_false_iff in H as [_ H].
Qed.

Lemma existsb_split_netloc (p : ascii -> bool) (s : string) :
  Str.existsb p s = false -> Str.existsb p (fst (split_netloc s)) = false.
Proof.
  intros H. unfold split_netloc. destruct (Str.startswith "//" s); [|done].
  apply (existsb_drop p 2) in H. rewrite <- (break_app netloc_delim (Str.drop 2 s)) in H.
  rewrite existsb_app in H. by apply orb_false_iff in H as [H _].
Qed.

Section WithCheck.

Variable bracketed_netloc_ok : string -> bool.

Abbreviation sanitise_url := (sanitise_url bracketed_netloc_ok).
Abbreviation pull_lever := (pull_lever bracketed_netloc_ok).

(** The only exception of [sanitise_url] is the [ValueError] of
    [urlsplit]. *)
Lemma sanitise_url_raises (url : string) (e : Exn) :
  sanitise_url url = Raise e -> e = ValueError.
Proof.
  unfold DownloadFactory.sanitise_url. rewrite urlsplit_parts. cbv zeta.
  destruct (netloc_invalid _ _); [|discriminate]. by intros [= <-].
Qed.

(** X10. A URL without square brackets and of characters below
    U+0100, as the strings here are, is always sanitised: [urlsplit]
    does not raise on it (its test of the compatibility forms,
    [_checknetloc], raises only for characters from U+0100 on, as
    U+2100, which are outside of this statement); and the sanitised
    text has no white space, no question mark and no number sign. *)
Theorem bracket_free_url_sanitised (url : string) :
  Str.mem "[" url = false ->
  Str.mem "]" url = false ->
  exists s,
    sanitise_url url = Ok s
    /\ Str.existsb Chr.is_space s = false
    /\ Str.mem "?" s = false /\ Str.mem "#" s = false.
Proof.
  intros Ho Hc.
  assert (forall c, Str.mem c url = false ->
            Str.mem c (fst (split_netloc (snd (split_scheme
              (Str.filter (fun c => negb (unsafe_url_byte c))
                 (Str.lstrip c0_control_or_space url)))))) = false) as Hnl.
  { intros c H. unfold Str.mem in *.
    by apply existsb_split_netloc, existsb_split_scheme, existsb_filter,
      existsb_lstrip. }
  destruct (sanitise_url url) as [s|e] eqn:E.
  - exists s. split; [done|].
    destruct (sanitise_url_clean _ _ _ E) as (Hs & _ & Hq & Hf). done.
  - exfalso. revert E. unfold DownloadFactory.sanitise_url.
    rewrite urlsplit_parts. cbv zeta. unfold netloc_invalid.
    by rewrite (Hnl "["%char Ho), (Hnl "]"%char Hc).
Qed.

(** X11. Dispatch has three outcomes and no other: the self-post
    class, with nothing printed; [NotADownloadableLinkError], with the
    URL printed; the [ValueError] of [urlsplit], with nothing printed.
    No other downloader class is ever selected. *)
Theorem pull_lever_outcomes (url : string) :
  pull_lever url = ([], Ok SelfPost)
  \/ pull_lever url = ([url], Raise NotADownloadableLinkError)
  \/ pull_lever url = ([], Raise ValueError).
Proof.
  unfold DownloadFactory.pull_lever.
  destruct (sanitise_url url) as [s|e] eqn:E.
  - destruct (_ && _); [by right; left|].
    destruct (re_match self_post_pattern s); [by left|by right; left].
  - right; right. by rewrite (sanitise_url_raises _ _ E).
Qed.

End WithCheck.

(** *** Examples *)

Lemma bracket_free_url_sanitised_witness :
  exists s,
    DownloadFactory.sanitise_url accept_bracketed " https://www.example.com/a b?q=1#top"
    = Ok s
    /\ Str.existsb Chr.is_space s = false
    /\ Str.mem "?" s = false /\ Str.mem "#" s = false.
Proof. apply bracket_free_url_sanitised; reflexivity. Defined.

End DispatchMore.

(** ** More on the run *)

Module RunMore.

Import Downloader Run Edge Commit Index SanitiseFacts DispatchMore.

Lemma same_disk_refl (st : State) : same_disk st st.
Proof. by repeat split. Qed.

Lemma same_disk_trans (st1 st2 st3 : State) :
  same_disk st1 st2 -> same_disk st2 st3 -> same_disk st1 st3.
Proof.
  intros (F1 & D1 & T1 & M1) (F2 & D2 & T2 & M2). unfold same_disk.
  by rewrite F2, D2, T2, M2.
Qed.

Lemma add_stdout_nil (st : State) : add_stdout [] st = st.
Proof. destruct st. unfold add_stdout. cbn. by rewrite app_nil_r. Qed.

Section WithDownloader.

Variable env : Env.
Variable self : RedditDownloader.

(** X12. A submission that passes the filter and whose URL is not
    dispatched (the first test takes it for a file, or it is not
    under [reddit.com/r/]) is dropped without a record of the
    failure: the log has the record that the download is attempted
    and nothing after it, the URL is printed, and the method
    returns. *)
Theorem undispatched_is_silent (s : Submission) (sanitised : string) (st : State) :
  rejection env self s = None ->
  DownloadFactory.sanitise_url (bracketed_netloc_ok env) (url s) = Ok sanitised ->
  UrlShape.direct_like sanitised = true
  \/ Str.startswith "reddit.com/r/" sanitised = false ->
  _download_submission env self s st
  = (Ok tt, add_stdout [url s] (add_log (DEBUG, Attempting (id s)) st)).
Proof.
  intros Hr Hs Hshape. unfold _download_submission. rewrite Hr.
  unfold Downloader.pull_lever. rewrite (pull_lever_reads _ _ _ Hs).
  unfold call, logger.
  unfold mbind, mret, M_bind, M_ret, try_except, bind, ret, raise, get, modify.
  destruct Hshape as [H|H].
  - by rewrite H.
  - rewrite H. by destruct (UrlShape.direct_like sanitised).
Qed.

(** X13. A submission that passes the filter and whose URL [urlsplit]
    refuses makes [_download_submission] raise [ValueError], after the
    record that the download is attempted: no handler is in the
    way. *)
Theorem invalid_url_raises (s : Submission) (e : Exn) (st : State) :
  rejection env self s = None ->
  DownloadFactory.sanitise_url (bracketed_netloc_ok env) (url s) = Raise e ->
  _download_submission env self s st
  = (Raise ValueError, add_log (DEBUG, Attempting (id s)) st).
Proof.
  intros Hr Hs. unfold _download_submission. rewrite Hr.
  unfold Downloader.pull_lever, DownloadFactory.pull_lever. rewrite Hs.
  rewrite (sanitise_url_raises _ _ _ Hs).
  unfold call, logger.
  unfold mbind, mret, M_bind, M_ret, try_except, bind, ret, raise, get, modify.
  cbn. by rewrite add_stdout_nil.
Qed.

Lemma download_generator_app (before after : list Submission) (st : State) :
  download_generator env self (before ++ after)%list st
  = match download_generator env self before st with
    | (Ok _, st1) => download_generator env self after st1
    | (Raise e, st1) => (Raise e, st1)
    end.
Proof.
  revert st. induction before as [|s before IH]; intros st; [reflexivity|].
  cbn [download_generator app]. unfold mbind, M_bind, bind.
  destruct (_download_submission env self s st) as [[[]|e] st1]; [apply IH|done].
Qed.

(** X14. The two loops of [download] are one loop over the
    submissions of all the generators in turn: how the submissions
    are grouped into generators makes no difference. *)
Theorem download_flattens (reddit_lists : list (list Submission)) (st : State) :
  download env self reddit_lists st
  = download_generator env self (concat reddit_lists) st.
Proof.
  revert st. induction reddit_lists as [|generator reddit_lists IH]; intros st;
    [reflexivity|].
  cbn [download concat]. rewrite download_generator_app.
  unfold mbind, M_bind, bind.
  destruct (download_generator env self generator st) as [[[]|e] st1]; [apply IH|done].
Qed.

(** X15. An exception that leaves [_download_submission] ends the
    run: [download] raises it with the state as it then is, and no
    submission after that one is processed, in that generator or in
    a later one. *)
Theorem exception_ends_run (before after : list Submission) (s : Submission)
    (reddit_lists : list (list Submission)) (e : Exn) (st st1 st2 : State) :
  download_generator env self before st = (Ok tt, st1) ->
  _download_submission env self s st1 = (Raise e, st2) ->
  download env self ((before ++ s :: after) :: reddit_lists)%list st = (Raise e, st2).
Proof.
  intros Hb Hs. cbn [download]. unfold mbind, M_bind, bind.
  rewrite download_generator_app, Hb. cbn [download_generator].
  unfold mbind, M_bind, bind. by rewrite Hs.
Qed.

Lemma _download_submission_disabled (s : Submission) (st : State) :
  in_list "selfpost" (disable_module (args self)) = true ->
  same_disk st (snd (_download_submission env self s st)).
Proof.
  intros Hdis. unfold _download_submission.
  destruct (rejection env self s); [by repeat split|].
  unfold Downloader.pull_lever.
  destruct (pull_lever_outcomes (bracketed_netloc_ok env) (url s)) as [E|[E|E]];
    rewrite E; unfold call, logger;
    unfold mbind, mret, M_bind, M_ret, try_except, bind, ret, raise, get, modify;
    cbn beta iota.
  - change (Str.lower (class_name SelfPost)) with "selfpost". rewrite Hdis.
    by repeat split.
  - by repeat split.
  - by repeat split.
Qed.

(** X16. With [selfpost] among the disabled modules, a run writes
    nothing: whatever the submissions, and however the run ends, the
    files, the directories, the times and the hash index are those it
    started with. The self-post class is the only one dispatch
    selects. *)
Theorem disabled_selfpost_writes_nothing (reddit_lists : list (list Submission))
    (st : State) :
  in_list "selfpost" (disable_module (args self)) = true ->
  same_disk st (snd (download env self reddit_lists st)).
Proof.
  intros Hdis. rewrite download_flattens.
  generalize (concat reddit_lists). intros generator. revert st.
  induction generator as [|s generator IH]; intros st; [apply same_disk_refl|].
  cbn [download_generator]. unfold mbind, M_bind, bind.
  pose proof (_download_submission_disabled s st Hdis) as H1.
  destruct (_download_submission env self s st) as [[[]|e] st1]; [|exact H1].
  apply (same_disk_trans _ st1); [exact H1|apply IH].
Qed.

End WithDownloader.

(** *** Examples *)

Import Sample.

Lemma undispatched_is_silent_witness :
  let s := mkSubmission "img1" "test" (Some "somebody") 50 (9 # 10) 1600000000
             "https://i.imgur.com/abc.jpg" true in
  _download_submission env (downloader false false) s empty
  = (Ok tt, add_stdout ["https://i.imgur.com/abc.jpg"]
              (add_log (DEBUG, Attempting "img1") empty)).
Proof.
  intros s.
  apply (undispatched_is_silent env (downloader false false) s "i.imgur.com/abc.jpg");
    [reflexivity|reflexivity|by left].
Defined.

Lemma invalid_url_raises_witness :
  let s := mkSubmission "bad1" "test" (Some "somebody") 50 (9 # 10) 1600000000
             "http://[::1/x" true in
  _download_submission env (downloader false false) s empty
  = (Raise ValueError, add_log (DEBUG, Attempting "bad1") empty).
Proof.
  intros s.
  apply (invalid_url_raises env (downloader false false) s ValueError); reflexivity.
Defined.

Lemma exception_ends_run_witness :
  download env_utime_fails (downloader false false)
    [[submission "abc123" 50; submission "zzz" 50]; [submission "def456" 50]] empty
  = (Raise OSError,
     snd (_download_submission env_utime_fails (downloader false false)
            (submission "abc123" 50) empty)).
Proof.
  apply (exception_ends_run env_utime_fails (downloader false false) []
           [submission "zzz" 50] (submission "abc123" 50)
           [[submission "def456" 50]] OSError empty empty);
    by vm_compute.
Defined.

Lemma disabled_selfpost_writes_nothing_witness :
  let self := mkRedditDownloader
                (mkConfiguration [] [] None None None None ["selfpost"] None
                   false false false)
                [] ["out"] in
  same_disk empty
    (snd (download env self [[submission "abc123" 50; submission "def456" 50]] empty)).
Proof.
  intros self. apply disabled_selfpost_writes_nothing. reflexivity.
Defined.

End RunMore.

(** ** More on the submission filter *)

Module FilterMore.

Import Downloader Edge.

Lemma Chr_lower_idem (c : ascii) : Chr.lower (Chr.lower c) = Chr.lower c.
Proof. destruct c as [[] [] [] [] [] [] [] []]; reflexivity. Qed.

Lemma Str_lower_idem (s : string) : Str.lower (Str.lower s) = Str.lower s.
Proof.
  unfold Str.lower. induction s as [|c s IH]; [reflexivity|].
  cbn [Str.map]. by rewrite Chr_lower_idem, IH.
Qed.

Section WithDownloader.

Variable env : Env.
Variable self : RedditDownloader.

(** X17. A score bound that is not set or is zero is no bound: with
    [min_score] and [max_score] both so, the filter gives the same
    answer whatever the score of the submission, also for a negative
    score with [min_score] zero. *)
Theorem zero_score_bounds_do_not_filter (s : Submission) (sc : Z) :
  default 0%Z (min_score (args self)) = 0%Z ->
  default 0%Z (max_score (args self)) = 0%Z ->
  rejection env self (with_score sc s) = rejection env self s.
Proof.
  intros Hmin Hmax. unfold rejection, with_score.
  cbn [id subreddit_display_name author_name score upvote_ratio created_utc url
       is_submission].
  destruct (min_score (args self)) as [m|], (max_score (args self)) as [M|];
    cbn in Hmin, Hmax; subst; reflexivity.
Qed.

(** X18. The name of the subreddit is lowered before it is looked up
    in [skip_subreddit] and the entries of the list are not: an entry
    that is not in lower case matches no subreddit, so a list without
    an entry in lower case skips nothing. *)
Theorem skip_subreddit_entries_in_lower_case (s : Submission) (sub : string) :
  (forall entry, entry ∈ skip_subreddit (args self) -> Str.lower entry <> entry) ->
  rejection env self s <> Some (DEBUG, InSkipList (id s) sub).
Proof.
  intros Hentries. unfold rejection.
  destruct (in_list (id s) _); [discriminate|].
  unfold in_list at 1. case_bool_decide as Hin.
  { exfalso. apply (Hentries _ Hin), Str_lower_idem. }
  repeat match goal with
    | |- context [if ?b then _ else _] => destruct b; try discriminate
    end.
Qed.

End WithDownloader.

(** *** Examples *)

Import Sample.

Lemma zero_score_bounds_do_not_filter_witness :
  let self := mkRedditDownloader
                (mkConfiguration [] [] (Some 0%Z) None None None [] None false false false)
                [] ["out"] in
  rejection env self (with_score (-5) (submission "abc123" 50))
  = rejection env self (submission "abc123" 50).
Proof. apply zero_score_bounds_do_not_filter; reflexivity. Defined.

Lemma skip_subreddit_entries_in_lower_case_witness :
  let self := mkRedditDownloader
                (mkConfiguration ["Test"] [] None None None None [] None false false false)
                [] ["out"] in
  rejection env self (submission "abc123" 50)
  <> Some (DEBUG, InSkipList "abc123" "test").
Proof.
  apply (skip_subreddit_entries_in_lower_case env _ (submission "abc123" 50) "test").
  intros entry Hin. apply list_elem_of_singleton in Hin as ->. discriminate.
Defined.

End FilterMore.

(** ** Where the scanned paths are *)

Module ScanPaths.

Import Downloader Scan.

(** [os.walk] below an entry of [dirpath] yields directories below
    [dirpath]. *)
Lemma walk_entry_below (e : Entry) :
  forall dirpath t, In t (walk_entry dirpath e) ->
    exists below, fst (fst t) = (dirpath ++ below)%list /\ below <> [].
Proof.
  induction e as [name content|name entries IH] using Entry_tree_ind;
    intros dirpath t Hin; [destruct Hin|].
  cbn [walk_entry] in Hin. destruct Hin as [<-|Hin].
  - exists [name]. by split.
  - apply in_flat_map in Hin as (e & He & Hin).
    rewrite Forall_forall in IH.
    destruct (IH e (proj2 (list_elem_of_In _ _) He) _ _ Hin) as (below & -> & _).
    exists (name :: below). split; [|done].
    unfold joinpath. by rewrite <- app_assoc.
Qed.

(** X19. Every path of the index that the scan builds is the path of
    a file below the directory scanned: the directory, then one or
    more names. *)
Theorem scan_paths_below_directory (h : Hashlib) (directory : Path)
    (entries : list Entry) (hash : string) (path : Path) :
  scan_existing_files h directory entries !! hash = Some path ->
  exists below, path = (directory ++ below)%list /\ below <> [].
Proof.
  unfold scan_existing_files. intros H.
  apply hash_dict_lookup in H as (earlier & later & E & _).
  assert (In (path, hash) (List.map (_calc_hash h) (walk_files directory entries)))
    as Hin.
  { rewrite E. apply in_or_app. right. by left. }
  apply in_map_iff in Hin as ([p content] & [= <- _] & Hin).
  unfold walk_files in Hin.
  apply in_flat_map in Hin as ([[dirpath dnames] names] & Ht & Hin).
  apply in_map_iff in Hin as ([file c] & [= <- _] & _).
  unfold walk in Ht. destruct Ht as [[= <- _ _]|Ht].
  - exists [file]. by split.
  - apply in_flat_map in Ht as (e & _ & Ht).
    apply walk_entry_below in Ht as (below & Hb & _). cbn [fst] in Hb. subst dirpath.
    exists (below ++ [file])%list. split.
    + unfold joinpath. by rewrite <- app_assoc.
    + by destruct below.
Qed.

Lemma scan_paths_below_directory_witness :
  exists below,
    ["out"; "sub"; "b"] = (["out"] ++ below)%list /\ below <> [].
Proof.
  apply (scan_paths_below_directory Sample.keep_all ["out"]
           [File "a" Sample.text; Directory "sub" [File "b" Sample.picture]]
           (md5 Sample.keep_all Sample.picture)).
  vm_compute. reflexivity.
Defined.

End ScanPaths.
